(** * lifecycle-analysis-v2: normalization and analytics engine

    A shallow embedding of [backend/src/utils/columnMapper.js] (the column
    mapper: [normalizeRow], [normalizeSupport], [formatDate],
    [normalizeNumber], [processData], [getColumnMapping]) and of the
    processing, analytics and results code of
    [backend/src/controllers/uploadController.js] (the built-in [processData]
    with its strict [normalizeSupport], the totals and breakdowns of
    [uploadFile], [fieldCompleteness], [lifecycleByCategory], [getResults],
    the file names of [exportResults], [cleanupOldJobs]).

    Modelling conventions.
    - Strings are ASCII text ([string]); case mapping and white space are those
      of the ASCII range, and a statement that relies on a law of the case
      maps says that its text is ASCII.
    - A JavaScript number is [NaN], an infinity or a finite rational: finite
      arithmetic is exact; of IEEE doubles only the overflow of [parseFloat]
      to an infinity is modelled, not the rounding.
      Integer-valued pipelines ([parseInt(x) || 0], counters, quantity sums,
      pagination indices) are carried in [Z].
    - An object is its list of own properties in insertion order;
      integer-like keys, which an engine lists before the others, are not set
      apart. Where the code makes an object by [{}] and reads or writes it
      under a key taken from the data (the normalized row, the column mapping,
      the breakdowns), the members inherited from [Object.prototype] and the
      accessor [__proto__] are modelled; the job store is read by its own
      properties.
    - What ECMAScript leaves to the engine is a parameter of the development:
      the rendering of a non-integer number, and [Date.parse] on a string that
      is not a calendar date [YYYY-MM-DD]. *)

From Stdlib Require Import String Ascii List ZArith QArith Qabs Qround Lia Bool.
From Stdlib Require Import DecimalString.
Import ListNotations.

Open Scope string_scope.
Open Scope Z_scope.

(* ===================================================================== *)
(** ** Characters and strings (String.prototype) *)
(* ===================================================================== *)

Module Js.

Definition code (c : ascii) : Z := Z.of_nat (nat_of_ascii c).

Definition chr (n : Z) : ascii := ascii_of_nat (Z.to_nat n).

(** White space of [trim] and of the regular expression class [\s]. *)
Definition isWhiteSpace (c : ascii) : bool :=
  let n := code c in (n =? 32) || ((9 <=? n) && (n <=? 13)).

Definition isDigit (c : ascii) : bool :=
  let n := code c in (48 <=? n) && (n <=? 57).

Definition isLower (c : ascii) : bool :=
  let n := code c in (97 <=? n) && (n <=? 122).

Definition isUpper (c : ascii) : bool :=
  let n := code c in (65 <=? n) && (n <=? 90).

(** The ASCII range, on which the case maps below are those of
    [String.prototype]. *)
Definition isAscii (c : ascii) : bool := code c <? 128.

(** The case maps of [toLowerCase] and [toUpperCase] on an ASCII character. *)
Definition lowerChar (c : ascii) : ascii :=
  if isUpper c then chr (code c + 32) else c.

Definition upperChar (c : ascii) : ascii :=
  if isLower c then chr (code c - 32) else c.

Fixpoint mapString (f : ascii -> ascii) (s : string) : string :=
  match s with
  | EmptyString => EmptyString
  | String c s' => String (f c) (mapString f s')
  end.

Definition toLowerCase : string -> string := mapString lowerChar.
Definition toUpperCase : string -> string := mapString upperChar.

Fixpoint trimStart (s : string) : string :=
  match s with
  | String c s' => if isWhiteSpace c then trimStart s' else s
  | EmptyString => EmptyString
  end.

Fixpoint trimEnd (s : string) : string :=
  match s with
  | EmptyString => EmptyString
  | String c s' =>
      let t := trimEnd s' in
      if isWhiteSpace c && (t =? "")%string then EmptyString else String c t
  end.

Definition trim (s : string) : string := trimEnd (trimStart s).

(** [s.includes(sub)]. *)
Fixpoint includes (s sub : string) : bool :=
  String.prefix sub s ||
  match s with
  | EmptyString => false
  | String _ s' => includes s' sub
  end.

(** [s.replace(/[...]/g, '')] for a character class [cls]. *)
Fixpoint removeAll (cls : ascii -> bool) (s : string) : string :=
  match s with
  | EmptyString => EmptyString
  | String c s' => if cls c then removeAll cls s' else String c (removeAll cls s')
  end.

(** [s.replace(/\s+/g, r)]: every maximal run of white space becomes one [r];
    [inRun] tells that the previous character was white space. *)
Fixpoint replaceRuns (r : ascii) (inRun : bool) (s : string) : string :=
  match s with
  | EmptyString => EmptyString
  | String c s' =>
      if isWhiteSpace c
      then if inRun then replaceRuns r true s' else String r (replaceRuns r true s')
      else String c (replaceRuns r false s')
  end.

Fixpoint allChars (p : ascii -> bool) (s : string) : bool :=
  match s with
  | EmptyString => true
  | String c s' => p c && allChars p s'
  end.

(** Leading characters of [s] that satisfy [p], and the rest. *)
Fixpoint span (p : ascii -> bool) (s : string) : string * string :=
  match s with
  | String c s' =>
      if p c then let '(a, b) := span p s' in (String c a, b) else (EmptyString, s)
  | EmptyString => (EmptyString, EmptyString)
  end.

(** The rest of [s] after the prefix [p], when [s] starts with [p]. *)
Fixpoint stripPrefix (p s : string) : option string :=
  match p, s with
  | EmptyString, _ => Some s
  | String a p', String b s' => if Ascii.eqb a b then stripPrefix p' s' else None
  | String _ _, EmptyString => None
  end.

(* ===================================================================== *)
(** ** Numbers and scalar values *)
(* ===================================================================== *)

Inductive number : Type :=
| NaN
| Infinity (negative : bool)
| Fin (q : Q).

Inductive scalar : Type :=
| VUndefined
| VNull
| VBool (b : bool)
| VNum (n : number)
| VStr (s : string).

Definition isNaN (n : number) : bool :=
  match n with NaN => true | _ => false end.

Definition ofZ (z : Z) : number := Fin (inject_Z z).

(** ToBoolean. *)
Definition truthy (v : scalar) : bool :=
  match v with
  | VUndefined | VNull => false
  | VBool b => b
  | VNum NaN => false
  | VNum (Infinity _) => true
  | VNum (Fin q) => negb (Qeq_bool q 0)
  | VStr s => negb (s =? "")%string
  end.

(** [v === s] for a string literal [s]. *)
Definition strictEqStr (v : scalar) (s : string) : bool :=
  match v with
  | VStr s' => (s' =? s)%string
  | _ => false
  end.

(** [a || b]. *)
Definition orElse (a b : scalar) : scalar := if truthy a then a else b.

(** SameValueZero, the equality the elements of a [Set] are compared with. *)
Definition sameValueZero (a b : scalar) : bool :=
  match a, b with
  | VUndefined, VUndefined => true
  | VNull, VNull => true
  | VBool x, VBool y => Bool.eqb x y
  | VNum NaN, VNum NaN => true
  | VNum (Infinity x), VNum (Infinity y) => Bool.eqb x y
  | VNum (Fin p), VNum (Fin q) => Qeq_bool p q
  | VStr s, VStr t => (s =? t)%string
  | _, _ => false
  end.

Definition Zdigits (z : Z) : string := NilEmpty.string_of_int (Z.to_int z).

(** Value of a run of digits in base [radix], most significant first. *)
Definition digitValue (c : ascii) : Z :=
  if isDigit c then code c - 48
  else if isLower c then code c - 87
  else code c - 55.

Fixpoint digitsValue (radix : Z) (acc : Z) (s : string) : Z :=
  match s with
  | EmptyString => acc
  | String c s' => digitsValue radix (acc * radix + digitValue c) s'
  end.

Definition isHexDigit (c : ascii) : bool :=
  isDigit c
  || ((97 <=? code c) && (code c <=? 102))
  || ((65 <=? code c) && (code c <=? 70)).

(** [parseInt(s)] with no radix argument; [None] is [NaN]. *)
Definition parseIntStr (s : string) : option Z :=
  let s := trimStart s in
  let '(sign, s) :=
    match s with
    | String "-" r => (-1, r)
    | String "+" r => (1, r)
    | _ => (1, s)
    end in
  let '(radix, s) :=
    match s with
    | String "0" (String "x" r) | String "0" (String "X" r) => (16, r)
    | _ => (10, s)
    end in
  let '(ds, _) := span (if radix =? 16 then isHexDigit else isDigit) s in
  match ds with
  | EmptyString => None
  | _ => Some (sign * digitsValue radix 0 ds)
  end.

(** [x || d] on an integer-or-NaN result. *)
Definition orInt (x : option Z) (d : Z) : Z :=
  match x with
  | Some 0 | None => d
  | Some z => z
  end.

(** Doubles overflow to infinity from [2^1024 - 2^970] on. *)
Definition overflowBound : Q := inject_Z (2 ^ 1024 - 2 ^ 970).

Definition clipRange (q : Q) : number :=
  if Qle_bool overflowBound q then Infinity false
  else if Qle_bool q (- overflowBound) then Infinity true
  else Fin (Qred q).

Definition pow10 (e : Z) : Q := Qpower (inject_Z 10) e.

(** The exponent part [e[+-]digits] at the head of [s], if there is one. *)
Definition exponentPart (s : string) : Z :=
  match s with
  | String c r =>
      if (code c =? 101) || (code c =? 69) then
        let '(sign, r) :=
          match r with
          | String "-" r' => (-1, r')
          | String "+" r' => (1, r')
          | _ => (1, r)
          end in
        let '(ds, _) := span isDigit r in
        sign * digitsValue 10 0 ds
      else 0
  | EmptyString => 0
  end.

(** [parseFloat(s)]: the longest prefix of the trimmed string that is a decimal
    literal, as the exact value of that literal. *)
Definition parseFloat (s : string) : number :=
  let s := trimStart s in
  let '(negative, s) :=
    match s with
    | String "-" r => (true, r)
    | String "+" r => (false, r)
    | _ => (false, s)
    end in
  match stripPrefix "Infinity" s with
  | Some _ => Infinity negative
  | None =>
      let '(ip, r) := span isDigit s in
      let '(fp, r) :=
        match r with
        | String "." r' => span isDigit r'
        | _ => (EmptyString, r)
        end in
      match (ip ++ fp)%string with
      | EmptyString => NaN
      | ds =>
          let m := inject_Z (digitsValue 10 0 ds) in
          let e := exponentPart r - Z.of_nat (String.length fp) in
          let q := (m * pow10 e)%Q in
          clipRange (if negative then (- q)%Q else q)
      end
  end.

(* ===================================================================== *)
(** ** Dates (ECMAScript time values: milliseconds since the epoch, UTC) *)
(* ===================================================================== *)

Definition msPerDay : Z := 86400000.

Definition Day (t : Z) : Z := t / msPerDay.

Definition DayFromYear (y : Z) : Z :=
  365 * (y - 1970) + (y - 1969) / 4 - (y - 1901) / 100 + (y - 1601) / 400.

Definition isLeapYear (y : Z) : bool :=
  (y mod 4 =? 0) && (negb (y mod 100 =? 0) || (y mod 400 =? 0)).

Definition DaysInYear (y : Z) : Z := if isLeapYear y then 366 else 365.

(** The year [y] with [DayFromYear y <= d < DayFromYear (y + 1)]: an estimate
    from the mean length of a year, corrected by one. *)
Definition YearFromDay (d : Z) : Z :=
  let y := 1970 + (d * 400) / 146097 in
  if d <? DayFromYear y then y - 1
  else if DayFromYear (y + 1) <=? d then y + 1
  else y.

Definition YearFromTime (t : Z) : Z := YearFromDay (Day t).

Definition DayWithinYear (t : Z) : Z := Day t - DayFromYear (YearFromTime t).

(** First day within the year of month [m] (0-based); [leap] is 1 in a leap
    year and 0 otherwise. *)
Definition monthStart (leap m : Z) : Z :=
  match m with
  | 0 => 0
  | 1 => 31
  | 2 => 59 + leap
  | 3 => 90 + leap
  | 4 => 120 + leap
  | 5 => 151 + leap
  | 6 => 181 + leap
  | 7 => 212 + leap
  | 8 => 243 + leap
  | 9 => 273 + leap
  | 10 => 304 + leap
  | 11 => 334 + leap
  | _ => 365 + leap
  end.

Definition leapDays (y : Z) : Z := if isLeapYear y then 1 else 0.

Fixpoint monthOfDay (leap d : Z) (candidates : list Z) : Z :=
  match candidates with
  | [] => 11
  | m :: rest => if d <? monthStart leap (m + 1) then m else monthOfDay leap d rest
  end.

Definition MonthFromTime (t : Z) : Z :=
  monthOfDay (leapDays (YearFromTime t)) (DayWithinYear t) [0; 1; 2; 3; 4; 5; 6; 7; 8; 9; 10].

Definition DateFromTime (t : Z) : Z :=
  DayWithinYear t - monthStart (leapDays (YearFromTime t)) (MonthFromTime t) + 1.

(** The [width] last decimal digits of [n], zero padded. *)
Fixpoint pad (width : nat) (n : Z) : string :=
  match width with
  | O => EmptyString
  | S w => (pad w (n / 10) ++ String (chr (48 + n mod 10)) EmptyString)%string
  end.

(** The year of [toISOString]: four digits, or a sign and six digits. *)
Definition isoYear (y : Z) : string :=
  if (0 <=? y) && (y <=? 9999) then pad 4 y
  else if y <? 0 then ("-" ++ pad 6 (Z.abs y))%string
  else ("+" ++ pad 6 y)%string.

(** [date.toISOString().split('T')[0]] for the time value [t]. *)
Definition toISODate (t : Z) : string :=
  (isoYear (YearFromTime t) ++ "-" ++ pad 2 (MonthFromTime t + 1)
     ++ "-" ++ pad 2 (DateFromTime t))%string.

Definition daysInMonth (y m : Z) : Z :=
  monthStart (leapDays y) m - monthStart (leapDays y) (m - 1).

(** [Date.parse] on the date-only form [YYYY-MM-DD] of the Date Time String
    Format: midnight UTC of a day that exists in the calendar. *)
Definition parseISODate (s : string) : option Z :=
  match s with
  | String y1 (String y2 (String y3 (String y4 (String "-"
      (String m1 (String m2 (String "-" (String d1 (String d2 EmptyString))))))))) =>
      if allChars isDigit (String y1 (String y2 (String y3 (String y4
           (String m1 (String m2 (String d1 (String d2 EmptyString))))))))
      then
        let y := digitsValue 10 0 (String y1 (String y2 (String y3 (String y4 EmptyString)))) in
        let m := digitsValue 10 0 (String m1 (String m2 EmptyString)) in
        let d := digitsValue 10 0 (String d1 (String d2 EmptyString)) in
        if (1 <=? m) && (m <=? 12) && (1 <=? d) && (d <=? daysInMonth y m)
        then Some ((DayFromYear y + monthStart (leapDays y) (m - 1) + d - 1) * msPerDay)
        else None
      else None
  | _ => None
  end.

(** TimeClip of a number: the time value of [new Date(n)]. *)
Definition maxTime : Z := 8640000000000000.

Definition truncate (q : Q) : Z := Z.quot (Qnum q) (Z.pos (Qden q)).

Definition TimeClip (n : number) : option Z :=
  match n with
  | Fin q => if Qle_bool (Qabs q) (inject_Z maxTime) then Some (truncate q) else None
  | _ => None
  end.

(** What the language leaves to the engine. *)
Record engine : Type := {
  (** Number::toString on a finite number that is not an integer below 10^21 *)
  fractionToString : Q -> string;
  (** [Date.parse] on a string that is not of the form [YYYY-MM-DD] *)
  parseOtherDate : string -> option Z
}.

Section Engine.

Variable E : engine.

Definition numberToString (n : number) : string :=
  match n with
  | NaN => "NaN"
  | Infinity false => "Infinity"
  | Infinity true => "-Infinity"
  | Fin q =>
      let r := Qred q in
      if (Z.pos (Qden r) =? 1) && (Z.abs (Qnum r) <? 10 ^ 21)
      then Zdigits (Qnum r)
      else fractionToString E q
  end.

(** ToString; [v.toString()] agrees with it on every value that has the
    method, and the source calls the method on truthy values only. *)
Definition toString (v : scalar) : string :=
  match v with
  | VUndefined => "undefined"
  | VNull => "null"
  | VBool true => "true"
  | VBool false => "false"
  | VNum n => numberToString n
  | VStr s => s
  end.

(** [parseInt(v)]; [None] is [NaN]. *)
Definition parseInt (v : scalar) : option Z := parseIntStr (toString v).

Definition Date_parse (s : string) : option Z :=
  match parseISODate s with
  | Some t => Some t
  | None => parseOtherDate E s
  end.

(** The time value of [new Date(v)]; [None] is an invalid date, whose
    [getTime()] is [NaN]. *)
Definition newDate (v : scalar) : option Z :=
  match v with
  | VStr s => Date_parse s
  | VNum n => TimeClip n
  | VBool true => Some 1
  | VBool false => Some 0
  | VNull => Some 0
  | VUndefined => None
  end.

End Engine.

(* ===================================================================== *)
(** ** Objects: own properties in insertion order *)
(* ===================================================================== *)

Section Dict.

Variable A : Type.

Definition dict : Type := list (string * A).

Fixpoint lookup (o : dict) (k : string) : option A :=
  match o with
  | [] => None
  | (k', a) :: o' => if (k' =? k)%string then Some a else lookup o' k
  end.

(** [o[k] = a]: an existing property keeps its place. *)
Fixpoint assign (o : dict) (k : string) (a : A) : dict :=
  match o with
  | [] => [(k, a)]
  | (k', a') :: o' =>
      if (k' =? k)%string then (k', a) :: o' else (k', a') :: assign o' k a
  end.

Definition keys (o : dict) : list string := map fst o.

End Dict.

Arguments lookup {A} o k.
Arguments assign {A} o k a.
Arguments keys {A} o.

(** [delete o[k]]. *)
Definition remove {A : Type} (o : dict A) (k : string) : dict A :=
  filter (fun entry => negb (fst entry =? k)%string) o.

Definition obj : Type := dict scalar.

(** [o[k]] on a row. *)
Definition get (o : obj) (k : string) : scalar :=
  match lookup o k with
  | Some v => v
  | None => VUndefined
  end.

Definition hasOwn {A : Type} (o : dict A) (k : string) : bool :=
  match lookup o k with
  | Some _ => true
  | None => false
  end.

(** The members an object made by [{}] inherits from [Object.prototype].
    Reading one of these keys on an object that has no own property of that
    name yields the inherited member, a function (for [__proto__], the
    prototype itself), which is truthy. *)
Definition objectPrototype : list string :=
  [ "constructor"; "__defineGetter__"; "__defineSetter__"; "hasOwnProperty";
    "__lookupGetter__"; "__lookupSetter__"; "isPrototypeOf"; "propertyIsEnumerable";
    "toString"; "valueOf"; "__proto__"; "toLocaleString" ].

Definition inherited (k : string) : bool := existsb (String.eqb k) objectPrototype.

Inductive error : Type :=
| TypeError.

Inductive result (A : Type) : Type :=
| Return (a : A)
| Throw (e : error).

Arguments Return {A} a.
Arguments Throw {A} e.

End Js.

(* ===================================================================== *)
(** ** backend/src/utils/columnMapper.js *)
(* ===================================================================== *)

Module ColumnMapper.

Import Js.

(** Map of possible column name variations to standardized field names, in
    the order of [Object.entries]. *)
Definition COLUMN_MAPPINGS : list (string * list string) :=
  [ ("mfg", ["mfg"; "manufacturer"; "vendor"; "supplier"; "make"; "brand"]);
    ("category", ["category"; "business entity"; "business_entity"; "businessentity";
                  "bus_entity"; "product category"; "product_category"]);
    ("asset_type", ["asset type"; "asset_type"; "assettype"; "type of asset";
                    "equipment type"; "equipment_type"]);
    ("type", ["type"; "product type"; "product_type"; "model type"; "model_type"]);
    ("product_id", ["product id"; "product_id"; "productid"; "pid"; "product number";
                    "product_number"; "part number"; "part_number"; "sku"]);
    ("description", ["description"; "product description"; "product_description";
                     "productdescription"; "desc"; "details"; "product details"]);
    ("ship_date", ["ship date"; "ship_date"; "shipdate"; "ship dt"; "ship_dt";
                   "shipped date"; "shipped_date"; "date shipped"; "date_shipped"]);
    ("qty", ["qty"; "quantity"; "count"; "amount"; "units"; "total qty"; "total_qty"]);
    ("total_value", ["total value"; "total_value"; "totalvalue"; "value"; "cost"; "price";
                     "total cost"; "total_cost"; "total price"; "total_price";
                     "extended price"; "extended_price"]);
    ("support_coverage", ["support coverage"; "support_coverage"; "supportcoverage";
                          "coverage"; "maintenance"; "support status"; "support_status";
                          "maintenance status"; "maintenance_status"; "covered"]);
    ("end_of_sale", ["end of sale"; "end_of_sale"; "endofsale"; "end of product sale";
                     "end_of_product_sale"; "eos"; "sale end date"; "sale_end_date";
                     "discontinued date"; "discontinued_date"]);
    ("last_day_support", ["last day support"; "last_day_support"; "lastdaysupport";
                          "last support"; "last_support"; "last date of support";
                          "last_date_of_support"; "end of support"; "end_of_support";
                          "support end date"; "support_end_date"; "eosl"]) ].

(** A raw row as the decoder hands it over: an object, or [null]/[undefined]. *)
Inductive row : Type :=
| Nullish
| Object (o : obj).

(** The guard the three coercers open with:
    [!value || value === '-' || value === 'N/A' || value === 'n/a']. *)
Definition sentinel (value : scalar) : bool :=
  negb (truthy value) || strictEqStr value "-" || strictEqStr value "N/A"
  || strictEqStr value "n/a".

(** [lowerKey.replace(/\s+/g, '_').replace(/[^a-z0-9_]/g, '')]. *)
Definition cleanKey (lowerKey : string) : string :=
  removeAll (fun c => negb (isLower c || isDigit c || (c =? "_")%char))
            (replaceRuns "_" false lowerKey).

Section WithEngine.

Variable E : engine.

(** Normalize support/coverage status values. *)
Definition normalizeSupport (value : scalar) : scalar :=
  if sentinel value then VStr "-"
  else
    let lowerValue := trim (toLowerCase (toString E value)) in
    if includes lowerValue "covered"
       || includes lowerValue "active"
       || includes lowerValue "yes"
       || includes lowerValue "valid"
       || includes lowerValue "current"
       || includes lowerValue "maintenance"
       || (lowerValue =? "y")%string
       || (lowerValue =? "1")%string
       || (lowerValue =? "true")%string
    then VStr "Active"
    else if includes lowerValue "not covered"
       || includes lowerValue "no coverage"
       || includes lowerValue "expired"
       || includes lowerValue "none"
       || includes lowerValue "no"
       || (lowerValue =? "n")%string
       || (lowerValue =? "0")%string
       || (lowerValue =? "false")%string
    then VStr "Expired"
    else value.

(** Format date values consistently. *)
Definition formatDate (value : scalar) : scalar :=
  if sentinel value then VStr "-"
  else
    match newDate E value with
    | None => value
    | Some date => VStr (toISODate date)
    end.

(** Normalize numeric values. *)
Definition normalizeNumber (value : scalar) : number :=
  if sentinel value then ofZ 0
  else
    let cleanValue :=
      trim (removeAll (fun c => (c =? "$")%char || (c =? ",")%char) (toString E value)) in
    let number := parseFloat cleanValue in
    if isNaN number then ofZ 0 else number.

(** [normalized[key] = value] on the object that [normalizeRow] builds from
    [{}]; [bare] tells that its prototype has been set to [null]. As long as
    the object inherits from [Object.prototype] and has no own property
    [__proto__], that key is the inherited accessor: its setter makes [null]
    the prototype, ignores every other scalar, and writes no property. *)
Definition store (state : bool * obj) (key : string) (value : scalar) : bool * obj :=
  let '(bare, normalized) := state in
  if (key =? "__proto__")%string && negb bare && negb (hasOwn normalized key)
  then (match value with VNull => true | _ => false end, normalized)
  else (bare, assign normalized key value).

(** The body of [Object.keys(row).forEach(originalKey => ...)]. *)
Definition mapKey (row : obj) (state : bool * obj) (originalKey : string) : bool * obj :=
  let lowerKey := trim (toLowerCase originalKey) in
  match find (fun m => existsb (fun variation => (variation =? lowerKey)%string) (snd m))
             COLUMN_MAPPINGS with
  | Some (standardName, _) => store state standardName (get row originalKey)
  | None => store state (cleanKey lowerKey) (get row originalKey)
  end.

(** Normalize column names to match standard field names; [Object.keys]
    throws on [null] and [undefined]. *)
Definition normalizeRow (r : row) : result obj :=
  match r with
  | Nullish => Throw TypeError
  | Object row =>
      let normalized := snd (fold_left (mapKey row) (keys row) (false, [])) in
      let normalized :=
        assign normalized "support_coverage"
               (normalizeSupport (get normalized "support_coverage")) in
      let normalized :=
        assign normalized "ship_date" (formatDate (get normalized "ship_date")) in
      let normalized :=
        assign normalized "end_of_sale" (formatDate (get normalized "end_of_sale")) in
      let normalized :=
        assign normalized "last_day_support"
               (formatDate (get normalized "last_day_support")) in
      let normalized :=
        assign normalized "qty" (VNum (normalizeNumber (get normalized "qty"))) in
      let normalized :=
        assign normalized "total_value"
               (VNum (normalizeNumber (get normalized "total_value"))) in
      Return normalized
  end.

(** The callback of [data.map((row, index) => ...)], with its try/catch. *)
Definition processRow (r : row) (index : Z) : row :=
  match normalizeRow r with
  | Return normalized =>
      if negb (truthy (get normalized "id"))
      then Object (assign normalized "id" (VNum (ofZ (index + 1))))
      else Object normalized
  | Throw _ => r
  end.

(** [data.map(f)] from position [index] on. *)
Fixpoint mapFrom {A B : Type} (f : A -> Z -> B) (index : Z) (data : list A) : list B :=
  match data with
  | [] => []
  | a :: rest => f a index :: mapFrom f (index + 1) rest
  end.

(** Process an array of rows and normalize all column names. *)
Definition processData (data : list row) : list row := mapFrom processRow 0 data.

End WithEngine.

(** [mapping[key] = name] on the mapping that [getColumnMapping] builds from
    [{}]: a text written to [__proto__] goes to the accessor inherited from
    [Object.prototype], which ignores it. *)
Definition note (mapping : dict string) (key name : string) : dict string :=
  if (key =? "__proto__")%string && negb (hasOwn mapping key) then mapping
  else assign mapping key name.

(** Whether [mapping[key]] is truthy: an own entry that is not the empty
    text, or else a member inherited from [Object.prototype]. *)
Definition noted (mapping : dict string) (key : string) : bool :=
  match lookup mapping key with
  | Some name => negb (name =? "")%string
  | None => inherited key
  end.

(** The body of the [forEach] of [getColumnMapping]: the header is mapped to
    its standard name when a variation matches, and to its cleaned form when
    [mapping[originalKey]] is still falsy after that. *)
Definition mapHeader (mapping : dict string) (originalKey : string) : dict string :=
  let lowerKey := trim (toLowerCase originalKey) in
  let mapping :=
    match find (fun m => existsb (fun variation => (variation =? lowerKey)%string) (snd m))
               COLUMN_MAPPINGS with
    | Some (standardName, _) => note mapping originalKey standardName
    | None => mapping
    end in
  if noted mapping originalKey then mapping
  else note mapping originalKey (cleanKey lowerKey).

(** Get column headers from the first row and map them; [Object.keys] throws
    on a first row that is [null] or [undefined]. *)
Definition getColumnMapping (data : list row) : result (dict string) :=
  match data with
  | [] => Return []
  | Nullish :: _ => Throw TypeError
  | Object firstRow :: _ => Return (fold_left mapHeader (keys firstRow) [])
  end.

End ColumnMapper.

(* ===================================================================== *)
(** ** backend/src/controllers/uploadController.js *)
(* ===================================================================== *)

Module UploadController.

Import Js.

Record group : Type := {
  count : Z;
  quantity : Z;
  activeCount : Z;
  expiredCount : Z
}.

Record lifecycle : Type := {
  totalQty : Z;
  endOfSale : Z;
  endOfSWVuln : Z;
  lastDaySupport : Z;
  total : Z
}.

Definition requiredFields : list string :=
  [ "mfg"; "category"; "product_id"; "description"; "support_coverage";
    "end_of_sale"; "last_day_support"; "asset_type"; "ship_date" ].

(** The operators [/] and [*] and [Math.round] on numbers. *)
Definition sign (q : Q) : bool := Qle_bool q 0 && negb (Qeq_bool q 0).

Definition divide (a b : number) : number :=
  match a, b with
  | NaN, _ | _, NaN => NaN
  | Infinity _, Infinity _ => NaN
  | Infinity s, Fin q => Infinity (xorb s (sign q))
  | Fin _, Infinity _ => Fin 0
  | Fin p, Fin q =>
      if Qeq_bool q 0
      then if Qeq_bool p 0 then NaN else Infinity (sign p)
      else Fin (p / q)
  end.

Definition times (a b : number) : number :=
  match a, b with
  | NaN, _ | _, NaN => NaN
  | Infinity s, Infinity s' => Infinity (xorb s s')
  | Infinity s, Fin q | Fin q, Infinity s =>
      if Qeq_bool q 0 then NaN else Infinity (xorb s (sign q))
  | Fin p, Fin q => Fin (p * q)
  end.

Definition Math_round (n : number) : number :=
  match n with
  | Fin q => ofZ (Qfloor (q + (1 # 2)))
  | _ => n
  end.

(** [job.data.slice(start, end)]. *)
Definition slice {A : Type} (l : list A) (start final : Z) : list A :=
  let len := Z.of_nat (length l) in
  let k := if start <? 0 then Z.max (len + start) 0 else Z.min start len in
  let final := if final <? 0 then Z.max (len + final) 0 else Z.min final len in
  firstn (Z.to_nat (final - k)) (skipn (Z.to_nat k) l).

(** A query parameter: a string, or absent; [parseInt(undefined)] is [NaN]. *)
Definition parseIntParam (p : option string) : option Z :=
  match p with
  | Some s => parseIntStr s
  | None => None
  end.

Record pagination : Type := {
  pg_total : Z;
  pg_limit : Z;
  pg_offset : Z
}.

Record job : Type := {
  data : list obj
}.

Inductive response : Type :=
| Status404
| Json (products : list obj) (pages : pagination).

(** Results handler (the summary it echoes is left out). *)
Definition getResults (jobStorage : dict job) (jobId : string)
    (queryLimit queryOffset : option string) : response :=
  match lookup jobStorage jobId with
  | None => Status404
  | Some job =>
      let limit := orInt (parseIntParam queryLimit) (Z.of_nat (length (data job))) in
      let offset := orInt (parseIntParam queryOffset) 0 in
      Json (slice (data job) offset (offset + limit))
           {| pg_total := Z.of_nat (length (data job));
              pg_limit := limit;
              pg_offset := offset |}
  end.

(** [s.replace(/[^a-z0-9]/gi, '_')]. *)
Definition underscoreNonAlnum (s : string) : string :=
  mapString (fun c => if isLower c || isUpper c || isDigit c then c else "_"%char) s.

(** The file name of an export made at time [now], with its extension. *)
Definition exportFilename (customerName : string) (now : Z) (extension : string) : string :=
  ("export_" ++ underscoreNonAlnum customerName ++ "_" ++ toISODate now ++ extension)%string.

(** Clear old jobs from memory: one step of the loop over the keys. Reading
    [.timestamp] of a job that is no longer stored would throw. *)
Definition cleanupStep {A : Type} (timestamp : A -> Z) (oneHourAgo : Z)
    (acc : result (dict A)) (jobId : string) : result (dict A) :=
  match acc with
  | Throw e => Throw e
  | Return jobStorage =>
      match lookup jobStorage jobId with
      | None => Throw TypeError
      | Some job =>
          if timestamp job <? oneHourAgo
          then Return (remove jobStorage jobId)
          else Return jobStorage
      end
  end.

Definition cleanupOldJobs {A : Type} (timestamp : A -> Z) (now : Z)
    (jobStorage : dict A) : result (dict A) :=
  let oneHourAgo := now - 60 * 60 * 1000 in
  fold_left (cleanupStep timestamp oneHourAgo) (keys jobStorage) (Return jobStorage).

Definition activeSupport (normalizedData : list obj) : Z :=
  Z.of_nat
    (length (filter (fun item => strictEqStr (get item "support_coverage") "Active")
                    normalizedData)).

Definition expiredSupport (normalizedData : list obj) : Z :=
  Z.of_nat
    (length (filter (fun item => strictEqStr (get item "support_coverage") "Expired")
                    normalizedData)).

(** The [supportCoverage] percentage of the summary. *)
Definition summarySupportCoverage (normalizedData : list obj) : number :=
  let totalRecords := Z.of_nat (length normalizedData) in
  if 0 <? totalRecords
  then Math_round
         (times (divide (ofZ (activeSupport normalizedData)) (ofZ totalRecords)) (ofZ 100))
  else ofZ 0.

(** [row.a || row.b || ... || fallback]. *)
Fixpoint firstOf (row : obj) (names : list string) (fallback : scalar) : scalar :=
  match names with
  | [] => fallback
  | name :: rest => if truthy (get row name) then get row name else firstOf row rest fallback
  end.

(** [set.add(v)] on the elements of a [Set], kept in insertion order, and
    [[...new Set(values)]]. *)
Definition setAdd (elements : list scalar) (v : scalar) : list scalar :=
  if existsb (sameValueZero v) elements then elements else (elements ++ [v])%list.

Definition distinct (values : list scalar) : list scalar := fold_left setAdd values [].

(** Total unique categories. *)
Definition uniqueCategories (normalizedData : list obj) : list scalar :=
  distinct
    (map (fun item => orElse (get item "category") (VStr "Uncategorized")) normalizedData).

Definition totalCategories (normalizedData : list obj) : Z :=
  Z.of_nat (length (uniqueCategories normalizedData)).

(** Total unique manufacturers. *)
Definition totalManufacturers (normalizedData : list obj) : Z :=
  Z.of_nat
    (length
       (distinct
          (filter (fun m => truthy m && negb (strictEqStr m "-"))
                  (map (fun item => get item "mfg") normalizedData)))).

Section WithEngine.

Variable E : engine.

(** The built-in [normalizeSupport] (used when the column mapper is missing). *)
Definition normalizeSupport (value : scalar) : scalar :=
  if negb (truthy value)
     || strictEqStr value ""
     || match value with VNull | VUndefined => true | _ => false end
  then VStr "Expired"
  else
    let strValue := trim (toString E value) in
    let upperValue := toUpperCase strValue in
    if (strValue =? "-")%string || (strValue =? ".")%string || (strValue =? "?")%string
       || (strValue =? "0")%string || (strValue =? "")%string
    then VStr "Expired"
    else if (upperValue =? "ACTIVE")%string || (upperValue =? "COVERED")%string
    then VStr "Active"
    else VStr "Expired".

(** The [support_coverage] field of the built-in [processData]. *)
Definition supportCoverage (row : obj) : scalar :=
  let coveredLineStatus := get row "Covered Line Status" in
  let coverage := get row "Coverage" in
  if truthy coveredLineStatus then normalizeSupport coveredLineStatus
  else if truthy coverage then normalizeSupport coverage
  else VStr "Expired".

(** [parseInt(item.qty) || 0]. *)
Definition qtyOf (item : obj) : Z := orInt (parseInt E (get item "qty")) 0.

Definition totalRecords (normalizedData : list obj) : Z :=
  Z.of_nat (length normalizedData).

(** [normalizedData.reduce((sum, item) => sum + (parseInt(item.qty) || 0), 0)];
    the sum is exact here, and in the code as long as it stays within the
    integers a double holds exactly (up to 2^53). *)
Definition totalQuantity (normalizedData : list obj) : Z :=
  fold_left (fun sum item => sum + qtyOf item) normalizedData 0.

(** The group a breakdown loop creates, and its counters bumped for one
    record. *)
Definition newGroup : group :=
  {| count := 0; quantity := 0; activeCount := 0; expiredCount := 0 |}.

Definition bump (g : group) (item : obj) : group :=
  {| count := count g + 1;
     quantity := quantity g + qtyOf item;
     activeCount :=
       if strictEqStr (get item "support_coverage") "Active"
       then activeCount g + 1 else activeCount g;
     expiredCount :=
       if strictEqStr (get item "support_coverage") "Active" then expiredCount g
       else if strictEqStr (get item "support_coverage") "Expired"
       then expiredCount g + 1 else expiredCount g |}.

(** One pass of a breakdown loop for the group [key], on a breakdown made by
    [{}]. The guard [if (!breakdown[key])] creates the group when the read
    is falsy; for a key that names a member of [Object.prototype] the read
    yields that member, no group is created, and the counters are bumped on
    the inherited member: the breakdown is left as it was. *)
Definition tally (breakdown : dict group) (key : string) (item : obj) : dict group :=
  match lookup breakdown key with
  | Some g => assign breakdown key (bump g item)
  | None =>
      if inherited key then breakdown
      else assign breakdown key (bump newGroup item)
  end.

Definition manufacturerBreakdown (normalizedData : list obj) : dict group :=
  fold_left
    (fun breakdown item =>
       let mfg :=
         if truthy (get item "mfg") && negb (strictEqStr (get item "mfg") "-")
         then get item "mfg" else VStr "Unknown" in
       tally breakdown (toString E mfg) item)
    normalizedData [].

Definition categoryBreakdown (normalizedData : list obj) : dict group :=
  fold_left
    (fun breakdown item =>
       let cat := orElse (get item "category") (VStr "Uncategorized") in
       tally breakdown (toString E cat) item)
    normalizedData [].

(** Data completeness of one required field. *)
Definition completeness (normalizedData : list obj) (field : string) : number :=
  let filled :=
    length
      (filter
         (fun item =>
            truthy (get item field)
            && negb (strictEqStr (get item field) "-")
            && negb (strictEqStr (get item field) "")
            && negb (strictEqStr (get item field) "N/A"))
         normalizedData) in
  Math_round
    (times (divide (ofZ (Z.of_nat filled)) (ofZ (Z.of_nat (length normalizedData))))
           (ofZ 100)).

Definition fieldCompleteness (normalizedData : list obj) : dict number :=
  fold_left
    (fun acc field => assign acc field (completeness normalizedData field))
    requiredFields [].

(** [!isNaN(d.getTime()) && d <= currentDate] for [d = new Date(field)]. *)
Definition notAfter (currentDate : Z) (field : scalar) : bool :=
  match newDate E field with
  | Some t => t <=? currentDate
  | None => false
  end.

(** The body of [categoryItems.forEach(item => ...)] on the four counters. *)
Definition lifecycleStep (currentDate : Z) (acc : Z * Z * Z * Z) (item : obj)
    : Z * Z * Z * Z :=
  let '(totalQty, endOfSaleCount, endOfSWVulnCount, lastDaySupportCount) := acc in
  let totalQty := totalQty + qtyOf item in
  let endOfSaleCount :=
    if truthy (get item "end_of_sale") && negb (strictEqStr (get item "end_of_sale") "-")
    then if notAfter currentDate (get item "end_of_sale")
         then endOfSaleCount + 1 else endOfSaleCount
    else endOfSaleCount in
  let vulnField :=
    orElse (orElse (orElse (get item "End of Vulnerability/Security Support")
                           (get item "end_of_vulnerability_support"))
                   (get item "End of Security Support"))
           (VStr "-") in
  let endOfSWVulnCount :=
    if truthy vulnField && negb (strictEqStr vulnField "-")
    then if notAfter currentDate vulnField
         then endOfSWVulnCount + 1 else endOfSWVulnCount
    else endOfSWVulnCount in
  let lastDaySupportCount :=
    if truthy (get item "last_day_support")
       && negb (strictEqStr (get item "last_day_support") "-")
    then if notAfter currentDate (get item "last_day_support")
         then lastDaySupportCount + 1 else lastDaySupportCount
    else lastDaySupportCount in
  (totalQty, endOfSaleCount, endOfSWVulnCount, lastDaySupportCount).

Definition categoryItems (normalizedData : list obj) (category : string) : list obj :=
  filter
    (fun item => strictEqStr (orElse (get item "category") (VStr "Uncategorized")) category)
    normalizedData.

Definition lifecycleOf (currentDate : Z) (normalizedData : list obj) (category : string)
    : lifecycle :=
  let items := categoryItems normalizedData category in
  let '(totalQty, endOfSaleCount, endOfSWVulnCount, lastDaySupportCount) :=
    fold_left (lifecycleStep currentDate) items (0, 0, 0, 0) in
  {| totalQty := totalQty;
     endOfSale := endOfSaleCount;
     endOfSWVuln := endOfSWVulnCount;
     lastDaySupport := lastDaySupportCount;
     total := Z.of_nat (length items) |}.

(** Lifecycle status by category. *)
Definition lifecycleByCategory (currentDate : Z) (normalizedData : list obj)
    : dict lifecycle :=
  fold_left
    (fun acc category => assign acc category (lifecycleOf currentDate normalizedData category))
    (keys (categoryBreakdown normalizedData)) [].

(** The test of the three global lifecycle filters on a date field. *)
Definition pastDate (currentDate : Z) (field : scalar) : bool :=
  if negb (truthy field) || strictEqStr field "-" then false
  else notAfter currentDate field.

Definition totalEndOfSale (currentDate : Z) (normalizedData : list obj) : Z :=
  Z.of_nat
    (length (filter (fun item => pastDate currentDate (get item "end_of_sale"))
                    normalizedData)).

Definition totalEndOfSWVuln (currentDate : Z) (normalizedData : list obj) : Z :=
  Z.of_nat
    (length
       (filter
          (fun item =>
             pastDate currentDate
               (orElse (orElse (orElse (get item "End of Vulnerability/Security Support")
                                       (get item "end_of_vulnerability_support"))
                               (get item "End of Security Support"))
                       (VStr "-")))
          normalizedData)).

Definition totalLastDaySupport (currentDate : Z) (normalizedData : list obj) : Z :=
  Z.of_nat
    (length (filter (fun item => pastDate currentDate (get item "last_day_support"))
                    normalizedData)).

(** [parseFloat(v) || 0]. *)
Definition parseFloatOrZero (v : scalar) : number :=
  let n := parseFloat (toString E v) in
  if truthy (VNum n) then n else ofZ 0.

(** The record the built-in [processData] makes of a row. *)
Definition normalizedItem (row : obj) (index : Z) : obj :=
  [ ("id", VNum (ofZ (index + 1)));
    ("mfg", firstOf row ["mfg"; "Manufacturer"; "manufacturer"; "vendor"] (VStr "-"));
    ("category", firstOf row ["category"; "Business Entity"; "business_entity"] (VStr "-"));
    ("asset_type", firstOf row ["asset_type"; "Asset Type"; "AssetType"] (VStr "-"));
    ("type", firstOf row ["type"; "Type"; "Product Type"] (VStr "-"));
    ("product_id",
     firstOf row ["product_id"; "Product ID"; "productid"; "pid"] (VStr "-"));
    ("description",
     firstOf row ["description"; "Product Description"; "product_description"] (VStr "-"));
    ("ship_date", firstOf row ["ship_date"; "Ship Date"; "ShipDate"; "ship_dt"] (VStr "-"));
    ("qty",
     VNum (ofZ (orInt (parseInt E (get row "Item Quantity"))
                (orInt (parseInt E (get row "qty"))
                 (orInt (parseInt E (get row "Qty"))
                  (orInt (parseInt E (get row "quantity"))
                   (orInt (parseInt E (get row "Quantity")) 0)))))));
    ("total_value",
     VNum (parseFloatOrZero
             (firstOf row ["total_value"; "Total Value"; "totalvalue"; "value"]
                      (VNum (ofZ 0)))));
    ("support_coverage", supportCoverage row);
    ("end_of_sale",
     firstOf row ["End of Product Sale Date"; "End of Product Sale"; "end_of_sale";
                  "end_of_product_sale"] (VStr "-"));
    ("last_day_support",
     firstOf row ["Last Date of Support"; "last_day_support"; "last_date_of_support";
                  "Last Support"] (VStr "-")) ].

(** The built-in [processData]: [data.map] with no try/catch, so reading a
    column of a [null] or [undefined] row throws out of the whole call. *)
Fixpoint builtinFrom (index : Z) (data : list ColumnMapper.row) : result (list obj) :=
  match data with
  | [] => Return []
  | ColumnMapper.Nullish :: _ => Throw TypeError
  | ColumnMapper.Object row :: rest =>
      match builtinFrom (index + 1) rest with
      | Return items => Return (normalizedItem row index :: items)
      | Throw e => Throw e
      end
  end.

Definition builtinProcessData (data : list ColumnMapper.row) : result (list obj) :=
  builtinFrom 0 data.

End WithEngine.

End UploadController.

(* ===================================================================== *)
(** ** Vocabulary of the specification *)
(* ===================================================================== *)

Module Spec.

Import Js.

(** The canonical field set of the schema. *)
Definition canonicalFields : list string :=
  [ "id"; "mfg"; "category"; "asset_type"; "type"; "product_id"; "description";
    "ship_date"; "qty"; "total_value"; "support_coverage"; "end_of_sale";
    "last_day_support" ].

(** The fields [normalizeRow] coerces, and the ones it only carries over. *)
Definition coercedFields : list string :=
  [ "support_coverage"; "ship_date"; "end_of_sale"; "last_day_support"; "qty";
    "total_value" ].

Definition carriedFields : list string :=
  [ "id"; "mfg"; "category"; "asset_type"; "type"; "product_id"; "description" ].

(** The header resolver: the key under which [mapKey] writes a column. *)
Definition resolveHeader (originalKey : string) : string :=
  let lowerKey := trim (toLowerCase originalKey) in
  match find (fun m => existsb (fun variation => (variation =? lowerKey)%string) (snd m))
             ColumnMapper.COLUMN_MAPPINGS with
  | Some (standardName, _) => standardName
  | None => ColumnMapper.cleanKey lowerKey
  end.

(** The columns of a row under their resolved names, before coercion: the
    first loop of [normalizeRow]. *)
Definition mapped (row : obj) : obj :=
  snd (fold_left (ColumnMapper.mapKey row) (keys row) (false, [])).

(** The active and the expired vocabulary of the lenient scheme. *)
Definition matchesActive (lowerValue : string) : bool :=
  existsb (includes lowerValue) ["covered"; "active"; "yes"; "valid"; "current"; "maintenance"]
  || existsb (String.eqb lowerValue) ["y"; "1"; "true"].

Definition matchesExpired (lowerValue : string) : bool :=
  existsb (includes lowerValue) ["not covered"; "no coverage"; "expired"; "none"; "no"]
  || existsb (String.eqb lowerValue) ["n"; "0"; "false"].

(** The characters [normalizeNumber] strips: [/[$,]/]. *)
Definition currencyMark (c : ascii) : bool := (c =? "$")%char || (c =? ",")%char.

(** Sum of one counter over the groups of a breakdown. *)
Definition sumOver {A : Type} (f : A -> Z) (breakdown : dict A) : Z :=
  fold_right (fun entry acc => f (snd entry) + acc) 0 breakdown.



(** A stored job of three records for the pagination examples. *)
Definition threeRecords : list obj :=
  [ [("id", VNum (ofZ 1))]; [("id", VNum (ofZ 2))]; [("id", VNum (ofZ 3))] ].

Definition oneJob : dict UploadController.job :=
  [("job-1", {| UploadController.data := threeRecords |})].

(** "Expired relative to now" for a date field, as the specification words
    it, and the same as a test. *)
Definition expiredRelativeToNow (E : engine) (now : Z) (field : scalar) : Prop :=
  truthy field = true /\ field <> VStr "-" /\
  exists t, newDate E field = Some t /\ t <= now.

Definition expiredB (E : engine) (now : Z) (field : scalar) : bool :=
  truthy field && negb (strictEqStr field "-") &&
  match newDate E field with
  | Some t => t <=? now
  | None => false
  end.

(** The field the vulnerability counter reads. *)
Definition vulnField (item : obj) : scalar :=
  orElse (orElse (orElse (get item "End of Vulnerability/Security Support")
                         (get item "end_of_vulnerability_support"))
                 (get item "End of Security Support"))
         (VStr "-").

Definition countIf {A : Type} (p : A -> bool) (l : list A) : Z :=
  Z.of_nat (length (filter p l)).

(** The calendar form [YYYY-MM-DD]. *)
Definition isCalendarForm (s : string) : Prop :=
  exists y1 y2 y3 y4 m1 m2 d1 d2,
    s = String y1 (String y2 (String y3 (String y4 (String "-"
          (String m1 (String m2 (String "-" (String d1 (String d2 EmptyString)))))))))
    /\ allChars isDigit
         (String y1 (String y2 (String y3 (String y4
            (String m1 (String m2 (String d1 (String d2 EmptyString)))))))) = true.

(** The alphabet of a cleaned key, and the one of an export file name. *)
Definition slugChar (c : ascii) : bool := isLower c || isDigit c || (c =? "_")%char.

Definition filenameChar (c : ascii) : bool :=
  isLower c || isUpper c || isDigit c
  || (c =? "_")%char || (c =? "-")%char || (c =? "+")%char || (c =? ".")%char.

(** The category a record is grouped by, and the manufacturer. *)
Definition effectiveCategory (item : obj) : scalar :=
  orElse (get item "category") (VStr "Uncategorized").

Definition effectiveManufacturer (item : obj) : scalar :=
  if truthy (get item "mfg") && negb (strictEqStr (get item "mfg") "-")
  then get item "mfg" else VStr "Unknown".

(** The records of a response; none when the job is not found. *)
Definition productsOf (r : UploadController.response) : list obj :=
  match r with
  | UploadController.Json products _ => products
  | UploadController.Status404 => []
  end.


(** Whether a job is kept by a cleanup at time [now]. *)
Definition recent {A : Type} (timestamp : A -> Z) (now : Z) (job : A) : bool :=
  negb (timestamp job <? now - 3600000).

(** Sum of a weight over a list, and the records the lifecycle table can
    see: those whose category is a string, or is absent, and gets a group. *)
Definition sumOf {A : Type} (w : A -> Z) (l : list A) : Z :=
  fold_right (fun x acc => w x + acc) 0 l.

Definition keyed (ks : list string) (v : scalar) : bool :=
  match v with
  | VStr c => existsb (String.eqb c) ks
  | _ => false
  end.

(** A category or manufacturer that gets a group: a string that names no
    member of [Object.prototype]. *)
Definition groupable (v : scalar) : bool :=
  match v with
  | VStr c => negb (inherited c)
  | _ => false
  end.

Definition visibleRecords (normalizedData : list obj) : list obj :=
  filter (fun item => groupable (effectiveCategory item)) normalizedData.

(** What a group of a breakdown should hold: the tallies of the records
    [selected] for it. *)
Definition groupOf (E : engine) (selected : obj -> bool) (normalizedData : list obj)
    : UploadController.group :=
  let records := filter selected normalizedData in
  {| UploadController.count := Z.of_nat (length records);
     UploadController.quantity := UploadController.totalQuantity E records;
     UploadController.activeCount := UploadController.activeSupport records;
     UploadController.expiredCount := UploadController.expiredSupport records |}.

(** The text a record is filed under in the manufacturer breakdown and in the
    category breakdown. *)
Definition manufacturerKey (E : engine) (item : obj) : string :=
  toString E (effectiveManufacturer item).

Definition categoryKey (E : engine) (item : obj) : string :=
  toString E (effectiveCategory item).

(** The records a breakdown loop files in a group: those whose key names no
    member of [Object.prototype]. *)
Definition filed (keyOf : obj -> string) (normalizedData : list obj) : list obj :=
  filter (fun item => negb (inherited (keyOf item))) normalizedData.

(** A breakdown none of whose groups is named after a member of
    [Object.prototype], as the loops make them. *)
Definition plainKeys {A : Type} (breakdown : dict A) : Prop :=
  forall k a, lookup breakdown k = Some a -> inherited k = false.

(** Quantities that add up exactly in double precision, in any order. *)
Definition safeQuantities (E : engine) (normalizedData : list obj) : Prop :=
  sumOf (fun item => Z.abs (UploadController.qtyOf E item)) normalizedData
  <= 9007199254740991.

(** Two records, the first named after members of [Object.prototype]; and two
    records with a past end-of-sale date, one whose category is the number 5
    and one whose category is the text [toString]. *)
Definition prototypeRecords : list obj :=
  [ [("mfg", VStr "constructor"); ("category", VStr "toString"); ("qty", VNum (ofZ 2))];
    [("mfg", VStr "Cisco"); ("category", VStr "Router"); ("qty", VNum (ofZ 3))] ].

(** Three records: two manufacturers, and one record without any. *)
Definition vendorRecords : list obj :=
  [ [("mfg", VStr "Cisco")]; [("mfg", VStr "Juniper"); ("qty", VNum (ofZ 4))];
    [("mfg", VStr "-")] ].

Definition strayRecords : list obj :=
  [ [("category", VNum (ofZ 5)); ("end_of_sale", VStr "2020-01-01")];
    [("category", VStr "toString"); ("end_of_sale", VStr "2020-01-01")] ].

(** An engine for closed examples: it prints a fraction as a ratio and parses
    no date beyond the calendar form. *)
Definition isoOnlyEngine : engine :=
  {| fractionToString :=
       fun q => (Zdigits (Qnum q) ++ "/" ++ Zdigits (Z.pos (Qden q)))%string;
     parseOtherDate := fun _ => None |}.

(** The records of the lifecycle scenario, and its reference time
    2024-01-01T00:00:00Z. *)
Definition routerRecords : list obj :=
  [ [("category", VStr "Router"); ("end_of_sale", VStr "2020-01-01")];
    [("category", VStr "Router"); ("end_of_sale", VStr "2099-01-01")] ].

Definition now2024 : Z := 1704067200000.

End Spec.

(* ===================================================================== *)
(** ** Facts about the object model *)
(* ===================================================================== *)

Module JsFacts.

Import Js.

Section DictFacts.

Context {A : Type}.

Lemma lookup_assign_same (o : dict A) (k : string) (a : A) :
  lookup (assign o k a) k = Some a.
Proof.
  induction o as [|[k' a'] o IH]; simpl.
  - now rewrite String.eqb_refl.
  - destruct (k' =? k)%string eqn:Hk; simpl; rewrite Hk; auto.
Qed.

Lemma lookup_assign_other (o : dict A) (k k' : string) (a : A) :
  k <> k' -> lookup (assign o k a) k' = lookup o k'.
Proof.
  intros Hne.
  induction o as [|[k0 a0] o IH]; simpl.
  - destruct (k =? k')%string eqn:Hk; auto.
    apply String.eqb_eq in Hk. contradiction.
  - destruct (k0 =? k)%string eqn:Hk; simpl.
    + apply String.eqb_eq in Hk. subst k0.
      destruct (k =? k')%string eqn:Hk'; auto.
      apply String.eqb_eq in Hk'. contradiction.
    + destruct (k0 =? k')%string; auto.
Qed.

Lemma hasOwn_assign_same (o : dict A) (k : string) (a : A) :
  hasOwn (assign o k a) k = true.
Proof. unfold hasOwn. now rewrite lookup_assign_same. Qed.

Lemma hasOwn_assign_other (o : dict A) (k k' : string) (a : A) :
  k <> k' -> hasOwn (assign o k a) k' = hasOwn o k'.
Proof. intros H. unfold hasOwn. now rewrite lookup_assign_other. Qed.

Lemma hasOwn_assign (o : dict A) (k k' : string) (a : A) :
  hasOwn (assign o k a) k' = (k =? k')%string || hasOwn o k'.
Proof.
  destruct (k =? k')%string eqn:Hk.
  - apply String.eqb_eq in Hk. subst. now rewrite hasOwn_assign_same.
  - apply String.eqb_neq in Hk. now rewrite hasOwn_assign_other.
Qed.

(** A loop of assignments whose value depends on the key alone. *)
Lemma lookup_fold_assign (f : string -> A) (ks : list string) (o : dict A) (k : string) :
  lookup (fold_left (fun acc key => assign acc key (f key)) ks o) k =
  if existsb (String.eqb k) ks then Some (f k) else lookup o k.
Proof.
  revert o. induction ks as [|k0 ks IH]; intros o; simpl; auto.
  rewrite IH.
  destruct (existsb (String.eqb k) ks) eqn:Hex.
  - now rewrite orb_true_r.
  - rewrite orb_false_r.
    destruct (k =? k0)%string eqn:Hk.
    + apply String.eqb_eq in Hk. subst. apply lookup_assign_same.
    + apply String.eqb_neq in Hk. apply lookup_assign_other. congruence.
Qed.

Lemma keys_assign_same (o : dict A) (k : string) (a : A) :
  In k (keys (assign o k a)).
Proof.
  induction o as [|[k' a'] o IH]; cbn [assign keys map fst In]; auto.
  destruct (k' =? k)%string eqn:Hk; cbn [map fst In].
  - apply String.eqb_eq in Hk. auto.
  - right. exact IH.
Qed.

Lemma keys_assign_keep (o : dict A) (k k' : string) (a : A) :
  In k' (keys o) -> In k' (keys (assign o k a)).
Proof.
  induction o as [|[k0 a0] o IH]; cbn [assign keys map fst In]; [contradiction |].
  destruct (k0 =? k)%string; cbn [map fst In]; intuition.
Qed.

End DictFacts.

Lemma get_assign_same (o : obj) (k : string) (v : scalar) :
  get (assign o k v) k = v.
Proof. unfold get. now rewrite lookup_assign_same. Qed.

Lemma get_assign_other (o : obj) (k k' : string) (v : scalar) :
  k <> k' -> get (assign o k v) k' = get o k'.
Proof. intros H. unfold get. now rewrite lookup_assign_other. Qed.

End JsFacts.
(* ===================================================================== *)
(** ** Support status: the lenient and the strict scheme *)
(* ===================================================================== *)

Module SupportFacts.

Import Js.

Lemma numberToString_zero (E : engine) (q : Q) :
  Qeq_bool q 0 = true -> numberToString E (Fin q) = "0".
Proof.
  intros H. apply Qeq_bool_iff in H. apply Qred_complete in H.
  unfold numberToString. rewrite H. reflexivity.
Qed.

(** The text of a falsy value. *)
Lemma toString_falsy (E : engine) (v : scalar) :
  truthy v = false ->
  In (toString E v) ["undefined"; "null"; "false"; "NaN"; "0"; ""].
Proof.
  destruct v as [| |[|]|[|s|q]|s]; cbn [truthy toString]; intros H;
    try discriminate; try (simpl; auto 10; fail).
  - apply negb_false_iff in H. rewrite (numberToString_zero E q H). simpl. auto 10.
  - apply negb_false_iff, String.eqb_eq in H. subst. simpl. auto 10.
Qed.

Lemma includes_prefix (s sub : string) :
  String.prefix sub s = true -> includes s sub = true.
Proof. intros H. destruct s; cbn [includes]; rewrite H; reflexivity. Qed.

Lemma prefix_app_includes (a b s : string) :
  String.prefix (a ++ b) s = true -> includes s b = true.
Proof.
  revert s. induction a as [|c a IH]; intros s.
  - apply includes_prefix.
  - destruct s as [|c' s]; simpl; [discriminate |].
    destruct (ascii_dec c c'); [| discriminate].
    intros H. rewrite (IH s H). apply orb_true_r.
Qed.

(** A string that contains [a ++ b] contains [b]. *)
Lemma includes_suffix (a b s : string) :
  includes s (a ++ b) = true -> includes s b = true.
Proof.
  induction s as [|c s IH]; cbn [includes]; intros H;
    apply orb_true_iff in H; destruct H as [H | H].
  - now apply prefix_app_includes in H.
  - discriminate.
  - now apply prefix_app_includes in H.
  - rewrite (IH H). apply orb_true_r.
Qed.

Section Lenient.

Variable E : engine.

(** The lenient coercer, read through the two vocabularies. *)
Lemma normalizeSupport_vocabulary (value : scalar) :
  ColumnMapper.normalizeSupport E value =
  if ColumnMapper.sentinel value then VStr "-"
  else
    let lowerValue := trim (toLowerCase (toString E value)) in
    if Spec.matchesActive lowerValue then VStr "Active"
    else if Spec.matchesExpired lowerValue then VStr "Expired"
    else value.
Proof.
  unfold ColumnMapper.normalizeSupport, Spec.matchesActive, Spec.matchesExpired.
  cbn [existsb]. rewrite !orb_false_r.
  rewrite !(String.eqb_sym (trim (toLowerCase (toString E value)))).
  rewrite !orb_assoc. reflexivity.
Qed.

(** Only an input that matches the active vocabulary comes back as Active. *)
Lemma normalizeSupport_active_iff (value : scalar) :
  ColumnMapper.normalizeSupport E value = VStr "Active" <->
  ColumnMapper.sentinel value = false /\
  Spec.matchesActive (trim (toLowerCase (toString E value))) = true.
Proof.
  rewrite normalizeSupport_vocabulary. cbv zeta.
  destruct (ColumnMapper.sentinel value).
  - split; [discriminate | intros [? _]; discriminate].
  - destruct (Spec.matchesActive _) eqn:Ha.
    + tauto.
    + split; [| intros [_ ?]; discriminate].
      destruct (Spec.matchesExpired _); [discriminate |].
      intros ->. simpl in Ha. vm_compute in Ha. discriminate.
Qed.

(** An input of the expired vocabulary that the active one does not catch. *)
Lemma normalizeSupport_expired (value : scalar) :
  ColumnMapper.sentinel value = false ->
  Spec.matchesActive (trim (toLowerCase (toString E value))) = false ->
  Spec.matchesExpired (trim (toLowerCase (toString E value))) = true ->
  ColumnMapper.normalizeSupport E value = VStr "Expired".
Proof.
  intros Hs Ha He. rewrite normalizeSupport_vocabulary. cbv zeta.
  now rewrite Hs, Ha, He.
Qed.

Lemma normalizeSupport_no_coverage :
  ColumnMapper.normalizeSupport E (VStr "No Coverage") = VStr "Expired".
Proof. reflexivity. Qed.

Lemma normalizeSupport_scenario :
  ColumnMapper.normalizeSupport E (VStr "Covered") = VStr "Active" /\
  ColumnMapper.normalizeSupport E (VStr "Expired - No Renewal") = VStr "Expired" /\
  ColumnMapper.normalizeSupport E (VStr "Pending Review") = VStr "Pending Review".
Proof. repeat split. Qed.

(** C1 (the code departs from the claim). ['Not Covered'] is not a sentinel and
    its lowercased, trimmed form matches the expired vocabulary (it contains
    [not covered]); the lenient coercer still answers [Active], because the
    active test [includes('covered')] runs first and catches it. *)
Theorem normalizeSupport_not_covered :
  ColumnMapper.sentinel (VStr "Not Covered") = false /\
  Spec.matchesExpired (trim (toLowerCase (toString E (VStr "Not Covered")))) = true /\
  ColumnMapper.normalizeSupport E (VStr "Not Covered") = VStr "Active".
Proof. repeat split. Qed.

(** The branch [includes('not covered')] of the expired test can never
    decide: whatever contains [not covered] contains [covered]. *)
Lemma includes_not_covered (s : string) :
  includes s "not covered" = true -> includes s "covered" = true.
Proof. apply (includes_suffix "not " "covered"). Qed.

End Lenient.

Section Strict.

Variable E : engine.

Lemma falsy_not_active (v : scalar) :
  truthy v = false ->
  toUpperCase (trim (toString E v)) <> "ACTIVE" /\
  toUpperCase (trim (toString E v)) <> "COVERED".
Proof.
  intros H. pose proof (toString_falsy E v H) as Hin. simpl in Hin.
  repeat (destruct Hin as [<- | Hin]; [split; vm_compute; discriminate |]).
  contradiction.
Qed.

(** With a truthy value the opening guard of the strict scheme is passed. *)
Lemma strict_guard (value : scalar) :
  negb (truthy value) || strictEqStr value ""
    || match value with VNull | VUndefined => true | _ => false end
  = negb (truthy value).
Proof.
  destruct value as [| |[|]|[|s|q]|[|c s]]; try reflexivity.
  cbn [strictEqStr]. now rewrite !orb_false_r.
Qed.

(** C6. In the strict scheme the empty and placeholder inputs ([''], ['-'],
    ['.'], ['?'], ['0'], absent) map to [Expired]; the answer is [Active]
    exactly when the trimmed, uppercased text of the input is [ACTIVE] or
    [COVERED]; every other input, ['Unknown'] included, maps to [Expired], so
    the answer is never a third value. *)
Theorem normalizeSupport_strict (value : scalar) :
  (In value [VStr ""; VStr "-"; VStr "."; VStr "?"; VStr "0"; VUndefined; VNull] ->
   UploadController.normalizeSupport E value = VStr "Expired") /\
  (UploadController.normalizeSupport E value = VStr "Active" <->
   toUpperCase (trim (toString E value)) = "ACTIVE" \/
   toUpperCase (trim (toString E value)) = "COVERED") /\
  (UploadController.normalizeSupport E value = VStr "Active" \/
   UploadController.normalizeSupport E value = VStr "Expired") /\
  UploadController.normalizeSupport E (VStr "Unknown") = VStr "Expired".
Proof.
  split; [| split; [| split]].
  - simpl. intros H.
    repeat (destruct H as [<- | H]; [reflexivity |]). contradiction.
  - unfold UploadController.normalizeSupport. rewrite strict_guard.
    destruct (truthy value) eqn:Ht; cbn [negb].
    + set (strValue := trim (toString E value)).
      destruct ((strValue =? "-") || (strValue =? ".") || (strValue =? "?")
                || (strValue =? "0") || (strValue =? ""))%string eqn:Hp.
      * split; [discriminate |].
        repeat (apply orb_true_iff in Hp; destruct Hp as [Hp | Hp]);
          apply String.eqb_eq in Hp; rewrite Hp;
          intros [H | H]; vm_compute in H; discriminate.
      * destruct (toUpperCase strValue =? "ACTIVE")%string eqn:Ha.
        { apply String.eqb_eq in Ha. cbn [orb]. tauto. }
        destruct (toUpperCase strValue =? "COVERED")%string eqn:Hc.
        { apply String.eqb_eq in Hc. cbn [orb]. tauto. }
        apply String.eqb_neq in Ha, Hc. cbn [orb].
        split; [discriminate | tauto].
    + destruct (falsy_not_active value Ht). split; [discriminate | tauto].
  - unfold UploadController.normalizeSupport.
    repeat match goal with |- context [if ?b then _ else _] => destruct b end; auto.
  - reflexivity.
Qed.

Lemma supportCoverage_scenario :
  UploadController.supportCoverage E [("Covered Line Status", VStr "ACTIVE")] = VStr "Active" /\
  UploadController.supportCoverage E [("Covered Line Status", VStr "")] = VStr "Expired" /\
  UploadController.supportCoverage E [("Covered Line Status", VStr "-")] = VStr "Expired" /\
  UploadController.supportCoverage E [("Covered Line Status", VStr ".")] = VStr "Expired" /\
  UploadController.supportCoverage E [("Covered Line Status", VStr "Unknown")] = VStr "Expired".
Proof. repeat split. Qed.

End Strict.

End SupportFacts.

(* ===================================================================== *)
(** ** The numeric coercer *)
(* ===================================================================== *)

Module NumberFacts.

Import Js.

Lemma removeAll_idempotent (p : ascii -> bool) (s : string) :
  removeAll p (removeAll p s) = removeAll p s.
Proof.
  induction s as [|c s IH]; simpl; auto.
  destruct (p c) eqn:Hc; simpl; auto.
  now rewrite Hc, IH.
Qed.

(** The strings the opening guard of the coercers catches. *)
Lemma sentinel_string (s : string) :
  ColumnMapper.sentinel (VStr s) = true <-> In s [""; "-"; "N/A"; "n/a"].
Proof.
  unfold ColumnMapper.sentinel. cbn [truthy strictEqStr In].
  rewrite negb_involutive, !orb_true_iff, !String.eqb_eq.
  intuition congruence.
Qed.

Section Coercer.

Variable E : engine.

Lemma normalizeNumber_unfold (value : scalar) :
  ColumnMapper.sentinel value = false ->
  ColumnMapper.normalizeNumber E value =
  let number := parseFloat (trim (removeAll Spec.currencyMark (toString E value))) in
  if isNaN number then ofZ 0 else number.
Proof. intros H. unfold ColumnMapper.normalizeNumber. now rewrite H. Qed.

(** Currency symbols and thousands separators do not reach the parser: the
    result is the same with and without them. *)
Lemma normalizeNumber_strips (s : string) :
  ColumnMapper.normalizeNumber E (VStr s) =
  ColumnMapper.normalizeNumber E (VStr (removeAll Spec.currencyMark s)).
Proof.
  destruct (ColumnMapper.sentinel (VStr s)) eqn:Hs.
  - apply sentinel_string in Hs. simpl in Hs.
    repeat (destruct Hs as [<- | Hs]; [reflexivity |]). contradiction.
  - rewrite (normalizeNumber_unfold _ Hs). cbn [toString].
    destruct (ColumnMapper.sentinel (VStr (removeAll Spec.currencyMark s))) eqn:Hs'.
    + apply sentinel_string in Hs'. simpl in Hs'.
      repeat (destruct Hs' as [<- | Hs']; [reflexivity |]). contradiction.
    + rewrite (normalizeNumber_unfold _ Hs'). cbn [toString].
      now rewrite removeAll_idempotent.
Qed.

(** C4, amended. The numeric coercer always yields a number, never [NaN]
    (a negative numeral stays negative); sentinel and absent inputs yield [0],
    and so does a text that does not parse; [$] and [,] are stripped before
    parsing; ['$1,234.50'] gives [1234.5] and ['-'] gives [0]. *)
Theorem normalizeNumber_number (value : scalar) :
  ColumnMapper.normalizeNumber E value <> NaN /\
  (ColumnMapper.sentinel value = true -> ColumnMapper.normalizeNumber E value = ofZ 0) /\
  (ColumnMapper.sentinel value = false ->
   parseFloat (trim (removeAll Spec.currencyMark (toString E value))) = NaN ->
   ColumnMapper.normalizeNumber E value = ofZ 0) /\
  (ColumnMapper.sentinel value = false ->
   parseFloat (trim (removeAll Spec.currencyMark (toString E value))) <> NaN ->
   ColumnMapper.normalizeNumber E value =
   parseFloat (trim (removeAll Spec.currencyMark (toString E value)))) /\
  (forall s, ColumnMapper.normalizeNumber E (VStr s) =
             ColumnMapper.normalizeNumber E (VStr (removeAll Spec.currencyMark s))) /\
  (exists q, ColumnMapper.normalizeNumber E (VStr "$1,234.50") = Fin q /\ q == 1234.5) /\
  ColumnMapper.normalizeNumber E (VStr "-") = ofZ 0 /\
  ColumnMapper.normalizeNumber E VUndefined = ofZ 0.
Proof.
  split; [| split; [| split; [| split; [| split; [| split; [| split]]]]]].
  - unfold ColumnMapper.normalizeNumber.
    destruct (ColumnMapper.sentinel value); [discriminate |].
    destruct (parseFloat _) eqn:Hp; cbn [isNaN]; discriminate.
  - intros H. unfold ColumnMapper.normalizeNumber. now rewrite H.
  - intros H Hp. rewrite (normalizeNumber_unfold _ H). cbv zeta. now rewrite Hp.
  - intros H Hp. rewrite (normalizeNumber_unfold _ H). cbv zeta.
    destruct (parseFloat _); cbn [isNaN]; congruence.
  - apply normalizeNumber_strips.
  - exists (2469 # 2). split; reflexivity.
  - reflexivity.
  - reflexivity.
Qed.

(** The [qty] of a normalized row is the coerced [qty] column. *)
Lemma normalizeRow_negative_qty :
  exists normalized,
    ColumnMapper.normalizeRow E (ColumnMapper.Object [("Quantity", VStr "-5")])
    = Return normalized /\
    get normalized "qty" = VNum (Fin (-5)).
Proof. eexists. split; reflexivity. Qed.

End Coercer.

(** C4 as stated fails: the numeral ['-5'] is coerced to [-5], which is
    negative, under every engine. *)
Lemma normalizeNumber_negative :
  exists q, (q < 0)%Q /\
    forall E, ColumnMapper.normalizeNumber E (VStr "-5") = Fin q.
Proof. exists (-5)%Q. split; [reflexivity | intros E; reflexivity]. Qed.

End NumberFacts.

(* ===================================================================== *)
(** ** Time values and calendar dates *)
(* ===================================================================== *)

Module DateFacts.

Import Js.

Lemma DayFromYear_step (y : Z) : DayFromYear (y + 1) = DayFromYear y + DaysInYear y.
Proof.
  unfold DayFromYear, DaysInYear, isLeapYear.
  destruct (y mod 4 =? 0) eqn:H4; destruct (y mod 100 =? 0) eqn:H100;
    destruct (y mod 400 =? 0) eqn:H400; cbn [andb orb negb];
    rewrite ?Z.eqb_eq, ?Z.eqb_neq in *; Z.div_mod_to_equations; lia.
Qed.

(** [YearFromDay d] is the year that holds day [d]. *)
Lemma YearFromDay_bounds (d : Z) :
  DayFromYear (YearFromDay d) <= d < DayFromYear (YearFromDay d + 1).
Proof.
  unfold YearFromDay.
  set (y := 1970 + d * 400 / 146097).
  assert (Hy : y = 1970 + d * 400 / 146097) by reflexivity. clearbody y.
  destruct (d <? DayFromYear y) eqn:H1; [apply Z.ltb_lt in H1 | apply Z.ltb_ge in H1].
  - replace (y - 1 + 1) with y by lia. split; [| assumption].
    unfold DayFromYear in *. Z.div_mod_to_equations. lia.
  - destruct (DayFromYear (y + 1) <=? d) eqn:H2;
      [apply Z.leb_le in H2 | apply Z.leb_gt in H2].
    + split; [assumption |]. unfold DayFromYear in *. Z.div_mod_to_equations. lia.
    + split; assumption.
Qed.

Lemma DaysInYear_leap (y : Z) : DaysInYear y = 365 + leapDays y.
Proof. unfold DaysInYear, leapDays. now destruct (isLeapYear y). Qed.

Lemma leapDays_range (y : Z) : 0 <= leapDays y <= 1.
Proof. unfold leapDays. destruct (isLeapYear y); lia. Qed.

Lemma DayWithinYear_range (t : Z) :
  0 <= DayWithinYear t < 365 + leapDays (YearFromTime t).
Proof.
  unfold DayWithinYear, YearFromTime.
  pose proof (YearFromDay_bounds (Day t)) as H.
  rewrite DayFromYear_step, DaysInYear_leap in H. lia.
Qed.

(** The month found holds the day. *)
Lemma monthOfDay_bounds (leap d : Z) :
  0 <= leap <= 1 -> 0 <= d < 365 + leap ->
  let m := monthOfDay leap d [0; 1; 2; 3; 4; 5; 6; 7; 8; 9; 10] in
  0 <= m <= 11 /\ monthStart leap m <= d < monthStart leap (m + 1).
Proof.
  intros Hl Hd.
  assert (Hcases : leap = 0 \/ leap = 1) by lia.
  destruct Hcases; subst leap; cbn;
  repeat match goal with
         | |- context [if ?a <? ?b then _ else _] =>
             destruct (Z.ltb_spec a b); [cbn; lia |]
         end;
  cbn; lia.
Qed.

Lemma MonthFromTime_bounds (t : Z) :
  0 <= MonthFromTime t <= 11 /\
  monthStart (leapDays (YearFromTime t)) (MonthFromTime t) <= DayWithinYear t
    < monthStart (leapDays (YearFromTime t)) (MonthFromTime t + 1).
Proof.
  apply monthOfDay_bounds; [apply leapDays_range | apply DayWithinYear_range].
Qed.

(** The three components name the day of the time value: a month of the
    year, a day of that month, and the day they denote is [Day t]. *)
Lemma calendar_date (t : Z) :
  let y := YearFromTime t in
  let m := MonthFromTime t + 1 in
  let d := DateFromTime t in
  1 <= m <= 12 /\ 1 <= d <= daysInMonth y m /\
  Day t = DayFromYear y + monthStart (leapDays y) (m - 1) + d - 1.
Proof.
  cbv zeta. pose proof (MonthFromTime_bounds t) as [Hm Hd].
  unfold DateFromTime, daysInMonth.
  replace (MonthFromTime t + 1 - 1) with (MonthFromTime t) by lia.
  unfold DayWithinYear in *. lia.
Qed.

Lemma code_chr (n : Z) : 0 <= n < 256 -> code (chr n) = n.
Proof.
  intros H. unfold code, chr. rewrite nat_ascii_embedding; lia.
Qed.

Lemma isDigit_chr (k : Z) : 0 <= k <= 9 -> isDigit (chr (48 + k)) = true.
Proof. intros H. unfold isDigit. rewrite code_chr; lia. Qed.

Lemma digitValue_chr (k : Z) : 0 <= k <= 9 -> digitValue (chr (48 + k)) = k.
Proof.
  intros H. unfold digitValue. rewrite isDigit_chr by assumption.
  rewrite code_chr; lia.
Qed.

Lemma length_append (a b : string) :
  String.length (a ++ b) = (String.length a + String.length b)%nat.
Proof. induction a as [|c a IH]; simpl; auto. Qed.

Lemma length_pad (w : nat) (n : Z) : String.length (pad w n) = w.
Proof.
  revert n. induction w as [|w IH]; intros n; cbn [pad]; auto.
  rewrite length_append, IH. simpl. lia.
Qed.

Lemma allChars_append (p : ascii -> bool) (a b : string) :
  allChars p (a ++ b) = allChars p a && allChars p b.
Proof. induction a as [|c a IH]; simpl; auto. now rewrite IH, andb_assoc. Qed.

Lemma digits_pad (w : nat) (n : Z) : allChars isDigit (pad w n) = true.
Proof.
  revert n. induction w as [|w IH]; intros n; cbn [pad]; auto.
  rewrite allChars_append, IH. cbn [allChars andb].
  rewrite isDigit_chr; [reflexivity |].
  pose proof (Z.mod_pos_bound n 10). lia.
Qed.

Lemma digitsValue_append (r acc : Z) (a b : string) :
  digitsValue r acc (a ++ b) = digitsValue r (digitsValue r acc a) b.
Proof. revert acc. induction a as [|c a IH]; intros acc; simpl; auto. Qed.

(** A padded number reads back as its last [w] digits. *)
Lemma digitsValue_pad (w : nat) (acc n : Z) :
  digitsValue 10 acc (pad w n) = acc * 10 ^ Z.of_nat w + n mod 10 ^ Z.of_nat w.
Proof.
  revert n. induction w as [|w IH]; intros n.
  - cbn [pad digitsValue]. change (10 ^ Z.of_nat 0) with 1. rewrite Z.mod_1_r. lia.
  - cbn [pad]. rewrite digitsValue_append, IH. cbn [digitsValue].
    rewrite digitValue_chr by (pose proof (Z.mod_pos_bound n 10); lia).
    rewrite Nat2Z.inj_succ, Z.pow_succ_r by lia.
    rewrite (Z.rem_mul_r n 10 (10 ^ Z.of_nat w)) by lia.
    lia.
Qed.

(** Rewrites with every digit test found in a hypothesis [a && b && ... = true]. *)
Ltac use_digits :=
  repeat match goal with
         | H : (_ && _) = true |- _ => apply andb_prop in H; destruct H
         end;
  repeat match goal with
         | H : isDigit _ = true |- _ => rewrite H; clear H
         end.

Lemma daysInMonth_range (y m : Z) : 1 <= m <= 12 -> 28 <= daysInMonth y m <= 31.
Proof.
  intros H. unfold daysInMonth. pose proof (leapDays_range y) as Hl.
  assert (Hm : m = 1 \/ m = 2 \/ m = 3 \/ m = 4 \/ m = 5 \/ m = 6 \/ m = 7 \/ m = 8
               \/ m = 9 \/ m = 10 \/ m = 11 \/ m = 12) by lia.
  assert (Hc : leapDays y = 0 \/ leapDays y = 1) by lia.
  destruct Hc as [-> | ->];
    repeat (destruct Hm as [-> | Hm]; [cbn; lia |]); subst m; cbn; lia.
Qed.

Lemma pad_small (w : nat) (n : Z) :
  0 <= n < 10 ^ Z.of_nat w -> digitsValue 10 0 (pad w n) = n.
Proof. intros H. rewrite digitsValue_pad, Z.mod_small; lia. Qed.

(** The calendar form of a date of the years 0 to 9999 parses to midnight
    UTC of that date. *)
Lemma parseISODate_pad (y m d : Z) :
  0 <= y <= 9999 -> 1 <= m <= 12 -> 1 <= d <= daysInMonth y m ->
  parseISODate (pad 4 y ++ "-" ++ pad 2 m ++ "-" ++ pad 2 d) =
  Some ((DayFromYear y + monthStart (leapDays y) (m - 1) + d - 1) * msPerDay).
Proof.
  intros Hy Hm Hd. pose proof (daysInMonth_range y m Hm) as Hr.
  assert (Ey : digitsValue 10 0 (pad 4 y) = y) by (apply pad_small; cbn; lia).
  assert (Em : digitsValue 10 0 (pad 2 m) = m) by (apply pad_small; cbn; lia).
  assert (Ed : digitsValue 10 0 (pad 2 d) = d) by (apply pad_small; cbn; lia).
  assert (Dy : allChars isDigit (pad 4 y) = true) by apply digits_pad.
  assert (Dm : allChars isDigit (pad 2 m) = true) by apply digits_pad.
  assert (Dd : allChars isDigit (pad 2 d) = true) by apply digits_pad.
  cbn [pad append] in *. unfold parseISODate.
  cbn [allChars] in *.
  use_digits.
  cbn [andb]. rewrite Ey, Em, Ed.
  replace ((1 <=? m) && (m <=? 12) && (1 <=? d) && (d <=? daysInMonth y m)) with true;
    [reflexivity |].
  symmetry. rewrite !andb_true_iff, !Z.leb_le. lia.
Qed.

Lemma toISODate_calendar (t : Z) :
  0 <= YearFromTime t <= 9999 ->
  toISODate t =
  (pad 4 (YearFromTime t) ++ "-" ++ pad 2 (MonthFromTime t + 1) ++ "-"
     ++ pad 2 (DateFromTime t))%string.
Proof.
  intros H. unfold toISODate, isoYear.
  replace ((0 <=? YearFromTime t) && (YearFromTime t <=? 9999)) with true;
    [reflexivity |].
  symmetry. rewrite andb_true_iff, !Z.leb_le. lia.
Qed.

(** Within the years 0 to 9999 the ISO date of a time value has the form
    [YYYY-MM-DD]. *)
Lemma toISODate_form (t : Z) :
  0 <= YearFromTime t <= 9999 -> Spec.isCalendarForm (toISODate t).
Proof.
  intros H. rewrite (toISODate_calendar t H).
  pose proof (digits_pad 4 (YearFromTime t)) as Dy.
  pose proof (digits_pad 2 (MonthFromTime t + 1)) as Dm.
  pose proof (digits_pad 2 (DateFromTime t)) as Dd.
  cbn [pad append] in *. unfold Spec.isCalendarForm.
  do 8 eexists. split; [reflexivity |].
  cbn [allChars] in *.
  use_digits.
  reflexivity.
Qed.

(** ... and it parses back to midnight UTC of the same day. *)
Lemma parseISODate_toISODate (t : Z) :
  0 <= YearFromTime t <= 9999 ->
  parseISODate (toISODate t) = Some (Day t * msPerDay).
Proof.
  intros H. rewrite (toISODate_calendar t H).
  pose proof (calendar_date t) as C. cbv zeta in C. destruct C as (Hm & Hd & Heq).
  rewrite parseISODate_pad by assumption.
  now rewrite <- Heq.
Qed.


Section FormatDate.

Variable E : engine.


Lemma formatDate_examples :
  ColumnMapper.formatDate E (VStr "2023-01-15") = VStr "2023-01-15" /\
  ColumnMapper.formatDate E (VNum (ofZ 1577836800000)) = VStr "2020-01-01" /\
  ColumnMapper.formatDate E (VStr "-") = VStr "-" /\
  ColumnMapper.formatDate E (VStr "") = VStr "-".
Proof. repeat split. Qed.

End FormatDate.


End DateFacts.

(* ===================================================================== *)
(** ** The row normalizer and the dataset normalizer *)
(* ===================================================================== *)

Module NormalizerFacts.

Import Js JsFacts.

Lemma mapKey_resolve (row : obj) (state : bool * obj) (originalKey : string) :
  ColumnMapper.mapKey row state originalKey =
  ColumnMapper.store state (Spec.resolveHeader originalKey) (get row originalKey).
Proof.
  unfold ColumnMapper.mapKey, Spec.resolveHeader.
  destruct (find _ ColumnMapper.COLUMN_MAPPINGS) as [[standardName variations]|];
    reflexivity.
Qed.

(** A write under any key but [__proto__] makes an own property. *)
Lemma store_own (bare : bool) (normalized : obj) (key : string) (value : scalar) :
  key <> "__proto__" ->
  ColumnMapper.store (bare, normalized) key value = (bare, assign normalized key value).
Proof.
  intros Hne. unfold ColumnMapper.store.
  apply String.eqb_neq in Hne. now rewrite Hne.
Qed.

(** A write leaves the properties under the other keys as they are. *)
Lemma lookup_store_other (state : bool * obj) (key k : string) (value : scalar) :
  key <> k ->
  lookup (snd (ColumnMapper.store state key value)) k = lookup (snd state) k.
Proof.
  intros Hne. destruct state as [bare normalized]. unfold ColumnMapper.store.
  destruct (_ && _ && _)%bool; cbn [snd]; [reflexivity |].
  now apply lookup_assign_other.
Qed.

Lemma hasOwn_store (state : bool * obj) (key field : string) (value : scalar) :
  field <> "__proto__" ->
  hasOwn (snd (ColumnMapper.store state key value)) field
  = (key =? field)%string || hasOwn (snd state) field.
Proof.
  intros Hfield. destruct (String.eqb_spec key field) as [-> | Hne].
  - destruct state as [bare normalized]. rewrite store_own by assumption.
    cbn [snd orb]. apply hasOwn_assign_same.
  - cbn [orb]. unfold hasOwn. now rewrite lookup_store_other.
Qed.

(** After the mapping loop a key other than [__proto__] is present when it
    was before, or when a header of the row resolves to it. *)
Lemma hasOwn_mapped (row : obj) (ks : list string) (state : bool * obj) (field : string) :
  field <> "__proto__" ->
  hasOwn (snd (fold_left (ColumnMapper.mapKey row) ks state)) field =
  hasOwn (snd state) field
  || existsb (fun originalKey => (Spec.resolveHeader originalKey =? field)%string) ks.
Proof.
  intros Hfield. revert state.
  induction ks as [|k ks IH]; intros state; cbn [fold_left existsb].
  - now rewrite orb_false_r.
  - rewrite IH, mapKey_resolve, hasOwn_store by assumption.
    now rewrite (orb_comm (_ =? _)%string (hasOwn (snd state) field)), orb_assoc.
Qed.

Lemma mapFrom_length {A B : Type} (f : A -> Z -> B) (index : Z) (data : list A) :
  length (ColumnMapper.mapFrom f index data) = length data.
Proof.
  revert index. induction data as [|a data IH]; intros index; simpl; auto.
Qed.

Lemma mapFrom_nth {A B : Type} (f : A -> Z -> B) (index : Z) (data : list A) (n : nat) :
  nth_error (ColumnMapper.mapFrom f index data) n =
  option_map (fun a => f a (index + Z.of_nat n)) (nth_error data n).
Proof.
  revert index n. induction data as [|a data IH]; intros index [|n];
    cbn [ColumnMapper.mapFrom nth_error option_map]; auto.
  - now rewrite Z.add_0_r.
  - rewrite IH. destruct (nth_error data n); cbn [option_map]; auto.
    do 2 f_equal. lia.
Qed.

(** The schema is the coerced fields together with the carried ones. *)
Lemma canonicalFields_split (field : string) :
  In field Spec.canonicalFields <->
  In field Spec.carriedFields \/ In field Spec.coercedFields.
Proof.
  unfold Spec.canonicalFields, Spec.carriedFields, Spec.coercedFields.
  cbn [In]. intuition.
Qed.

Section Normalizer.

Variable E : engine.

Ltac read_fields :=
  repeat (rewrite get_assign_same || rewrite get_assign_other by discriminate).

(** C3, amended. For every raw row the Row Normalizer returns a record in
    which the six coerced fields ([support_coverage], [ship_date],
    [end_of_sale], [last_day_support], [qty], [total_value]) are always
    populated, each with the coercer's answer for the mapped column (a
    sentinel when the column is absent); a carried field ([id], [mfg],
    [category], [asset_type], [type], [product_id], [description]) is
    populated exactly when a header of the row resolves to it. *)
Theorem normalizeRow_fields (row : obj) :
  exists normalized,
    ColumnMapper.normalizeRow E (ColumnMapper.Object row) = Return normalized /\
    (forall field, In field Spec.coercedFields -> hasOwn normalized field = true) /\
    (forall field, In field Spec.carriedFields ->
       (hasOwn normalized field = true <->
        exists originalKey,
          In originalKey (keys row) /\ Spec.resolveHeader originalKey = field)) /\
    get normalized "support_coverage"
      = ColumnMapper.normalizeSupport E (get (Spec.mapped row) "support_coverage") /\
    get normalized "ship_date"
      = ColumnMapper.formatDate E (get (Spec.mapped row) "ship_date") /\
    get normalized "end_of_sale"
      = ColumnMapper.formatDate E (get (Spec.mapped row) "end_of_sale") /\
    get normalized "last_day_support"
      = ColumnMapper.formatDate E (get (Spec.mapped row) "last_day_support") /\
    get normalized "qty"
      = VNum (ColumnMapper.normalizeNumber E (get (Spec.mapped row) "qty")) /\
    get normalized "total_value"
      = VNum (ColumnMapper.normalizeNumber E (get (Spec.mapped row) "total_value")).
Proof.
  eexists. split; [reflexivity |]. fold (Spec.mapped row).
  split; [| split].
  - intros field H. simpl in H.
    repeat (destruct H as [<- | H];
            [repeat (rewrite hasOwn_assign_same
                     || rewrite hasOwn_assign_other by discriminate);
             reflexivity |]).
    contradiction.
  - intros field H.
    assert (Hown : hasOwn (Spec.mapped row) field = true <->
                   exists originalKey,
                     In originalKey (keys row) /\ Spec.resolveHeader originalKey = field).
    { unfold Spec.mapped. rewrite hasOwn_mapped.
      - cbn [snd hasOwn lookup orb]. rewrite existsb_exists.
        split; intros [k [Hk Hr]]; exists k; split; auto;
          now apply String.eqb_eq.
      - simpl in H.
        repeat (destruct H as [<- | H]; [discriminate |]). contradiction. }
    simpl in H.
    repeat (destruct H as [<- | H];
            [rewrite !hasOwn_assign_other by discriminate; exact Hown |]).
    contradiction.
  - repeat split; read_fields; reflexivity.
Qed.

(** The dataset normalizer applies [processRow] to every row, in place. *)
Lemma processData_nth (data : list ColumnMapper.row) (index : nat) :
  nth_error (ColumnMapper.processData E data) index =
  option_map (fun r => ColumnMapper.processRow E r (Z.of_nat index)) (nth_error data index).
Proof. unfold ColumnMapper.processData. now rewrite mapFrom_nth. Qed.

(** Row processing throws on a [null] or [undefined] row and on no other. *)
Lemma normalizeRow_throws (r : ColumnMapper.row) :
  (exists e, ColumnMapper.normalizeRow E r = Throw e) <-> r = ColumnMapper.Nullish.
Proof.
  destruct r as [|o]; cbn [ColumnMapper.normalizeRow].
  - split; [reflexivity | intros _; now exists TypeError].
  - split; [intros [e H]; discriminate | discriminate].
Qed.

(** C10. The dataset normalizer returns a sequence of the same length in the
    same order; a row whose processing throws is emitted as it came, and the
    rows after it are still processed; a normalized record whose [id] is
    missing (falsy) receives [id = index + 1] and keeps its other fields, one
    that has an [id] is left as normalized. *)
Theorem processData_rows (data : list ColumnMapper.row) :
  length (ColumnMapper.processData E data) = length data /\
  (forall index r, nth_error data index = Some r ->
     exists out,
       nth_error (ColumnMapper.processData E data) index = Some out /\
       (forall e, ColumnMapper.normalizeRow E r = Throw e -> out = r) /\
       (forall normalized, ColumnMapper.normalizeRow E r = Return normalized ->
          (truthy (get normalized "id") = false ->
           exists record,
             out = ColumnMapper.Object record /\
             get record "id" = VNum (ofZ (Z.of_nat index + 1)) /\
             forall k, k <> "id" -> get record k = get normalized k) /\
          (truthy (get normalized "id") = true ->
           out = ColumnMapper.Object normalized))) /\
  (forall r, (exists e, ColumnMapper.normalizeRow E r = Throw e)
             <-> r = ColumnMapper.Nullish).
Proof.
  split; [apply mapFrom_length | split; [| apply normalizeRow_throws]].
  intros index r Hr. rewrite processData_nth, Hr. cbn [option_map].
  eexists. split; [reflexivity |].
  unfold ColumnMapper.processRow.
  split.
  - intros e He. now rewrite He.
  - intros normalized Hn. rewrite Hn. split; intros Hid; rewrite Hid; cbn [negb].
    + eexists. split; [reflexivity |]. split.
      * apply get_assign_same.
      * intros k Hk. apply get_assign_other. congruence.
    + reflexivity.
Qed.

Lemma processData_example :
  ColumnMapper.processData E
    [ ColumnMapper.Object [("Vendor", VStr "Cisco")];
      ColumnMapper.Nullish;
      ColumnMapper.Object [("ID", VStr "A7"); ("Serial#", VStr "X1")] ]
  = [ ColumnMapper.Object
        [("mfg", VStr "Cisco"); ("support_coverage", VStr "-"); ("ship_date", VStr "-");
         ("end_of_sale", VStr "-"); ("last_day_support", VStr "-");
         ("qty", VNum (ofZ 0)); ("total_value", VNum (ofZ 0)); ("id", VNum (ofZ 1))];
      ColumnMapper.Nullish;
      ColumnMapper.Object
        [("id", VStr "A7"); ("serial", VStr "X1"); ("support_coverage", VStr "-");
         ("ship_date", VStr "-"); ("end_of_sale", VStr "-");
         ("last_day_support", VStr "-"); ("qty", VNum (ofZ 0));
         ("total_value", VNum (ofZ 0))] ].
Proof. reflexivity. Qed.

End Normalizer.

(** C3 as stated fails: the empty row is normalized to a record without
    [mfg], whatever the engine. *)
Lemma normalizeRow_missing_field :
  exists field,
    In field Spec.canonicalFields /\
    forall E, exists normalized,
      ColumnMapper.normalizeRow E (ColumnMapper.Object []) = Return normalized /\
      hasOwn normalized field = false.
Proof.
  exists "mfg". split; [simpl; auto |].
  intros E. eexists. split; reflexivity.
Qed.

End NormalizerFacts.

(* ===================================================================== *)
(** ** The analytics aggregator *)
(* ===================================================================== *)

Module AggregatorFacts.

Import Js JsFacts.

(** Replacing or adding one group changes the sum by the difference. *)
Lemma sumOver_assign {A : Type} (f : A -> Z) (breakdown : dict A) (key : string)
    (a : A) :
  Spec.sumOver f (assign breakdown key a) =
  Spec.sumOver f breakdown + f a
  - match lookup breakdown key with Some old => f old | None => 0 end.
Proof.
  induction breakdown as [|[k g] breakdown IH];
    cbn [assign lookup Spec.sumOver fold_right snd].
  - lia.
  - destruct (k =? key)%string; cbn [Spec.sumOver fold_right snd].
    + lia.
    + fold (Spec.sumOver f (assign breakdown key a)). rewrite IH.
      fold (Spec.sumOver f breakdown). lia.
Qed.

Lemma fold_left_sum {A : Type} (f : A -> Z) (l : list A) (acc : Z) :
  fold_left (fun sum item => sum + f item) l acc =
  acc + fold_left (fun sum item => sum + f item) l 0.
Proof.
  revert acc. induction l as [|a l IH]; intros acc; cbn [fold_left].
  - lia.
  - rewrite IH, (IH (0 + f a)). lia.
Qed.

Lemma sumOf_ones {A : Type} (l : list A) :
  Spec.sumOf (fun _ : A => 1) l = Z.of_nat (length l).
Proof.
  induction l as [|x l IH]; cbn [Spec.sumOf fold_right length]; [reflexivity |].
  unfold Spec.sumOf in IH. rewrite IH. lia.
Qed.

Section Breakdowns.

Variable E : engine.

Lemma totalQuantity_sumOf (l : list obj) :
  UploadController.totalQuantity E l = Spec.sumOf (UploadController.qtyOf E) l.
Proof.
  unfold UploadController.totalQuantity.
  induction l as [|x l IH]; cbn [fold_left Spec.sumOf fold_right]; [reflexivity |].
  rewrite fold_left_sum, IH. unfold Spec.sumOf. lia.
Qed.

(** The loop never makes a group named after a member of [Object.prototype]. *)
Lemma tally_plainKeys (breakdown : dict UploadController.group) (key : string)
    (item : obj) :
  Spec.plainKeys breakdown -> Spec.plainKeys (UploadController.tally E breakdown key item).
Proof.
  intros Hb k a. unfold UploadController.tally.
  destruct (lookup breakdown key) as [g|] eqn:Hl.
  - destruct (String.eqb_spec key k) as [<- | Hne]; [intros _; exact (Hb key g Hl) |].
    rewrite lookup_assign_other by assumption. apply Hb.
  - destruct (inherited key) eqn:Hi; [apply Hb |].
    destruct (String.eqb_spec key k) as [<- | Hne]; [intros _; exact Hi |].
    rewrite lookup_assign_other by assumption. apply Hb.
Qed.

Lemma fold_tally_plainKeys (keyOf : obj -> string) (normalizedData : list obj)
    (breakdown : dict UploadController.group) :
  Spec.plainKeys breakdown ->
  Spec.plainKeys (fold_left (fun b item => UploadController.tally E b (keyOf item) item)
                            normalizedData breakdown).
Proof.
  revert breakdown. induction normalizedData as [|x l IH]; intros b Hb; [exact Hb |].
  cbn [fold_left]. apply IH. now apply tally_plainKeys.
Qed.

Lemma plainKeys_nil {A : Type} : Spec.plainKeys (@nil (string * A)).
Proof. intros k a H. discriminate. Qed.

(** One pass adds the record's weight to a counter, unless the key names a
    member of [Object.prototype]: then the breakdown is left as it was. *)
Lemma tally_sum (f : UploadController.group -> Z) (w : obj -> Z)
    (breakdown : dict UploadController.group) (key : string) (item : obj) :
  Spec.plainKeys breakdown ->
  f UploadController.newGroup = 0 ->
  (forall g, f (UploadController.bump E g item) = f g + w item) ->
  Spec.sumOver f (UploadController.tally E breakdown key item)
  = Spec.sumOver f breakdown + (if inherited key then 0 else w item).
Proof.
  intros Hb Hnew Hbump. unfold UploadController.tally.
  destruct (lookup breakdown key) as [g|] eqn:Hl.
  - rewrite (Hb key g Hl), sumOver_assign, Hl, Hbump. lia.
  - destruct (inherited key); [lia |].
    rewrite sumOver_assign, Hl, Hbump, Hnew. lia.
Qed.

(** A breakdown loop, whatever its grouping key, adds up the weights of the
    records it files. *)
Lemma breakdown_sum (f : UploadController.group -> Z) (w : obj -> Z)
    (keyOf : obj -> string) (normalizedData : list obj)
    (breakdown : dict UploadController.group) :
  Spec.plainKeys breakdown ->
  f UploadController.newGroup = 0 ->
  (forall g item, f (UploadController.bump E g item) = f g + w item) ->
  Spec.sumOver f (fold_left (fun b item => UploadController.tally E b (keyOf item) item)
                            normalizedData breakdown)
  = Spec.sumOver f breakdown + Spec.sumOf w (Spec.filed keyOf normalizedData).
Proof.
  intros Hb Hnew Hbump. revert breakdown Hb.
  induction normalizedData as [|item rest IH]; intros breakdown Hb.
  - unfold Spec.filed, Spec.sumOf. cbn [fold_left filter fold_right]. lia.
  - cbn [fold_left]. rewrite IH by now apply tally_plainKeys.
    rewrite (tally_sum f w) by auto.
    unfold Spec.filed, Spec.sumOf. cbn [filter].
    destruct (inherited (keyOf item)); cbn [negb fold_right]; lia.
Qed.

(** The group counts add up to the number of the records filed and the group
    quantities to their total quantity: a record is dropped exactly when its
    key names a member of [Object.prototype], and none is counted twice. *)
Lemma breakdown_conserves (keyOf : obj -> string) (normalizedData : list obj) :
  let result :=
    fold_left (fun b item => UploadController.tally E b (keyOf item) item)
              normalizedData [] in
  Spec.sumOver UploadController.count result
  = UploadController.totalRecords (Spec.filed keyOf normalizedData) /\
  Spec.sumOver UploadController.quantity result
  = UploadController.totalQuantity E (Spec.filed keyOf normalizedData).
Proof.
  cbv zeta. split.
  - rewrite (breakdown_sum UploadController.count (fun _ => 1));
      [| apply plainKeys_nil | reflexivity | reflexivity].
    cbn [Spec.sumOver fold_right]. now rewrite sumOf_ones.
  - rewrite (breakdown_sum UploadController.quantity (UploadController.qtyOf E));
      [| apply plainKeys_nil | reflexivity | reflexivity].
    cbn [Spec.sumOver fold_right]. now rewrite totalQuantity_sumOf.
Qed.

Lemma keys_tally_keep (breakdown : dict UploadController.group) (key k : string)
    (item : obj) :
  In k (keys breakdown) -> In k (keys (UploadController.tally E breakdown key item)).
Proof.
  intros Hk. unfold UploadController.tally.
  destruct (lookup breakdown key); [now apply keys_assign_keep |].
  destruct (inherited key); [exact Hk | now apply keys_assign_keep].
Qed.

(** Every record whose key names no member of [Object.prototype] has its
    group in a breakdown. *)
Lemma breakdown_keys (keyOf : obj -> string) (normalizedData : list obj)
    (breakdown : dict UploadController.group) (item : obj) :
  In item normalizedData ->
  inherited (keyOf item) = false ->
  In (keyOf item)
     (keys (fold_left (fun b item => UploadController.tally E b (keyOf item) item)
                      normalizedData breakdown)).
Proof.
  intros Hin Hplain.
  assert (Hkeep : forall data b k,
             In k (keys b) ->
             In k (keys (fold_left
                           (fun b item => UploadController.tally E b (keyOf item) item)
                           data b))).
  { induction data as [|x data IH]; intros b k Hk; cbn [fold_left]; auto.
    apply IH. now apply keys_tally_keep. }
  revert breakdown. induction normalizedData as [|x data IH]; intros breakdown;
    [contradiction |].
  cbn [fold_left]. destruct Hin as [-> | Hin].
  - apply Hkeep. unfold UploadController.tally. rewrite Hplain.
    destruct (lookup breakdown (keyOf item)); apply keys_assign_same.
  - now apply IH.
Qed.

(** In [manufacturerBreakdown] and in [categoryBreakdown] the counts and the
    quantities of the groups are those of the records filed. *)
Lemma breakdown_filed (normalizedData : list obj) :
  Spec.sumOver UploadController.count (UploadController.manufacturerBreakdown E normalizedData)
  = UploadController.totalRecords (Spec.filed (Spec.manufacturerKey E) normalizedData) /\
  Spec.sumOver UploadController.quantity (UploadController.manufacturerBreakdown E normalizedData)
  = UploadController.totalQuantity E (Spec.filed (Spec.manufacturerKey E) normalizedData) /\
  Spec.sumOver UploadController.count (UploadController.categoryBreakdown E normalizedData)
  = UploadController.totalRecords (Spec.filed (Spec.categoryKey E) normalizedData) /\
  Spec.sumOver UploadController.quantity (UploadController.categoryBreakdown E normalizedData)
  = UploadController.totalQuantity E (Spec.filed (Spec.categoryKey E) normalizedData).
Proof.
  destruct (breakdown_conserves (Spec.manufacturerKey E) normalizedData) as [Hc Hq].
  destruct (breakdown_conserves (Spec.categoryKey E) normalizedData) as [Hc' Hq'].
  repeat split; assumption.
Qed.

(** C8 (the code departs from the claim). Of two records, one made by
    [constructor] in the category [toString] with quantity 2 and one made by
    [Cisco] in the category [Router] with quantity 3, each breakdown holds the
    second only: the group counts add up to 1 where there are 2 records and
    the group quantities to 3 where the total quantity is 5. The guard
    [if (!breakdown[key])] reads the member that the breakdown, made by [{}],
    inherits from [Object.prototype], so no group is made for the first
    record. *)
Theorem breakdown_not_conserved :
  UploadController.totalRecords Spec.prototypeRecords = 2 /\
  UploadController.totalQuantity E Spec.prototypeRecords = 5 /\
  keys (UploadController.manufacturerBreakdown E Spec.prototypeRecords) = ["Cisco"] /\
  Spec.sumOver UploadController.count
    (UploadController.manufacturerBreakdown E Spec.prototypeRecords) = 1 /\
  Spec.sumOver UploadController.quantity
    (UploadController.manufacturerBreakdown E Spec.prototypeRecords) = 3 /\
  keys (UploadController.categoryBreakdown E Spec.prototypeRecords) = ["Router"] /\
  Spec.sumOver UploadController.count
    (UploadController.categoryBreakdown E Spec.prototypeRecords) = 1 /\
  Spec.sumOver UploadController.quantity
    (UploadController.categoryBreakdown E Spec.prototypeRecords) = 3.
Proof. repeat split. Qed.

End Breakdowns.

(** *** Field completeness *)

Lemma Qfloor_half_range (x : Q) :
  (0 <= x)%Q -> (x <= 100)%Q -> 0 <= Qfloor (x + (1 # 2)) <= 100.
Proof.
  intros H0 H1. split.
  - change 0 with (Qfloor (1 # 2)). apply Qfloor_resp_le.
    rewrite <- (Qplus_0_l (1 # 2)) at 1. apply Qplus_le_l. exact H0.
  - change 100 with (Qfloor (100 + (1 # 2))). apply Qfloor_resp_le.
    apply Qplus_le_l. exact H1.
Qed.

Lemma ratio_range (filled len : Z) :
  0 <= filled <= len -> 0 < len ->
  (0 <= inject_Z filled / inject_Z len * inject_Z 100)%Q /\
  (inject_Z filled / inject_Z len * inject_Z 100 <= 100)%Q.
Proof.
  intros Hf Hl.
  assert (Hpos : (0 < inject_Z len)%Q) by (change 0%Q with (inject_Z 0); rewrite <- Zlt_Qlt; lia).
  assert (H0 : (0 <= inject_Z filled / inject_Z len)%Q).
  { apply Qle_shift_div_l; [exact Hpos |]. rewrite Qmult_0_l.
    change 0%Q with (inject_Z 0). rewrite <- Zle_Qle. lia. }
  assert (H1 : (inject_Z filled / inject_Z len <= 1)%Q).
  { apply Qle_shift_div_r; [exact Hpos |]. rewrite Qmult_1_l.
    rewrite <- Zle_Qle. lia. }
  split.
  - apply Qmult_le_0_compat; [exact H0 | discriminate].
  - apply Qle_trans with (1 * inject_Z 100)%Q; [| discriminate].
    apply Qmult_le_compat_r; [exact H1 | discriminate].
Qed.

Lemma filter_length_le {A : Type} (p : A -> bool) (l : list A) :
  (length (filter p l) <= length l)%nat.
Proof.
  induction l as [|a l IH]; simpl; auto. destruct (p a); simpl; lia.
Qed.

(** On a record set that is not empty a completeness is a whole percentage. *)
Lemma completeness_range (normalizedData : list obj) (field : string) :
  normalizedData <> [] ->
  exists k, 0 <= k <= 100 /\
    UploadController.completeness normalizedData field = ofZ k.
Proof.
  intros Hne. unfold UploadController.completeness.
  set (p := fun item : obj => _).
  pose proof (filter_length_le p normalizedData) as Hle.
  assert (Hlen : 0 < Z.of_nat (length normalizedData))
    by (destruct normalizedData; [contradiction | simpl; lia]).
  set (filled := Z.of_nat (length (filter p normalizedData))) in *.
  set (len := Z.of_nat (length normalizedData)) in *.
  assert (Hf : 0 <= filled <= len) by (subst filled len; lia).
  unfold UploadController.divide, ofZ.
  assert (Hz : Qeq_bool (inject_Z len) 0 = false).
  { apply not_true_iff_false. intros H. apply Qeq_bool_iff in H.
    change 0%Q with (inject_Z 0) in H. apply (proj1 (inject_Z_injective len 0)) in H. lia. }
  rewrite Hz. cbn [UploadController.times UploadController.Math_round].
  destruct (ratio_range filled len Hf Hlen) as [H0 H1].
  eexists. split; [| reflexivity].
  apply Qfloor_half_range; assumption.
Qed.

(** C2 (the code departs from the claim). On the empty record set every
    completeness is [0 / 0 * 100] rounded, which is [NaN] and not [0]: the
    loop has no guard against the empty set. *)
Theorem fieldCompleteness_empty :
  UploadController.fieldCompleteness []
  = map (fun field => (field, NaN)) UploadController.requiredFields.
Proof. reflexivity. Qed.

Lemma fieldCompleteness_lookup (normalizedData : list obj) (field : string) :
  In field UploadController.requiredFields ->
  lookup (UploadController.fieldCompleteness normalizedData) field
  = Some (UploadController.completeness normalizedData field).
Proof.
  intros H. unfold UploadController.fieldCompleteness.
  rewrite lookup_fold_assign.
  replace (existsb (String.eqb field) UploadController.requiredFields) with true;
    [reflexivity |].
  symmetry. apply existsb_exists. exists field. split; [exact H | apply String.eqb_refl].
Qed.

(** *** Lifecycle counts *)

Lemma strictEqStr_true (v : scalar) (s : string) :
  strictEqStr v s = true <-> v = VStr s.
Proof.
  destruct v as [| |b|n|s']; cbn [strictEqStr];
    try (split; [discriminate | intros H; discriminate]).
  rewrite String.eqb_eq. split; [now intros -> | now intros [= ->]].
Qed.

Lemma countIf_cons {A : Type} (p : A -> bool) (a : A) (l : list A) :
  Spec.countIf p (a :: l) = (if p a then 1 else 0) + Spec.countIf p l.
Proof.
  unfold Spec.countIf. cbn [filter]. destruct (p a); cbn [length]; lia.
Qed.

Section Lifecycle.

Variable E : engine.
Variable now : Z.

(** The test of the loop body is the predicate of the specification. *)
Lemma expiredB_spec (field : scalar) :
  Spec.expiredB E now field = true <-> Spec.expiredRelativeToNow E now field.
Proof.
  unfold Spec.expiredB, Spec.expiredRelativeToNow.
  rewrite !andb_true_iff, negb_true_iff.
  split.
  - intros [[Ht Hs] Hd]. split; [exact Ht |]. split.
    + intros Heq. apply strictEqStr_true in Heq. congruence.
    + destruct (newDate E field) as [t|]; [| discriminate].
      exists t. split; [reflexivity | now apply Z.leb_le].
  - intros (Ht & Hs & t & Hd & Hle). split; [split |].
    + exact Ht.
    + apply not_true_iff_false. intros Heq. now apply strictEqStr_true in Heq.
    + rewrite Hd. now apply Z.leb_le.
Qed.

(** One pass of the loop body adds the quantity and, per date field, one
    when the field is expired relative to [now]. *)
Lemma lifecycleStep_counts (a b c d : Z) (item : obj) :
  UploadController.lifecycleStep E now (a, b, c, d) item =
  (a + UploadController.qtyOf E item,
   b + (if Spec.expiredB E now (get item "end_of_sale") then 1 else 0),
   c + (if Spec.expiredB E now (Spec.vulnField item) then 1 else 0),
   d + (if Spec.expiredB E now (get item "last_day_support") then 1 else 0)).
Proof.
  unfold UploadController.lifecycleStep, Spec.expiredB, UploadController.notAfter.
  fold (Spec.vulnField item).
  repeat match goal with
         | |- context [truthy ?v && negb (strictEqStr ?v "-")] =>
             destruct (truthy v && negb (strictEqStr v "-")); cbn [andb]
         | |- context [newDate E ?v] => destruct (newDate E v) as [?t|]
         | |- context [?t <=? now] => destruct (t <=? now)
         end;
    repeat match goal with |- (_, _) = (_, _) => apply f_equal2 end; lia.
Qed.

Lemma lifecycle_fold (items : list obj) (a b c d : Z) :
  fold_left (UploadController.lifecycleStep E now) items (a, b, c, d) =
  (a + UploadController.totalQuantity E items,
   b + Spec.countIf (fun item => Spec.expiredB E now (get item "end_of_sale")) items,
   c + Spec.countIf (fun item => Spec.expiredB E now (Spec.vulnField item)) items,
   d + Spec.countIf (fun item => Spec.expiredB E now (get item "last_day_support")) items).
Proof.
  revert a b c d. induction items as [|item items IH]; intros a b c d.
  - cbn. repeat match goal with |- (_, _) = (_, _) => apply f_equal2 end; lia.
  - cbn [fold_left]. rewrite lifecycleStep_counts, IH, !countIf_cons.
    unfold UploadController.totalQuantity. cbn [fold_left].
    rewrite (fold_left_sum _ items (0 + _)).
    repeat match goal with |- (_, _) = (_, _) => apply f_equal2 end; lia.
Qed.

Lemma categoryItems_spec (normalizedData : list obj) (category : string) (item : obj) :
  In item (UploadController.categoryItems normalizedData category) <->
  In item normalizedData /\
  orElse (get item "category") (VStr "Uncategorized") = VStr category.
Proof.
  unfold UploadController.categoryItems. rewrite filter_In.
  now rewrite strictEqStr_true.
Qed.

(** A record whose category is a string, or is absent, is visited under the
    key of its category, which is a key of the breakdown unless it names a
    member of [Object.prototype]. *)
Lemma category_visited (normalizedData : list obj) (item : obj) (category : string) :
  In item normalizedData ->
  orElse (get item "category") (VStr "Uncategorized") = VStr category ->
  inherited category = false ->
  In category (keys (UploadController.categoryBreakdown E normalizedData)) /\
  In item (UploadController.categoryItems normalizedData category).
Proof.
  intros Hin Hcat Hplain. split.
  - unfold UploadController.categoryBreakdown.
    pose proof (breakdown_keys E
                  (fun item =>
                     toString E (orElse (get item "category") (VStr "Uncategorized")))
                  normalizedData [] item Hin) as H.
    cbv beta in H. rewrite Hcat in H. now apply H.
  - apply categoryItems_spec. now split.
Qed.

(** The test applied to a lifecycle date field holds exactly when the field
    is present (truthy), is not the sentinel ['-'], parses to a date, and that
    date is on or before [now]; a field that does not parse never counts.
    Every record the category loop visits adds one to a counter exactly when
    its field passes the test, and a record whose category is a string (or is
    absent, which reads ['Uncategorized']) that names no member of
    [Object.prototype] is visited under that key; so for every category the
    three counters of [lifecycleByCategory] are the numbers of records of the
    category that pass the test on the respective field. With end-of-sale
    dates 2020-01-01 and 2099-01-01 in category [Router] and [now] =
    2024-01-01, [endOfSale] is 1. *)
Lemma lifecycle_counts (normalizedData : list obj) :
  (forall field,
     Spec.expiredB E now field = true <-> Spec.expiredRelativeToNow E now field) /\
  (forall field, newDate E field = None -> Spec.expiredB E now field = false) /\
  (forall a b c d item,
     UploadController.lifecycleStep E now (a, b, c, d) item =
     (a + UploadController.qtyOf E item,
      b + (if Spec.expiredB E now (get item "end_of_sale") then 1 else 0),
      c + (if Spec.expiredB E now (Spec.vulnField item) then 1 else 0),
      d + (if Spec.expiredB E now (get item "last_day_support") then 1 else 0))) /\
  (forall item category,
     In item normalizedData ->
     orElse (get item "category") (VStr "Uncategorized") = VStr category ->
     inherited category = false ->
     In category (keys (UploadController.categoryBreakdown E normalizedData)) /\
     In item (UploadController.categoryItems normalizedData category)) /\
  (forall category,
     let items := UploadController.categoryItems normalizedData category in
     let entry := UploadController.lifecycleOf E now normalizedData category in
     (forall item,
        In item items <->
        In item normalizedData /\
        orElse (get item "category") (VStr "Uncategorized") = VStr category) /\
     UploadController.endOfSale entry
     = Spec.countIf (fun item => Spec.expiredB E now (get item "end_of_sale")) items /\
     UploadController.endOfSWVuln entry
     = Spec.countIf (fun item => Spec.expiredB E now (Spec.vulnField item)) items /\
     UploadController.lastDaySupport entry
     = Spec.countIf (fun item => Spec.expiredB E now (get item "last_day_support")) items /\
     UploadController.total entry = Z.of_nat (length items)) /\
  (forall category,
     In category (keys (UploadController.categoryBreakdown E normalizedData)) ->
     lookup (UploadController.lifecycleByCategory E now normalizedData) category
     = Some (UploadController.lifecycleOf E now normalizedData category)) /\
  option_map UploadController.endOfSale
    (lookup (UploadController.lifecycleByCategory E Spec.now2024 Spec.routerRecords) "Router")
  = Some 1.
Proof.
  split; [exact expiredB_spec | split; [| split; [| split; [| split; [| split]]]]].
  - intros field H. unfold Spec.expiredB. rewrite H. apply andb_false_r.
  - exact lifecycleStep_counts.
  - intros item category. apply category_visited.
  - intros category. cbv zeta. unfold UploadController.lifecycleOf.
    rewrite lifecycle_fold. cbn [UploadController.endOfSale UploadController.endOfSWVuln
      UploadController.lastDaySupport UploadController.total].
    split; [intros item; apply categoryItems_spec |].
    repeat split; lia.
  - intros category H. unfold UploadController.lifecycleByCategory.
    rewrite lookup_fold_assign.
    replace (existsb (String.eqb category) _) with true; [reflexivity |].
    symmetry. apply existsb_exists. exists category.
    split; [exact H | apply String.eqb_refl].
  - reflexivity.
Qed.

End Lifecycle.

(** C7 (the code departs from the claim). Two records carry the end-of-sale
    date 2020-01-01, which is present, not the sentinel, a valid calendar date
    and before [now] = 2024-01-01; the category of the first is the number 5,
    that of the second the text [toString]. Neither counts as expired in
    [lifecycleByCategory]: the table has the one entry [5], made for the first
    record by [categoryBreakdown], and that entry is empty, because the loop
    selects its records by [(item.category || 'Uncategorized') === category]
    against the key, a string; for the second record [categoryBreakdown] has
    no group at all, its guard reading the inherited member [toString]. *)
Theorem lifecycle_not_counted (E : engine) :
  (forall item, In item Spec.strayRecords ->
     Spec.expiredRelativeToNow E Spec.now2024 (get item "end_of_sale")) /\
  UploadController.lifecycleByCategory E Spec.now2024 Spec.strayRecords
  = [ ("5", {| UploadController.totalQty := 0;
               UploadController.endOfSale := 0;
               UploadController.endOfSWVuln := 0;
               UploadController.lastDaySupport := 0;
               UploadController.total := 0 |}) ].
Proof.
  split; [| reflexivity].
  intros item [<- | [<- | []]]; apply expiredB_spec; reflexivity.
Qed.

End AggregatorFacts.

(* ===================================================================== *)
(** ** Pagination of the results *)
(* ===================================================================== *)

Module ResultsFacts.

Import Js JsFacts.


Lemma firstn_beyond {A : Type} (n m : nat) (l : list A) :
  (length l <= n)%nat -> (length l <= m)%nat -> firstn n l = firstn m l.
Proof. intros Hn Hm. now rewrite !firstn_all2. Qed.




Lemma getResults_defaults :
  UploadController.getResults Spec.oneJob "job-1" None None
  = UploadController.Json Spec.threeRecords
      {| UploadController.pg_total := 3;
         UploadController.pg_limit := 3;
         UploadController.pg_offset := 0 |} /\
  UploadController.getResults Spec.oneJob "job-2" None None = UploadController.Status404.
Proof. split; reflexivity. Qed.

End ResultsFacts.

(* ===================================================================== *)
(** ** The header resolver *)
(* ===================================================================== *)

Module HeaderFacts.

Import Js JsFacts.

(** On ASCII text, lowercasing forgets a previous uppercasing. *)
Lemma lowerChar_upperChar (c : ascii) :
  isAscii c = true -> lowerChar (upperChar c) = lowerChar c.
Proof.
  destruct c as [[|] [|] [|] [|] [|] [|] [|] [|]]; intros H;
    first [reflexivity | discriminate H].
Qed.

Lemma toLowerCase_toUpperCase (s : string) :
  allChars isAscii s = true -> toLowerCase (toUpperCase s) = toLowerCase s.
Proof.
  unfold toLowerCase, toUpperCase.
  induction s as [|c s IH]; cbn [mapString allChars]; [reflexivity |].
  intros H. apply andb_prop in H as [Hc H].
  now rewrite lowerChar_upperChar, IH.
Qed.

Lemma mapString_append (f : ascii -> ascii) (a b : string) :
  mapString f (a ++ b) = (mapString f a ++ mapString f b)%string.
Proof. induction a as [|c a IH]; cbn [mapString append]; [reflexivity | now rewrite IH]. Qed.

Lemma isWhiteSpace_lowerChar (c : ascii) : isWhiteSpace (lowerChar c) = isWhiteSpace c.
Proof.
  destruct c as [[|] [|] [|] [|] [|] [|] [|] [|]]; reflexivity.
Qed.

Lemma blanks_toLowerCase (s : string) :
  allChars isWhiteSpace s = true -> allChars isWhiteSpace (toLowerCase s) = true.
Proof.
  unfold toLowerCase. induction s as [|c s IH]; cbn [mapString allChars]; auto.
  rewrite isWhiteSpace_lowerChar. intros H. apply andb_prop in H as [-> H].
  now rewrite IH.
Qed.

Lemma trimStart_blanks (pre s : string) :
  allChars isWhiteSpace pre = true -> trimStart (pre ++ s) = trimStart s.
Proof.
  induction pre as [|c pre IH]; cbn [allChars append]; auto.
  intros H. apply andb_prop in H as [Hc H]. cbn [trimStart]. rewrite Hc. auto.
Qed.

Lemma trimStart_only_blanks (post : string) :
  allChars isWhiteSpace post = true -> trimStart post = "".
Proof.
  induction post as [|c post IH]; cbn [allChars trimStart]; auto.
  intros H. apply andb_prop in H as [Hc H]. now rewrite Hc, IH.
Qed.

Lemma trimEnd_blanks (post : string) :
  allChars isWhiteSpace post = true -> trimEnd post = "".
Proof.
  induction post as [|c post IH]; cbn [allChars trimEnd]; auto.
  intros H. apply andb_prop in H as [Hc H]. now rewrite (IH H), Hc.
Qed.

Lemma trimEnd_append_blanks (s post : string) :
  allChars isWhiteSpace post = true -> trimEnd (s ++ post) = trimEnd s.
Proof.
  intros H. induction s as [|c s IH]; cbn [append trimEnd].
  - now apply trimEnd_blanks.
  - now rewrite IH.
Qed.

(** Blanks around a text do not survive [trim]. *)
Lemma trim_blanks (pre s post : string) :
  allChars isWhiteSpace pre = true -> allChars isWhiteSpace post = true ->
  trim (pre ++ s ++ post) = trim s.
Proof.
  intros Hpre Hpost. unfold trim. rewrite trimStart_blanks by assumption.
  induction s as [|c s IH]; cbn [append trimStart].
  - now rewrite (trimStart_only_blanks post Hpost).
  - destruct (isWhiteSpace c); [exact IH |].
    change (String c (s ++ post)) with (String c s ++ post)%string.
    now apply trimEnd_append_blanks.
Qed.

(** Every standard name of the table is a cleaned key already. *)
Lemma standard_names_clean :
  forallb (fun m => allChars Spec.slugChar (fst m) && negb (fst m =? "")%string)
          ColumnMapper.COLUMN_MAPPINGS = true.
Proof. reflexivity. Qed.

Lemma cleanKey_alphabet (lowerKey : string) :
  allChars Spec.slugChar (ColumnMapper.cleanKey lowerKey) = true.
Proof.
  unfold ColumnMapper.cleanKey.
  induction (replaceRuns "_" false lowerKey) as [|c s IH]; cbn [removeAll]; [reflexivity |].
  fold (Spec.slugChar c). destruct (Spec.slugChar c) eqn:Hc; cbn [negb allChars]; auto.
  now rewrite Hc, IH.
Qed.

(** The key a header resolves to is made of lowercase letters, digits and
    underscores. *)
Lemma resolveHeader_alphabet (originalKey : string) :
  allChars Spec.slugChar (Spec.resolveHeader originalKey) = true.
Proof.
  unfold Spec.resolveHeader.
  destruct (find _ ColumnMapper.COLUMN_MAPPINGS) as [[standardName variations]|] eqn:Hf.
  - apply find_some in Hf as [Hin _].
    pose proof standard_names_clean as H. rewrite forallb_forall in H.
    specialize (H _ Hin). cbn [fst] in H. now apply andb_prop in H as [H _].
  - apply cleanKey_alphabet.
Qed.

Lemma keys_assign_in {A : Type} (o : dict A) (k k' : string) (a : A) :
  In k' (keys (assign o k a)) -> k' = k \/ In k' (keys o).
Proof.
  induction o as [|[k0 a0] o IH]; cbn [assign keys map fst In].
  - intuition.
  - destruct (k0 =? k)%string eqn:Hk; cbn [map fst In]; [tauto |].
    intros [H | H]; [tauto |]. apply IH in H. tauto.
Qed.

Lemma keys_store (state : bool * obj) (key k : string) (value : scalar) :
  In k (keys (snd (ColumnMapper.store state key value))) ->
  k = key \/ In k (keys (snd state)).
Proof.
  destruct state as [bare normalized]. unfold ColumnMapper.store.
  destruct (_ && _ && _)%bool; cbn [snd]; [now right | apply keys_assign_in].
Qed.

Lemma keys_mapped (row : obj) (ks : list string) (state : bool * obj) (k : string) :
  In k (keys (snd (fold_left (ColumnMapper.mapKey row) ks state))) ->
  In k (keys (snd state))
  \/ exists originalKey, In originalKey ks /\ k = Spec.resolveHeader originalKey.
Proof.
  revert state. induction ks as [|h ks IH]; intros state; cbn [fold_left]; [tauto |].
  intros H. apply IH in H as [H | (h' & Hin & ->)].
  - rewrite NormalizerFacts.mapKey_resolve in H. apply keys_store in H as [-> | H].
    + right. exists h. split; [now left | reflexivity].
    + now left.
  - right. exists h'. split; [now right | reflexivity].
Qed.

(** A mapped column keeps its value until a later header resolves to the same
    key. *)
Lemma get_mapped_other (row : obj) (ks : list string) (state : bool * obj) (k : string) :
  (forall originalKey, In originalKey ks -> Spec.resolveHeader originalKey <> k) ->
  get (snd (fold_left (ColumnMapper.mapKey row) ks state)) k = get (snd state) k.
Proof.
  revert state. induction ks as [|h ks IH]; intros state Hne; cbn [fold_left];
    [reflexivity |].
  rewrite IH by (intros h' Hin; apply Hne; now right).
  rewrite NormalizerFacts.mapKey_resolve. unfold get.
  rewrite NormalizerFacts.lookup_store_other; [reflexivity |].
  apply Hne. now left.
Qed.

Section Resolver.

Variable E : engine.

(** A header whose lowercased, trimmed form is a listed variation is stored
    under the standard name of that list: the lists of the table do not
    overlap. *)
Theorem synonym_resolves (row normalized : obj) (bare : bool)
    (originalKey standardName : string) (variations : list string) :
  In (standardName, variations) ColumnMapper.COLUMN_MAPPINGS ->
  In (trim (toLowerCase originalKey)) variations ->
  ColumnMapper.mapKey row (bare, normalized) originalKey
  = (bare, assign normalized standardName (get row originalKey)).
Proof.
  intros Hm Hv. unfold ColumnMapper.mapKey.
  set (k := trim (toLowerCase originalKey)) in *. clearbody k.
  cbn [ColumnMapper.COLUMN_MAPPINGS In] in Hm.
  repeat (destruct Hm as [Hm | Hm];
          [ injection Hm as <- <-; cbn [In] in Hv;
            repeat (destruct Hv as [<- | Hv]; [reflexivity |]); contradiction
          | ]).
  contradiction.
Qed.

(** Matching of an ASCII header ignores case and surrounding blanks: the
    header written in capitals between blanks is written under the same key. *)
Theorem header_case_and_blanks (pre originalKey post : string) :
  allChars isAscii originalKey = true ->
  allChars isWhiteSpace pre = true -> allChars isWhiteSpace post = true ->
  exists key,
    forall (row : obj) (state : bool * obj),
      ColumnMapper.mapKey row state originalKey
      = ColumnMapper.store state key (get row originalKey) /\
      ColumnMapper.mapKey row state (pre ++ toUpperCase originalKey ++ post)
      = ColumnMapper.store state key
          (get row (pre ++ toUpperCase originalKey ++ post)%string).
Proof.
  intros Hascii Hpre Hpost. exists (Spec.resolveHeader originalKey). intros row state.
  rewrite !NormalizerFacts.mapKey_resolve. split; [reflexivity |]. f_equal.
  unfold Spec.resolveHeader, toLowerCase.
  rewrite !mapString_append. fold toLowerCase.
  rewrite toLowerCase_toUpperCase by assumption.
  rewrite trim_blanks by (apply blanks_toLowerCase; assumption).
  reflexivity.
Qed.

(** Every key of a normalized row is made of lowercase letters, digits and
    underscores: no header reaches the record with a capital, a blank or a
    punctuation mark in it. *)
Theorem normalizeRow_keys (row : obj) :
  exists normalized,
    ColumnMapper.normalizeRow E (ColumnMapper.Object row) = Return normalized /\
    forall k, In k (keys normalized) -> allChars Spec.slugChar k = true.
Proof.
  eexists. split; [reflexivity |]. intros k Hk.
  repeat (apply keys_assign_in in Hk as [-> | Hk]; [reflexivity |]).
  apply keys_mapped in Hk as [Hk | (h & _ & ->)]; [contradiction |].
  apply resolveHeader_alphabet.
Qed.

(** The last header that resolves to a key other than [__proto__] decides
    the value under that key: the record holds that column as it is under a
    key that is not coerced, and the coercer's answer for that column under a
    coerced key. *)
Theorem normalizeRow_last_write (row : obj) (before after : list string)
    (originalKey : string) :
  keys row = (before ++ originalKey :: after)%list ->
  Spec.resolveHeader originalKey <> "__proto__" ->
  (forall later, In later after ->
     Spec.resolveHeader later <> Spec.resolveHeader originalKey) ->
  exists normalized,
    ColumnMapper.normalizeRow E (ColumnMapper.Object row) = Return normalized /\
    get (Spec.mapped row) (Spec.resolveHeader originalKey) = get row originalKey /\
    (~ In (Spec.resolveHeader originalKey) Spec.coercedFields ->
     get normalized (Spec.resolveHeader originalKey) = get row originalKey) /\
    (Spec.resolveHeader originalKey = "qty" ->
     get normalized "qty" = VNum (ColumnMapper.normalizeNumber E (get row originalKey))) /\
    (Spec.resolveHeader originalKey = "support_coverage" ->
     get normalized "support_coverage"
     = ColumnMapper.normalizeSupport E (get row originalKey)) /\
    (Spec.resolveHeader originalKey = "end_of_sale" ->
     get normalized "end_of_sale" = ColumnMapper.formatDate E (get row originalKey)).
Proof.
  intros Hkeys Hown Hlater.
  assert (Hmapped : get (Spec.mapped row) (Spec.resolveHeader originalKey)
                    = get row originalKey).
  { unfold Spec.mapped. rewrite Hkeys, fold_left_app. cbn [fold_left].
    rewrite get_mapped_other by assumption.
    rewrite NormalizerFacts.mapKey_resolve.
    destruct (fold_left (ColumnMapper.mapKey row) before (false, [])) as [bare written].
    rewrite NormalizerFacts.store_own by assumption. apply get_assign_same. }
  eexists. split; [reflexivity |]. fold (Spec.mapped row).
  split; [exact Hmapped |]. split; [| split; [| split]].
  - intros Hnot. cbn [Spec.coercedFields In] in Hnot.
    rewrite !get_assign_other by (intros Heq; apply Hnot; rewrite <- Heq; tauto).
    exact Hmapped.
  - intros Hq. rewrite Hq in Hmapped.
    repeat (rewrite get_assign_same || rewrite get_assign_other by discriminate).
    now rewrite Hmapped.
  - intros Hq. rewrite Hq in Hmapped.
    repeat (rewrite get_assign_same || rewrite get_assign_other by discriminate).
    now rewrite Hmapped.
  - intros Hq. rewrite Hq in Hmapped.
    repeat (rewrite get_assign_same || rewrite get_assign_other by discriminate).
    now rewrite Hmapped.
Qed.

End Resolver.

(** No member of [Object.prototype] is a variation of the table, and
    [__proto__] is one of the members. *)
Lemma inherited_unmatched (originalKey : string) :
  inherited originalKey = true ->
  find (fun m => existsb (fun variation =>
                            (variation =? trim (toLowerCase originalKey))%string) (snd m))
       ColumnMapper.COLUMN_MAPPINGS = None.
Proof.
  intros H. unfold inherited in H. apply existsb_exists in H as (name & Hin & Heq).
  apply String.eqb_eq in Heq. subst name. cbn [objectPrototype In] in Hin.
  repeat (destruct Hin as [<- | Hin]; [reflexivity |]). contradiction.
Qed.

Lemma note_own (mapping : dict string) (key name : string) :
  inherited key = false -> ColumnMapper.note mapping key name = assign mapping key name.
Proof.
  intros H. unfold ColumnMapper.note.
  destruct (String.eqb_spec key "__proto__") as [-> | _]; [discriminate H | reflexivity].
Qed.

(** One step of [getColumnMapping] records the key [mapKey] would use,
    provided the header is new to the mapping or already recorded so; a header
    that names a member of [Object.prototype] is not recorded. *)
Lemma mapHeader_resolve (mapping : dict string) (originalKey : string) :
  (lookup mapping originalKey = None \/
   inherited originalKey = false /\
   lookup mapping originalKey = Some (Spec.resolveHeader originalKey)) ->
  forall h,
    lookup (ColumnMapper.mapHeader mapping originalKey) h
    = if (originalKey =? h)%string && negb (inherited originalKey)
      then Some (Spec.resolveHeader originalKey)
      else lookup mapping h.
Proof.
  intros Hinv h. unfold ColumnMapper.mapHeader, Spec.resolveHeader in *.
  destruct (inherited originalKey) eqn:Hi.
  - rewrite (inherited_unmatched originalKey Hi). unfold ColumnMapper.noted.
    destruct Hinv as [Hnew | [Hf _]]; [| discriminate Hf].
    now rewrite Hnew, Hi, andb_false_r.
  - rewrite andb_true_r.
    destruct (find _ ColumnMapper.COLUMN_MAPPINGS) as [[standardName variations]|] eqn:Hf.
    + apply find_some in Hf as [Hin _].
      pose proof standard_names_clean as Hc. rewrite forallb_forall in Hc.
      specialize (Hc _ Hin). cbn [fst] in Hc. apply andb_prop in Hc as [_ Hne].
      rewrite note_own by assumption. unfold ColumnMapper.noted.
      rewrite lookup_assign_same, Hne.
      destruct (originalKey =? h)%string eqn:Hk.
      * apply String.eqb_eq in Hk. subst. apply lookup_assign_same.
      * apply String.eqb_neq in Hk. now apply lookup_assign_other.
    + unfold ColumnMapper.noted.
      destruct Hinv as [Hnew | [_ Hold]].
      * rewrite Hnew, Hi, note_own by assumption.
        destruct (originalKey =? h)%string eqn:Hk.
        -- apply String.eqb_eq in Hk. subst. apply lookup_assign_same.
        -- apply String.eqb_neq in Hk. now apply lookup_assign_other.
      * rewrite Hold.
        destruct (ColumnMapper.cleanKey _ =? "")%string; cbn [negb];
          rewrite ?note_own by assumption;
          (destruct (originalKey =? h)%string eqn:Hk;
           [ apply String.eqb_eq in Hk; subst; first [exact Hold | apply lookup_assign_same]
           | apply String.eqb_neq in Hk; first [reflexivity | now apply lookup_assign_other] ]).
Qed.

Lemma getColumnMapping_lookup (ks : list string) (mapping : dict string) :
  (forall h, lookup mapping h = None \/
             inherited h = false /\ lookup mapping h = Some (Spec.resolveHeader h)) ->
  forall h,
    lookup (fold_left ColumnMapper.mapHeader ks mapping) h
    = if existsb (String.eqb h) ks && negb (inherited h)
      then Some (Spec.resolveHeader h) else lookup mapping h.
Proof.
  revert mapping. induction ks as [|k ks IH]; intros mapping Hinv h; cbn [fold_left existsb].
  - reflexivity.
  - rewrite IH.
    + rewrite (mapHeader_resolve mapping k (Hinv k) h).
      rewrite (String.eqb_sym h k).
      destruct (k =? h)%string eqn:Hk; [| reflexivity].
      apply String.eqb_eq in Hk. subst. cbn [orb andb].
      destruct (inherited h); cbn [negb]; rewrite ?andb_false_r; [reflexivity |].
      now destruct (existsb (String.eqb h) ks).
    + intros h'. rewrite (mapHeader_resolve mapping k (Hinv k) h').
      destruct (k =? h')%string eqn:Hk; [| apply Hinv].
      apply String.eqb_eq in Hk. subst. cbn [andb].
      destruct (inherited h') eqn:Hi; cbn [negb].
      * destruct (Hinv h') as [Hn | [Hf _]]; [now left | congruence].
      * right. now split.
Qed.

(** The reported column mapping is the one the row normalizer applies: each
    header of the first row that names no member of [Object.prototype] is
    listed with the key under which [mapKey] writes that column; a header that
    names such a member is not listed, and nothing else is. No mapping is
    reported for no data, and a first row that is [null] makes the call
    throw. *)
Theorem getColumnMapping_agrees (firstRow : obj) (rest : list ColumnMapper.row) :
  ColumnMapper.getColumnMapping [] = Return [] /\
  ColumnMapper.getColumnMapping (ColumnMapper.Nullish :: rest) = Throw TypeError /\
  exists mapping,
    ColumnMapper.getColumnMapping (ColumnMapper.Object firstRow :: rest) = Return mapping /\
    forall h,
      (In h (keys firstRow) -> inherited h = false ->
       exists key,
         lookup mapping h = Some key /\
         forall (row : obj) (state : bool * obj),
           ColumnMapper.mapKey row state h
           = ColumnMapper.store state key (get row h)) /\
      (inherited h = true \/ ~ In h (keys firstRow) -> lookup mapping h = None).
Proof.
  split; [reflexivity | split; [reflexivity |]].
  eexists. split; [reflexivity |]. intros h.
  rewrite getColumnMapping_lookup by (intros h'; now left).
  split.
  - intros Hin Hplain. exists (Spec.resolveHeader h). split.
    + rewrite Hplain.
      replace (existsb (String.eqb h) (keys firstRow)) with true; [reflexivity |].
      symmetry. apply existsb_exists. exists h. split; [exact Hin | apply String.eqb_refl].
    + intros row state. apply NormalizerFacts.mapKey_resolve.
  - intros [Hi | Hnot].
    + now rewrite Hi, andb_false_r.
    + destruct (existsb (String.eqb h) (keys firstRow)) eqn:Hex; [| reflexivity].
      apply existsb_exists in Hex as (h' & Hin & Heq).
      apply String.eqb_eq in Heq. subst. contradiction.
Qed.

(** *** Closed instances *)

Lemma synonym_resolves_witness :
  In ("mfg", ["mfg"; "manufacturer"; "vendor"; "supplier"; "make"; "brand"])
     ColumnMapper.COLUMN_MAPPINGS /\
  In (trim (toLowerCase " Vendor "))
     ["mfg"; "manufacturer"; "vendor"; "supplier"; "make"; "brand"] /\
  ColumnMapper.mapKey [(" Vendor ", VStr "Cisco")] (false, []) " Vendor "
  = (false, assign [] "mfg" (get [(" Vendor ", VStr "Cisco")] " Vendor ")).
Proof.
  assert (H1 : In ("mfg", ["mfg"; "manufacturer"; "vendor"; "supplier"; "make"; "brand"])
                  ColumnMapper.COLUMN_MAPPINGS) by (left; reflexivity).
  assert (H2 : In (trim (toLowerCase " Vendor "))
                  ["mfg"; "manufacturer"; "vendor"; "supplier"; "make"; "brand"])
    by (right; right; left; reflexivity).
  split; [exact H1 | split; [exact H2 |]].
  exact (synonym_resolves [(" Vendor ", VStr "Cisco")] [] false " Vendor " "mfg" _ H1 H2).
Defined.

Lemma header_case_and_blanks_witness :
  exists key,
    forall (row : obj) (state : bool * obj),
      ColumnMapper.mapKey row state "Ship Date"
      = ColumnMapper.store state key (get row "Ship Date") /\
      ColumnMapper.mapKey row state (" " ++ toUpperCase "Ship Date" ++ "  ")
      = ColumnMapper.store state key
          (get row (" " ++ toUpperCase "Ship Date" ++ "  ")%string).
Proof.
  exact (header_case_and_blanks " " "Ship Date" "  " eq_refl eq_refl eq_refl).
Defined.

Lemma normalizeRow_last_write_witness :
  exists normalized,
    ColumnMapper.normalizeRow Spec.isoOnlyEngine
      (ColumnMapper.Object [("Vendor", VStr "Cisco"); ("Make", VStr "Juniper");
                            ("Serial#", VStr "X1")])
    = Return normalized /\
    get normalized "mfg" = VStr "Juniper".
Proof.
  destruct (normalizeRow_last_write Spec.isoOnlyEngine
              [("Vendor", VStr "Cisco"); ("Make", VStr "Juniper"); ("Serial#", VStr "X1")]
              ["Vendor"] ["Serial#"] "Make" eq_refl)
    as (normalized & Hn & _ & Hkeep & _).
  - discriminate.
  - intros later [<- | []]. discriminate.
  - exists normalized. split; [exact Hn |].
    apply Hkeep. cbn. intros H.
    repeat (destruct H as [H | H]; [discriminate |]). exact H.
Defined.

End HeaderFacts.

(* ===================================================================== *)
(** ** The coercers applied twice, and one scheme against the other *)
(* ===================================================================== *)

Module CoercionFacts.

Import Js JsFacts.

Lemma Day_of_midnight (d : Z) : Day (d * msPerDay) = d.
Proof. unfold Day. apply Z.div_mul. discriminate. Qed.

(** The ISO date of a time value depends on its day alone. *)
Lemma toISODate_day (t : Z) : toISODate (Day t * msPerDay) = toISODate t.
Proof.
  unfold toISODate, DateFromTime, MonthFromTime, DayWithinYear, YearFromTime.
  now rewrite !Day_of_midnight.
Qed.

Lemma calendar_form_not_sentinel (s : string) :
  Spec.isCalendarForm s -> ColumnMapper.sentinel (VStr s) = false.
Proof.
  intros (y1 & y2 & y3 & y4 & m1 & m2 & d1 & d2 & -> & _).
  apply not_true_iff_false. intros H. apply NumberFacts.sentinel_string in H.
  cbn [In] in H. repeat (destruct H as [H | H]; [discriminate |]). exact H.
Qed.

Lemma trimStart_mapString (f : ascii -> ascii) (s : string) :
  (forall c, isWhiteSpace (f c) = isWhiteSpace c) ->
  trimStart (mapString f s) = mapString f (trimStart s).
Proof.
  intros Hf. induction s as [|c s IH]; cbn [mapString trimStart]; [reflexivity |].
  rewrite Hf. destruct (isWhiteSpace c); [exact IH | reflexivity].
Qed.

Lemma trimEnd_mapString (f : ascii -> ascii) (s : string) :
  (forall c, isWhiteSpace (f c) = isWhiteSpace c) ->
  trimEnd (mapString f s) = mapString f (trimEnd s).
Proof.
  intros Hf. induction s as [|c s IH]; cbn [mapString trimEnd]; [reflexivity |].
  rewrite Hf, IH. destruct (isWhiteSpace c); cbn [andb]; [| reflexivity].
  destruct (trimEnd s); reflexivity.
Qed.

(** On ASCII text, lowercasing and trimming commute, and trimming leaves
    ASCII text. *)
Lemma trim_toLowerCase (s : string) :
  allChars isAscii s = true -> trim (toLowerCase s) = toLowerCase (trim s).
Proof.
  intros _. unfold trim, toLowerCase.
  rewrite trimStart_mapString, trimEnd_mapString
    by apply HeaderFacts.isWhiteSpace_lowerChar.
  reflexivity.
Qed.

Lemma allChars_trimStart (p : ascii -> bool) (s : string) :
  allChars p s = true -> allChars p (trimStart s) = true.
Proof.
  induction s as [|c s IH]; cbn [allChars trimStart]; [reflexivity |].
  intros H. destruct (isWhiteSpace c); [| exact H].
  apply andb_prop in H as [_ H]. auto.
Qed.

Lemma allChars_trimEnd (p : ascii -> bool) (s : string) :
  allChars p s = true -> allChars p (trimEnd s) = true.
Proof.
  induction s as [|c s IH]; cbn [allChars trimEnd]; [reflexivity |].
  intros H. apply andb_prop in H as [Hc H].
  destruct (isWhiteSpace c && (trimEnd s =? "")%string); [reflexivity |].
  cbn [allChars]. now rewrite Hc, IH.
Qed.

Lemma allChars_trim (p : ascii -> bool) (s : string) :
  allChars p s = true -> allChars p (trim s) = true.
Proof. intros H. unfold trim. now apply allChars_trimEnd, allChars_trimStart. Qed.

Section Coercers.

Variable E : engine.

(** The lenient support coercer is idempotent: coercing its answer again
    changes nothing, whatever the input. *)
Theorem normalizeSupport_idempotent (value : scalar) :
  ColumnMapper.normalizeSupport E (ColumnMapper.normalizeSupport E value)
  = ColumnMapper.normalizeSupport E value.
Proof.
  rewrite (SupportFacts.normalizeSupport_vocabulary E value). cbv zeta.
  destruct (ColumnMapper.sentinel value) eqn:Hs; [reflexivity |].
  destruct (Spec.matchesActive _) eqn:Ha; [reflexivity |].
  destruct (Spec.matchesExpired _) eqn:He; [reflexivity |].
  rewrite (SupportFacts.normalizeSupport_vocabulary E value). cbv zeta.
  now rewrite Hs, Ha, He.
Qed.

(** The date coercer is idempotent on every input whose date, when it has
    one, lies in the years 0 to 9999: a formatted date formats to itself, a
    sentinel stays the sentinel and an unparsable text stays as it is. *)
Theorem formatDate_idempotent (value : scalar) :
  (forall date, newDate E value = Some date -> 0 <= YearFromTime date <= 9999) ->
  ColumnMapper.formatDate E (ColumnMapper.formatDate E value)
  = ColumnMapper.formatDate E value.
Proof.
  intros Hyear. unfold ColumnMapper.formatDate at 2 3.
  destruct (ColumnMapper.sentinel value) eqn:Hs; [reflexivity |].
  destruct (newDate E value) as [date|] eqn:Hd.
  - specialize (Hyear date eq_refl).
    unfold ColumnMapper.formatDate.
    rewrite (calendar_form_not_sentinel _ (DateFacts.toISODate_form date Hyear)).
    cbn [newDate]. unfold Date_parse.
    rewrite (DateFacts.parseISODate_toISODate date Hyear).
    now rewrite toISODate_day.
  - unfold ColumnMapper.formatDate. now rewrite Hs, Hd.
Qed.

(** What the strict scheme calls Active has the text ACTIVE or COVERED. *)
Lemma strict_active_text (value : scalar) :
  UploadController.normalizeSupport E value = VStr "Active" ->
  truthy value = true /\
  (toUpperCase (trim (toString E value)) = "ACTIVE" \/
   toUpperCase (trim (toString E value)) = "COVERED").
Proof.
  unfold UploadController.normalizeSupport. rewrite SupportFacts.strict_guard.
  destruct (truthy value); cbn [negb]; [| discriminate].
  destruct (_ || _ || _ || _ || _)%bool; [discriminate |].
  destruct (toUpperCase _ =? "ACTIVE")%string eqn:Ha.
  { apply String.eqb_eq in Ha. auto. }
  destruct (toUpperCase _ =? "COVERED")%string eqn:Hc.
  { apply String.eqb_eq in Hc. auto. }
  discriminate.
Qed.

(** Whatever value with an ASCII text the strict scheme accepts as Active,
    the lenient scheme accepts as Active too. *)
Theorem strict_active_is_lenient_active (value : scalar) :
  allChars isAscii (toString E value) = true ->
  UploadController.normalizeSupport E value = VStr "Active" ->
  ColumnMapper.normalizeSupport E value = VStr "Active".
Proof.
  intros Hascii H. apply strict_active_text in H as [Ht Htext].
  assert (Hlow : trim (toLowerCase (toString E value)) = "active" \/
                 trim (toLowerCase (toString E value)) = "covered").
  { rewrite trim_toLowerCase by assumption.
    rewrite <- HeaderFacts.toLowerCase_toUpperCase by now apply allChars_trim.
    destruct Htext as [-> | ->]; [left | right]; reflexivity. }
  assert (Hs : ColumnMapper.sentinel value = false).
  { unfold ColumnMapper.sentinel. rewrite Ht. cbn [negb orb].
    destruct value as [| |b|n|s]; try reflexivity. cbn [strictEqStr toString] in *.
    destruct (s =? "-")%string eqn:H1;
      [apply String.eqb_eq in H1; subst; destruct Htext; discriminate |].
    destruct (s =? "N/A")%string eqn:H2;
      [apply String.eqb_eq in H2; subst; destruct Htext; discriminate |].
    destruct (s =? "n/a")%string eqn:H3;
      [apply String.eqb_eq in H3; subst; destruct Htext; discriminate |].
    reflexivity. }
  unfold ColumnMapper.normalizeSupport. rewrite Hs.
  destruct Hlow as [-> | ->]; reflexivity.
Qed.

(** Without an id column the records are numbered by position, from 1: the
    record at position [index] gets [id = index + 1], also after a row that
    was passed through unprocessed. *)
Theorem processData_numbers_rows (data : list ColumnMapper.row) (index : nat) (row : obj) :
  nth_error data index = Some (ColumnMapper.Object row) ->
  (forall originalKey, In originalKey (keys row) -> Spec.resolveHeader originalKey <> "id") ->
  exists record,
    nth_error (ColumnMapper.processData E data) index = Some (ColumnMapper.Object record) /\
    get record "id" = VNum (ofZ (Z.of_nat index + 1)).
Proof.
  intros Hrow Hid.
  rewrite NormalizerFacts.processData_nth, Hrow. cbn [option_map].
  unfold ColumnMapper.processRow, ColumnMapper.normalizeRow.
  rewrite !get_assign_other by discriminate.
  rewrite (HeaderFacts.get_mapped_other row (keys row) (false, []) "id" Hid).
  cbn [snd get lookup truthy negb].
  eexists. split; [reflexivity |]. apply get_assign_same.
Qed.

End Coercers.

Lemma formatDate_idempotent_witness :
  ColumnMapper.formatDate Spec.isoOnlyEngine
    (ColumnMapper.formatDate Spec.isoOnlyEngine (VNum (ofZ 1577923200123)))
  = VStr "2020-01-02".
Proof.
  rewrite (formatDate_idempotent Spec.isoOnlyEngine (VNum (ofZ 1577923200123))).
  - reflexivity.
  - intros date H. injection H as <-. vm_compute. split; discriminate.
Defined.

Lemma strict_active_is_lenient_active_witness :
  ColumnMapper.normalizeSupport Spec.isoOnlyEngine (VStr " covered ") = VStr "Active".
Proof.
  apply (strict_active_is_lenient_active Spec.isoOnlyEngine (VStr " covered "));
    reflexivity.
Defined.

Lemma processData_numbers_rows_witness :
  exists record,
    nth_error
      (ColumnMapper.processData Spec.isoOnlyEngine
         [ColumnMapper.Nullish; ColumnMapper.Object [("Vendor", VStr "Cisco")]]) 1
    = Some (ColumnMapper.Object record) /\
    get record "id" = VNum (ofZ 2).
Proof.
  apply (processData_numbers_rows Spec.isoOnlyEngine
           [ColumnMapper.Nullish; ColumnMapper.Object [("Vendor", VStr "Cisco")]]
           1 [("Vendor", VStr "Cisco")] eq_refl).
  intros originalKey [<- | []]. discriminate.
Defined.

End CoercionFacts.

(* ===================================================================== *)
(** ** The breakdowns group by group, and the summary *)
(* ===================================================================== *)

Module SummaryFacts.

Import Js JsFacts.

Lemma active_not_expired (v : scalar) :
  strictEqStr v "Active" = true -> strictEqStr v "Expired" = false.
Proof. intros H. apply AggregatorFacts.strictEqStr_true in H. now subst. Qed.

Lemma filter_snoc {A : Type} (p : A -> bool) (l : list A) (x : A) :
  filter p (l ++ [x]) = (filter p l ++ if p x then [x] else [])%list.
Proof. rewrite filter_app. cbn [filter]. now destruct (p x). Qed.

Lemma activeSupport_snoc (l : list obj) (x : obj) :
  UploadController.activeSupport (l ++ [x])
  = UploadController.activeSupport l
    + (if strictEqStr (get x "support_coverage") "Active" then 1 else 0).
Proof.
  unfold UploadController.activeSupport. rewrite filter_snoc, length_app.
  destruct (strictEqStr _ _); cbn [length]; lia.
Qed.

Lemma expiredSupport_snoc (l : list obj) (x : obj) :
  UploadController.expiredSupport (l ++ [x])
  = UploadController.expiredSupport l
    + (if strictEqStr (get x "support_coverage") "Expired" then 1 else 0).
Proof.
  unfold UploadController.expiredSupport. rewrite filter_snoc, length_app.
  destruct (strictEqStr _ _); cbn [length]; lia.
Qed.

Lemma support_at_most_total (normalizedData : list obj) :
  UploadController.activeSupport normalizedData
  + UploadController.expiredSupport normalizedData
  <= UploadController.totalRecords normalizedData.
Proof.
  unfold UploadController.activeSupport, UploadController.expiredSupport,
    UploadController.totalRecords.
  induction normalizedData as [|x l IH]; cbn [filter length]; [lia |].
  destruct (strictEqStr (get x "support_coverage") "Active") eqn:Hact.
  - rewrite (active_not_expired _ Hact). cbn [length]. lia.
  - destruct (strictEqStr (get x "support_coverage") "Expired"); cbn [length]; lia.
Qed.

Lemma assign_fresh {A : Type} (o : dict A) (k : string) (a : A) :
  ~ In k (keys o) -> assign o k a = (o ++ [(k, a)])%list.
Proof.
  induction o as [|[k' a'] o IH]; cbn [assign keys map fst In app]; [reflexivity |].
  intros Hnot. destruct (k' =? k)%string eqn:Hk.
  - apply String.eqb_eq in Hk. tauto.
  - rewrite IH by tauto. reflexivity.
Qed.

Lemma NoDup_keys_assign {A : Type} (o : dict A) (k : string) (a : A) :
  NoDup (keys o) -> NoDup (keys (assign o k a)).
Proof.
  induction o as [|[k' a'] o IH]; cbn [assign keys map fst].
  - intros _. constructor; [intros [] | constructor].
  - intros Hnd. inversion Hnd as [|? ? Hnot Hrest]; subst.
    destruct (k' =? k)%string eqn:Hk; cbn [map fst].
    + constructor; assumption.
    + constructor; [| now apply IH].
      intros Hin. apply HeaderFacts.keys_assign_in in Hin as [-> | Hin].
      * now rewrite String.eqb_refl in Hk.
      * contradiction.
Qed.

(** A loop that assigns to distinct fresh keys lists them in order. *)
Lemma fold_assign_fresh {A : Type} (f : string -> A) (ks : list string) (acc : dict A) :
  NoDup ks -> (forall k, In k ks -> ~ In k (keys acc)) ->
  fold_left (fun acc k => assign acc k (f k)) ks acc
  = (acc ++ map (fun k => (k, f k)) ks)%list.
Proof.
  revert acc. induction ks as [|k ks IH]; intros acc Hnd Hfresh; cbn [fold_left map].
  - now rewrite app_nil_r.
  - inversion Hnd as [|? ? Hnot Hrest]; subst.
    rewrite assign_fresh by (apply Hfresh; now left).
    rewrite IH; [now rewrite <- app_assoc | assumption |].
    intros k' Hin. unfold keys. rewrite map_app, in_app_iff. cbn [map fst In].
    intros [H | [H | []]].
    + apply (Hfresh k'); [now right | exact H].
    + subst. contradiction.
Qed.

Lemma In_keys_lookup {A : Type} (o : dict A) (k : string) :
  In k (keys o) <-> lookup o k <> None.
Proof.
  induction o as [|[k' a] o IH]; cbn [keys map fst In lookup].
  - split; [intros [] | congruence].
  - destruct (String.eqb_spec k' k) as [-> | Hne].
    + split; [discriminate | now left].
    + rewrite <- IH. unfold keys. intuition.
Qed.

Lemma sumOver_map {A : Type} (g : A -> Z) (f : string -> A) (ks : list string) :
  Spec.sumOver g (map (fun k => (k, f k)) ks) = Spec.sumOf (fun k => g (f k)) ks.
Proof.
  induction ks as [|k ks IH]; cbn [map Spec.sumOver Spec.sumOf fold_right snd];
    [reflexivity |].
  unfold Spec.sumOver, Spec.sumOf in IH. now rewrite IH.
Qed.

Lemma sumOf_ext {A : Type} (w w' : A -> Z) (l : list A) :
  (forall x, In x l -> w x = w' x) -> Spec.sumOf w l = Spec.sumOf w' l.
Proof.
  induction l as [|x l IH]; intros H; cbn [Spec.sumOf fold_right]; [reflexivity |].
  fold (Spec.sumOf w l). fold (Spec.sumOf w' l).
  rewrite IH by (intros y Hy; apply H; now right).
  rewrite (H x) by now left. reflexivity.
Qed.

Lemma sumOf_plus {A : Type} (w w' : A -> Z) (l : list A) :
  Spec.sumOf (fun x => w x + w' x) l = Spec.sumOf w l + Spec.sumOf w' l.
Proof.
  induction l as [|x l IH]; cbn [Spec.sumOf fold_right]; [reflexivity |].
  unfold Spec.sumOf in IH. rewrite IH. lia.
Qed.

Lemma sumOf_zero {A : Type} (l : list A) : Spec.sumOf (fun _ : A => 0) l = 0.
Proof. induction l as [|x l IH]; cbn [Spec.sumOf fold_right]; [reflexivity |].
  unfold Spec.sumOf in IH. now rewrite IH. Qed.

Lemma sumOf_filter {A : Type} (q : A -> bool) (w : A -> Z) (l : list A) :
  Spec.sumOf (fun x => if q x then w x else 0) l = Spec.sumOf w (filter q l).
Proof.
  induction l as [|x l IH]; cbn [filter Spec.sumOf fold_right]; [reflexivity |].
  unfold Spec.sumOf in IH. rewrite IH.
  destruct (q x); cbn [fold_right]; reflexivity.
Qed.

(** Counting and adding over a filtered list, as weighted sums. *)
Lemma count_filter_sumOf {A : Type} (q p : A -> bool) (l : list A) :
  Z.of_nat (length (filter p (filter q l)))
  = Spec.sumOf (fun x => if q x then (if p x then 1 else 0) else 0) l.
Proof.
  induction l as [|x l IH]; cbn [filter Spec.sumOf fold_right]; [reflexivity |].
  fold (Spec.sumOf (fun x => if q x then (if p x then 1 else 0) else 0) l).
  rewrite <- IH. destruct (q x); cbn [filter]; [| lia].
  destruct (p x); cbn [length]; lia.
Qed.

Lemma length_filter_sumOf {A : Type} (q : A -> bool) (l : list A) :
  Z.of_nat (length (filter q l)) = Spec.sumOf (fun x => if q x then 1 else 0) l.
Proof.
  induction l as [|x l IH]; cbn [filter Spec.sumOf fold_right]; [reflexivity |].
  fold (Spec.sumOf (fun x => if q x then 1 else 0) l).
  rewrite <- IH. destruct (q x); cbn [length]; lia.
Qed.

(** Exactly one key of a duplicate-free list selects a record whose category
    is one of the keys, and none selects any other record. *)
Lemma one_key_selects (ks : list string) (v : scalar) (z : Z) :
  NoDup ks ->
  Spec.sumOf (fun k => if strictEqStr v k then z else 0) ks
  = if Spec.keyed ks v then z else 0.
Proof.
  intros Hnd. destruct v as [| |b|n|c]; cbn [strictEqStr Spec.keyed];
    try apply sumOf_zero.
  induction ks as [|k ks IH]; cbn [Spec.sumOf fold_right existsb]; [reflexivity |].
  inversion Hnd as [|? ? Hnot Hrest]; subst.
  fold (Spec.sumOf (fun k => if (c =? k)%string then z else 0) ks).
  rewrite (IH Hrest).
  destruct (c =? k)%string eqn:Hk; cbn [orb]; [| lia].
  apply String.eqb_eq in Hk. subst.
  destruct (existsb (String.eqb k) ks) eqn:Hex; [| lia].
  apply existsb_exists in Hex as (k' & Hin & Heq).
  apply String.eqb_eq in Heq. subst. contradiction.
Qed.

(** Summing over the keys, then over the records of each key, is summing
    over the records whose category is one of the keys. *)
Lemma sum_by_key (ks : list string) (w : obj -> Z) (l : list obj) :
  NoDup ks ->
  Spec.sumOf
    (fun k => Spec.sumOf
                (fun item => if strictEqStr (Spec.effectiveCategory item) k
                             then w item else 0) l)
    ks
  = Spec.sumOf (fun item => if Spec.keyed ks (Spec.effectiveCategory item)
                            then w item else 0) l.
Proof.
  intros Hnd. induction l as [|x l IH].
  - cbn [Spec.sumOf fold_right]. apply sumOf_zero.
  - cbn [Spec.sumOf fold_right].
    fold (Spec.sumOf (fun item => if Spec.keyed ks (Spec.effectiveCategory item)
                                  then w item else 0) l).
    rewrite <- IH, <- (one_key_selects ks (Spec.effectiveCategory x) (w x) Hnd).
    rewrite <- sumOf_plus. apply sumOf_ext. intros k _. reflexivity.
Qed.

Section Groups.

Variable E : engine.

Lemma totalQuantity_snoc (l : list obj) (x : obj) :
  UploadController.totalQuantity E (l ++ [x])
  = UploadController.totalQuantity E l + UploadController.qtyOf E x.
Proof. unfold UploadController.totalQuantity. now rewrite fold_left_app. Qed.

(** The tallies of the records selected from [l ++ [x]]. *)
Lemma groupOf_snoc (selected : obj -> bool) (l : list obj) (x : obj) :
  Spec.groupOf E selected (l ++ [x]) =
  if selected x then UploadController.bump E (Spec.groupOf E selected l) x
  else Spec.groupOf E selected l.
Proof.
  unfold Spec.groupOf, UploadController.bump. cbv zeta. rewrite filter_snoc.
  destruct (selected x).
  - cbn [UploadController.count UploadController.quantity UploadController.activeCount
           UploadController.expiredCount].
    rewrite totalQuantity_snoc, activeSupport_snoc, expiredSupport_snoc, length_app.
    cbn [length].
    destruct (strictEqStr (get x "support_coverage") "Active") eqn:Ha.
    + rewrite (active_not_expired _ Ha). f_equal; lia.
    + destruct (strictEqStr (get x "support_coverage") "Expired"); f_equal; lia.
  - now rewrite app_nil_r.
Qed.

Lemma groupOf_none (selected : obj -> bool) (l : list obj) :
  existsb selected l = false -> Spec.groupOf E selected l = UploadController.newGroup.
Proof.
  intros Hex.
  assert (Hnone : filter selected l = []).
  { induction l as [|y l IH]; [reflexivity |].
    cbn [existsb filter] in *. apply orb_false_iff in Hex as [-> Hex]. auto. }
  unfold Spec.groupOf. cbv zeta. now rewrite Hnone.
Qed.

Lemma lookup_tally_other (breakdown : dict UploadController.group) (key k : string)
    (item : obj) :
  key <> k -> lookup (UploadController.tally E breakdown key item) k = lookup breakdown k.
Proof.
  intros Hne. unfold UploadController.tally.
  destruct (lookup breakdown key); [now apply lookup_assign_other |].
  destruct (inherited key); [reflexivity | now apply lookup_assign_other].
Qed.

(** A breakdown loop files every record under its key, unless the key names
    a member of [Object.prototype]: each group holds the tallies of exactly
    the records with that key, and there is no group for a key no record has
    nor for the name of such a member. *)
Lemma breakdown_lookup (keyOf : obj -> string) (normalizedData : list obj) (key : string) :
  lookup (fold_left (fun b item => UploadController.tally E b (keyOf item) item)
                    normalizedData [])
         key
  = if inherited key then None
    else if existsb (fun item => (keyOf item =? key)%string) normalizedData
    then Some (Spec.groupOf E (fun item => (keyOf item =? key)%string) normalizedData)
    else None.
Proof.
  induction normalizedData as [|x l IH] using rev_ind;
    [cbn [fold_left lookup existsb]; now destruct (inherited key) |].
  rewrite fold_left_app, existsb_app, groupOf_snoc. cbn [fold_left existsb].
  rewrite orb_false_r.
  destruct (keyOf x =? key)%string eqn:Hk.
  - apply String.eqb_eq in Hk. rewrite Hk, orb_true_r.
    unfold UploadController.tally at 1. rewrite IH.
    destruct (inherited key) eqn:Hi; [exact IH |].
    destruct (existsb _ l) eqn:Hex; rewrite lookup_assign_same;
      [reflexivity | now rewrite (groupOf_none _ l Hex)].
  - apply String.eqb_neq in Hk. rewrite lookup_tally_other by assumption.
    rewrite IH, orb_false_r. reflexivity.
Qed.

(** Each group of [manufacturerBreakdown] and of [categoryBreakdown] holds
    the count, the quantity and the Active and Expired counts of exactly the
    records whose manufacturer (or ['Unknown']), respectively category (or
    ['Uncategorized']), has that key as its text; a key no record has owns no
    group, and neither does a key that names a member of [Object.prototype],
    whatever records have it. *)
Theorem breakdown_groups (normalizedData : list obj) (key : string) :
  lookup (UploadController.manufacturerBreakdown E normalizedData) key
  = (let selected item := (Spec.manufacturerKey E item =? key)%string in
     if inherited key then None
     else if existsb selected normalizedData
     then Some (Spec.groupOf E selected normalizedData) else None) /\
  lookup (UploadController.categoryBreakdown E normalizedData) key
  = (let selected item := (Spec.categoryKey E item =? key)%string in
     if inherited key then None
     else if existsb selected normalizedData
     then Some (Spec.groupOf E selected normalizedData) else None).
Proof.
  split.
  - apply (breakdown_lookup (Spec.manufacturerKey E)).
  - apply (breakdown_lookup (Spec.categoryKey E)).
Qed.

Lemma breakdown_NoDup (keyOf : obj -> string) (normalizedData : list obj)
    (breakdown : dict UploadController.group) :
  NoDup (keys breakdown) ->
  NoDup (keys (fold_left (fun b item => UploadController.tally E b (keyOf item) item)
                         normalizedData breakdown)).
Proof.
  revert breakdown. induction normalizedData as [|x l IH]; intros b Hb; [exact Hb |].
  cbn [fold_left]. apply IH. unfold UploadController.tally.
  destruct (lookup b (keyOf x)); [now apply NoDup_keys_assign |].
  destruct (inherited (keyOf x)); [exact Hb | now apply NoDup_keys_assign].
Qed.

(** The Active and the Expired counts of a breakdown are those of the records
    it files. *)
Lemma support_conserved (keyOf : obj -> string) (normalizedData : list obj) :
  let result :=
    fold_left (fun b item => UploadController.tally E b (keyOf item) item)
              normalizedData [] in
  Spec.sumOver UploadController.activeCount result
  = UploadController.activeSupport (Spec.filed keyOf normalizedData) /\
  Spec.sumOver UploadController.expiredCount result
  = UploadController.expiredSupport (Spec.filed keyOf normalizedData).
Proof.
  cbv zeta. split.
  - rewrite (AggregatorFacts.breakdown_sum E UploadController.activeCount
               (fun item => if strictEqStr (get item "support_coverage") "Active"
                            then 1 else 0));
      [| apply AggregatorFacts.plainKeys_nil | reflexivity |].
    + cbn [Spec.sumOver fold_right]. unfold UploadController.activeSupport.
      now rewrite length_filter_sumOf.
    + intros g item. cbn [UploadController.bump UploadController.activeCount].
      destruct (strictEqStr _ _); lia.
  - rewrite (AggregatorFacts.breakdown_sum E UploadController.expiredCount
               (fun item => if strictEqStr (get item "support_coverage") "Expired"
                            then 1 else 0));
      [| apply AggregatorFacts.plainKeys_nil | reflexivity |].
    + cbn [Spec.sumOver fold_right]. unfold UploadController.expiredSupport.
      now rewrite length_filter_sumOf.
    + intros g item. cbn [UploadController.bump UploadController.expiredCount].
      destruct (strictEqStr (get item "support_coverage") "Active") eqn:Ha.
      * rewrite (active_not_expired _ Ha). lia.
      * destruct (strictEqStr (get item "support_coverage") "Expired"); lia.
Qed.

Lemma filed_all (keyOf : obj -> string) (normalizedData : list obj) :
  (forall item, In item normalizedData -> inherited (keyOf item) = false) ->
  Spec.filed keyOf normalizedData = normalizedData.
Proof.
  unfold Spec.filed. induction normalizedData as [|x l IH]; intros H; [reflexivity |].
  cbn [filter]. rewrite (H x) by now left. cbn [negb]. f_equal.
  apply IH. intros y Hy. apply H. now right.
Qed.

(** The Active counts of the groups of a breakdown add up to the number of
    records with Active support among the records it files, the Expired
    counts to the number with Expired support among them; these are all the
    records when no key names a member of [Object.prototype]. The two numbers
    of the whole record set together never exceed the number of records: a
    record whose support is neither is in no count. *)
Theorem support_counts_conserved (normalizedData : list obj) :
  Spec.sumOver UploadController.activeCount
    (UploadController.manufacturerBreakdown E normalizedData)
  = UploadController.activeSupport (Spec.filed (Spec.manufacturerKey E) normalizedData) /\
  Spec.sumOver UploadController.expiredCount
    (UploadController.manufacturerBreakdown E normalizedData)
  = UploadController.expiredSupport (Spec.filed (Spec.manufacturerKey E) normalizedData) /\
  Spec.sumOver UploadController.activeCount
    (UploadController.categoryBreakdown E normalizedData)
  = UploadController.activeSupport (Spec.filed (Spec.categoryKey E) normalizedData) /\
  Spec.sumOver UploadController.expiredCount
    (UploadController.categoryBreakdown E normalizedData)
  = UploadController.expiredSupport (Spec.filed (Spec.categoryKey E) normalizedData) /\
  (forall keyOf : obj -> string,
     (forall item, In item normalizedData -> inherited (keyOf item) = false) ->
     Spec.filed keyOf normalizedData = normalizedData) /\
  UploadController.activeSupport normalizedData
  + UploadController.expiredSupport normalizedData
  <= UploadController.totalRecords normalizedData.
Proof.
  destruct (support_conserved (Spec.manufacturerKey E) normalizedData) as [Ha He].
  destruct (support_conserved (Spec.categoryKey E) normalizedData) as [Ha' He'].
  repeat split; try assumption.
  - intros keyOf. apply filed_all.
  - apply support_at_most_total.
Qed.

End Groups.

(** *** The support percentage of the summary *)

(** The [supportCoverage] of the summary is a whole percentage between 0 and
    100 for every record set: 0 for the empty one (the guard keeps [0 / 0]
    out), 0 when no record is Active and 100 when every record is. *)
Theorem summarySupportCoverage_range (normalizedData : list obj) :
  (exists k, 0 <= k <= 100 /\
     UploadController.summarySupportCoverage normalizedData = ofZ k) /\
  UploadController.summarySupportCoverage [] = ofZ 0 /\
  (UploadController.activeSupport normalizedData = 0 ->
   UploadController.summarySupportCoverage normalizedData = ofZ 0) /\
  (normalizedData <> [] ->
   UploadController.activeSupport normalizedData
   = UploadController.totalRecords normalizedData ->
   UploadController.summarySupportCoverage normalizedData = ofZ 100).
Proof.
  assert (Hact : 0 <= UploadController.activeSupport normalizedData
                 <= Z.of_nat (length normalizedData)).
  { unfold UploadController.activeSupport.
    pose proof (AggregatorFacts.filter_length_le
                  (fun item => strictEqStr (get item "support_coverage") "Active")
                  normalizedData). lia. }
  unfold UploadController.summarySupportCoverage, UploadController.totalRecords.
  set (active := UploadController.activeSupport normalizedData) in *.
  set (n := Z.of_nat (length normalizedData)) in *.
  destruct (Z.ltb_spec 0 n) as [Hpos | Hzero].
  - assert (Hq : ~ inject_Z n == 0).
    { intros H. apply (proj1 (inject_Z_injective n 0)) in H. lia. }
    assert (Hz : Qeq_bool (inject_Z n) 0 = false).
    { apply not_true_iff_false. intros H. now apply Qeq_bool_iff in H. }
    unfold UploadController.divide, ofZ. rewrite Hz.
    cbn [UploadController.times UploadController.Math_round].
    destruct (AggregatorFacts.ratio_range active n Hact Hpos) as [H0 H1].
    split; [| split; [reflexivity | split]].
    + eexists. split; [| reflexivity]. now apply AggregatorFacts.Qfloor_half_range.
    + intros ->. unfold ofZ. do 2 f_equal.
      rewrite (Qfloor_comp _ (1 # 2)); [reflexivity |]. field. exact Hq.
    + intros _ ->. unfold ofZ. do 2 f_equal.
      rewrite (Qfloor_comp _ (100 + (1 # 2))); [reflexivity |]. field. exact Hq.
  - assert (Hn : n = 0) by (subst n; lia).
    split; [| split; [reflexivity | split]].
    + exists 0. split; [lia | reflexivity].
    + reflexivity.
    + intros Hne. destruct normalizedData; [contradiction | discriminate].
Qed.

(** *** The lifecycle table against the global totals *)

Section Totals.

Variable E : engine.
Variable now : Z.

Lemma categoryBreakdown_NoDup (normalizedData : list obj) :
  NoDup (keys (UploadController.categoryBreakdown E normalizedData)).
Proof. apply (breakdown_NoDup E (Spec.categoryKey E)). constructor. Qed.

Lemma categoryBreakdown_plainKeys (normalizedData : list obj) :
  Spec.plainKeys (UploadController.categoryBreakdown E normalizedData).
Proof.
  apply (AggregatorFacts.fold_tally_plainKeys E (Spec.categoryKey E)).
  apply AggregatorFacts.plainKeys_nil.
Qed.

(** The lifecycle table is the list of the categories with their entries. *)
Lemma lifecycleByCategory_entries (normalizedData : list obj) :
  UploadController.lifecycleByCategory E now normalizedData
  = map (fun category =>
           (category, UploadController.lifecycleOf E now normalizedData category))
        (keys (UploadController.categoryBreakdown E normalizedData)).
Proof.
  unfold UploadController.lifecycleByCategory.
  rewrite (fold_assign_fresh
             (fun category => UploadController.lifecycleOf E now normalizedData category)).
  - reflexivity.
  - apply categoryBreakdown_NoDup.
  - intros k _ [].
Qed.

Lemma pastDate_expiredB (field : scalar) :
  UploadController.pastDate E now field = Spec.expiredB E now field.
Proof.
  unfold UploadController.pastDate, Spec.expiredB, UploadController.notAfter.
  destruct (truthy field); destruct (strictEqStr field "-"); reflexivity.
Qed.

Lemma keyed_visible (normalizedData : list obj) (item : obj) :
  In item normalizedData ->
  Spec.keyed (keys (UploadController.categoryBreakdown E normalizedData))
             (Spec.effectiveCategory item)
  = Spec.groupable (Spec.effectiveCategory item).
Proof.
  intros Hin. destruct (Spec.effectiveCategory item) as [| |b|n|c] eqn:Hc;
    try reflexivity.
  cbn [Spec.keyed Spec.groupable]. destruct (inherited c) eqn:Hi; cbn [negb].
  - apply not_true_iff_false. intros Hex.
    apply existsb_exists in Hex as (k & Hk & Heq). apply String.eqb_eq in Heq. subst k.
    apply In_keys_lookup in Hk.
    destruct (lookup (UploadController.categoryBreakdown E normalizedData) c) as [g|] eqn:Hl;
      [| congruence].
    pose proof (categoryBreakdown_plainKeys normalizedData c g Hl). congruence.
  - apply existsb_exists. exists c. split; [| apply String.eqb_refl].
    now destruct (AggregatorFacts.category_visited E normalizedData item c Hin Hc Hi).
Qed.

(** A column of the lifecycle table, summed, is the weight of the records
    the table can see. *)
Lemma lifecycle_column (normalizedData : list obj) (w : obj -> Z)
    (column : UploadController.lifecycle -> Z) :
  (forall category,
     column (UploadController.lifecycleOf E now normalizedData category)
     = Spec.sumOf (fun item => if strictEqStr (Spec.effectiveCategory item) category
                               then w item else 0) normalizedData) ->
  Spec.sumOver column (UploadController.lifecycleByCategory E now normalizedData)
  = Spec.sumOf w (Spec.visibleRecords normalizedData).
Proof.
  intros Hcol. rewrite lifecycleByCategory_entries, sumOver_map.
  rewrite (sumOf_ext _ _ _ (fun k _ => Hcol k)).
  rewrite sum_by_key by apply categoryBreakdown_NoDup.
  rewrite (sumOf_ext _ (fun item => if Spec.groupable (Spec.effectiveCategory item)
                                    then w item else 0)).
  - apply sumOf_filter.
  - intros item Hin. now rewrite keyed_visible.
Qed.

Lemma lifecycleOf_fields (normalizedData : list obj) (category : string) :
  let items := UploadController.categoryItems normalizedData category in
  UploadController.lifecycleOf E now normalizedData category
  = {| UploadController.totalQty := UploadController.totalQuantity E items;
       UploadController.endOfSale :=
         Spec.countIf (fun item => Spec.expiredB E now (get item "end_of_sale")) items;
       UploadController.endOfSWVuln :=
         Spec.countIf (fun item => Spec.expiredB E now (Spec.vulnField item)) items;
       UploadController.lastDaySupport :=
         Spec.countIf (fun item => Spec.expiredB E now (get item "last_day_support")) items;
       UploadController.total := Z.of_nat (length items) |}.
Proof.
  cbv zeta. unfold UploadController.lifecycleOf.
  now rewrite AggregatorFacts.lifecycle_fold.
Qed.

(** The lifecycle table accounts for exactly the records whose category is a
    string, or is absent, and names no member of [Object.prototype]: summed
    over the categories, its record totals and three expiry counters are the
    global totals of those records, and so are its quantities when they add up
    exactly; these are the global totals of the whole record set when every
    category is such a string or is absent. *)
Theorem lifecycle_totals (normalizedData : list obj) :
  let table := UploadController.lifecycleByCategory E now normalizedData in
  let visible := Spec.visibleRecords normalizedData in
  Spec.sumOver UploadController.total table = UploadController.totalRecords visible /\
  (Spec.safeQuantities E visible ->
   Spec.sumOver UploadController.totalQty table = UploadController.totalQuantity E visible) /\
  Spec.sumOver UploadController.endOfSale table
  = UploadController.totalEndOfSale E now visible /\
  Spec.sumOver UploadController.endOfSWVuln table
  = UploadController.totalEndOfSWVuln E now visible /\
  Spec.sumOver UploadController.lastDaySupport table
  = UploadController.totalLastDaySupport E now visible /\
  ((forall item, In item normalizedData ->
      Spec.groupable (Spec.effectiveCategory item) = true) ->
   visible = normalizedData).
Proof.
  cbv zeta. split; [| split; [| split; [| split; [| split]]]].
  - rewrite (lifecycle_column normalizedData (fun _ => 1)).
    + unfold UploadController.totalRecords. apply AggregatorFacts.sumOf_ones.
    + intros category. rewrite lifecycleOf_fields. cbn [UploadController.total].
      apply length_filter_sumOf.
  - intros _. rewrite (lifecycle_column normalizedData (UploadController.qtyOf E)).
    + now rewrite AggregatorFacts.totalQuantity_sumOf.
    + intros category. rewrite lifecycleOf_fields. cbn [UploadController.totalQty].
      rewrite AggregatorFacts.totalQuantity_sumOf. unfold UploadController.categoryItems.
      now rewrite <- sumOf_filter.
  - rewrite (lifecycle_column normalizedData
               (fun item => if Spec.expiredB E now (get item "end_of_sale") then 1 else 0)).
    + unfold UploadController.totalEndOfSale. rewrite length_filter_sumOf.
      apply sumOf_ext. intros item _. now rewrite pastDate_expiredB.
    + intros category. rewrite lifecycleOf_fields. cbn [UploadController.endOfSale].
      apply count_filter_sumOf.
  - rewrite (lifecycle_column normalizedData
               (fun item => if Spec.expiredB E now (Spec.vulnField item) then 1 else 0)).
    + unfold UploadController.totalEndOfSWVuln. rewrite length_filter_sumOf.
      apply sumOf_ext. intros item _. now rewrite pastDate_expiredB.
    + intros category. rewrite lifecycleOf_fields. cbn [UploadController.endOfSWVuln].
      apply count_filter_sumOf.
  - rewrite (lifecycle_column normalizedData
               (fun item => if Spec.expiredB E now (get item "last_day_support")
                            then 1 else 0)).
    + unfold UploadController.totalLastDaySupport. rewrite length_filter_sumOf.
      apply sumOf_ext. intros item _. now rewrite pastDate_expiredB.
    + intros category. rewrite lifecycleOf_fields. cbn [UploadController.lastDaySupport].
      apply count_filter_sumOf.
  - intros Hall. unfold Spec.visibleRecords.
    induction normalizedData as [|x l IH]; cbn [filter]; [reflexivity |].
    rewrite (Hall x) by now left. f_equal. apply IH. intros y Hy. apply Hall. now right.
Qed.

End Totals.

End SummaryFacts.

(* ===================================================================== *)
(** ** The built-in normalizer, paging, cleanup and export names *)
(* ===================================================================== *)

Module ServiceFacts.

Import Js JsFacts.


Section Builtin.

Variable E : engine.





Lemma builtinFrom_throws (index : Z) (data : list ColumnMapper.row) :
  In ColumnMapper.Nullish data -> UploadController.builtinFrom E index data = Throw TypeError.
Proof.
  revert index. induction data as [|r data IH]; intros index; [intros [] |].
  intros [-> | Hin]; [reflexivity |].
  destruct r as [|row]; [reflexivity |]. cbn [UploadController.builtinFrom].
  now rewrite (IH (index + 1) Hin).
Qed.

Lemma builtinFrom_returns (index : Z) (data : list ColumnMapper.row) :
  ~ In ColumnMapper.Nullish data ->
  exists items,
    UploadController.builtinFrom E index data = Return items /\
    length items = length data /\
    forall n row,
      nth_error data n = Some (ColumnMapper.Object row) ->
      nth_error items n = Some (UploadController.normalizedItem E row (index + Z.of_nat n)).
Proof.
  revert index. induction data as [|r data IH]; intros index Hnot.
  - exists []. repeat split. intros [|n] row H; discriminate.
  - destruct r as [|row]; [exfalso; apply Hnot; now left |].
    destruct (IH (index + 1)) as (items & Hret & Hlen & Hnth).
    { intros H. apply Hnot. now right. }
    cbn [UploadController.builtinFrom]. rewrite Hret.
    eexists. split; [reflexivity |]. split; [cbn [length]; now rewrite Hlen |].
    intros [|n] row' H; cbn [nth_error] in *.
    + injection H as <-. now rewrite Z.add_0_r.
    + rewrite (Hnth n row' H). do 2 f_equal. lia.
Qed.

(** The built-in normalizer is all or nothing: one [null] or [undefined] row
    makes the whole call throw, where the column mapper passes such a row
    through; with no such row it returns one record per row, in order, each
    numbered by its position. *)
Theorem builtinProcessData_all_or_nothing (data : list ColumnMapper.row) :
  (In ColumnMapper.Nullish data ->
   UploadController.builtinProcessData E data = Throw TypeError /\
   In ColumnMapper.Nullish (ColumnMapper.processData E data)) /\
  (~ In ColumnMapper.Nullish data ->
   exists items,
     UploadController.builtinProcessData E data = Return items /\
     length items = length data /\
     forall index row,
       nth_error data index = Some (ColumnMapper.Object row) ->
       nth_error items index
       = Some (UploadController.normalizedItem E row (Z.of_nat index))).
Proof.
  split.
  - intros Hin. split; [now apply builtinFrom_throws |].
    apply In_nth_error in Hin as [n Hn].
    apply (nth_error_In _ n).
    rewrite NormalizerFacts.processData_nth, Hn. reflexivity.
  - intros Hnot. apply (builtinFrom_returns 0 data Hnot).
Qed.

End Builtin.

(** *** Paging *)

Lemma firstn_plus {A : Type} (m n : nat) (l : list A) :
  firstn (m + n) l = (firstn m l ++ firstn n (skipn m l))%list.
Proof.
  revert l. induction m as [|m IH]; intros l; [reflexivity |].
  destruct l as [|x l]; cbn [Nat.add firstn skipn app].
  - now rewrite firstn_nil.
  - now rewrite IH.
Qed.

(** With an offset and a limit that are not negative, a slice is the first
    [limit] records after the first [offset]. *)
Lemma slice_window {A : Type} (l : list A) (offset limit : Z) :
  0 <= offset -> 0 <= limit ->
  UploadController.slice l offset (offset + limit)
  = firstn (Z.to_nat limit) (skipn (Z.to_nat offset) l).
Proof.
  intros Ho Hl. unfold UploadController.slice.
  destruct (Z.ltb_spec offset 0); [lia |].
  destruct (Z.ltb_spec (offset + limit) 0); [lia |].
  destruct (Z.le_gt_cases offset (Z.of_nat (length l))) as [Hin | Hout].
  - replace (Z.min offset (Z.of_nat (length l))) with offset by lia.
    destruct (Z.le_gt_cases (offset + limit) (Z.of_nat (length l))).
    + f_equal. lia.
    + apply ResultsFacts.firstn_beyond; rewrite length_skipn; lia.
  - rewrite !skipn_all2 by lia. now rewrite !firstn_nil.
Qed.

(** Successive pages fit together: the page at [offset] followed by the page
    at [offset + limit] is the double page at [offset], and a page holds
    [limit] records or what is left of the records after [offset]. *)
Theorem consecutive_pages (jobStorage : dict UploadController.job) (jobId : string)
    (stored : UploadController.job) (queryLimit queryOffset queryNext : option string)
    (limit offset : Z) :
  lookup jobStorage jobId = Some stored ->
  UploadController.parseIntParam queryLimit = Some limit -> 0 < limit ->
  UploadController.parseIntParam queryOffset = Some offset -> 0 <= offset ->
  UploadController.parseIntParam queryNext = Some (offset + limit) ->
  let records := UploadController.data stored in
  let page :=
    Spec.productsOf (UploadController.getResults jobStorage jobId queryLimit queryOffset) in
  let next :=
    Spec.productsOf (UploadController.getResults jobStorage jobId queryLimit queryNext) in
  (page ++ next)%list
  = firstn (Z.to_nat (limit + limit)) (skipn (Z.to_nat offset) records) /\
  Z.of_nat (length page) = Z.min limit (Z.max 0 (Z.of_nat (length records) - offset)).
Proof.
  intros Hjob Hlim Hpos Hoff Hnn Hnext. cbv zeta.
  unfold UploadController.getResults. rewrite Hjob, Hlim, Hoff, Hnext.
  assert (Hl : orInt (Some limit) (Z.of_nat (length (UploadController.data stored))) = limit)
    by (destruct limit; [lia | reflexivity | reflexivity]).
  assert (Ho : orInt (Some offset) 0 = offset) by (destruct offset; reflexivity).
  assert (Hn : orInt (Some (offset + limit)) 0 = offset + limit)
    by (destruct (offset + limit); reflexivity).
  rewrite Hl, Ho, Hn. cbn [Spec.productsOf].
  rewrite !slice_window by lia. split.
  - rewrite (Z2Nat.inj_add limit limit), firstn_plus by lia. f_equal.
    rewrite skipn_skipn. do 2 f_equal. lia.
  - rewrite length_firstn, length_skipn. lia.
Qed.

Lemma consecutive_pages_witness :
  (Spec.productsOf (UploadController.getResults Spec.oneJob "job-1" (Some "2") (Some "0"))
   ++ Spec.productsOf (UploadController.getResults Spec.oneJob "job-1" (Some "2") (Some "2")))%list
  = firstn (Z.to_nat (2 + 2)) (skipn (Z.to_nat 0) Spec.threeRecords) /\
  Z.of_nat
    (length
       (Spec.productsOf
          (UploadController.getResults Spec.oneJob "job-1" (Some "2") (Some "0"))))
  = Z.min 2 (Z.max 0 (Z.of_nat (length Spec.threeRecords) - 0)).
Proof.
  apply (consecutive_pages Spec.oneJob "job-1"
           {| UploadController.data := Spec.threeRecords |}
           (Some "2") (Some "0") (Some "2") 2 0);
    reflexivity || lia.
Defined.

(** *** Cleanup of old jobs *)

Section Cleanup.

Context {A : Type}.
Variable timestamp : A -> Z.
Variable now : Z.

Lemma lookup_absent (o : dict A) (k : string) : ~ In k (keys o) -> lookup o k = None.
Proof.
  induction o as [|[k' a] o IH]; cbn [lookup keys map fst In]; [reflexivity |].
  intros H. destruct (String.eqb_spec k' k) as [-> | _]; [exfalso; auto |].
  apply IH. intros Hin. apply H. now right.
Qed.

Lemma lookup_after (before o : dict A) (k : string) :
  ~ In k (keys before) -> lookup (before ++ o)%list k = lookup o k.
Proof.
  induction before as [|[k' a] before IH]; cbn [lookup keys map fst In app]; [reflexivity |].
  intros H. destruct (String.eqb_spec k' k) as [-> | _]; [exfalso; auto |].
  apply IH. intros Hin. apply H. now right.
Qed.

Lemma remove_absent (o : dict A) (k : string) : ~ In k (keys o) -> remove o k = o.
Proof.
  unfold remove.
  induction o as [|[k' a] o IH]; cbn [filter keys map fst In]; [reflexivity |].
  intros H. destruct (String.eqb_spec k' k) as [-> | _]; [exfalso; auto |].
  cbn [negb]. f_equal. apply IH. intros Hin. apply H. now right.
Qed.

Lemma remove_app (o o' : dict A) (k : string) :
  remove (o ++ o')%list k = (remove o k ++ remove o' k)%list.
Proof. unfold remove. apply filter_app. Qed.

Lemma remove_head (o : dict A) (k : string) (a : A) :
  remove ((k, a) :: o) k = remove o k.
Proof. unfold remove. cbn [filter fst]. now rewrite String.eqb_refl. Qed.

Lemma cleanup_fold (rest done : dict A) :
  NoDup (keys rest) ->
  (forall k, In k (keys rest) -> ~ In k (keys done)) ->
  fold_left (UploadController.cleanupStep timestamp (now - 60 * 60 * 1000))
            (keys rest) (Return (done ++ rest)%list)
  = Return (done ++ filter (fun entry => Spec.recent timestamp now (snd entry)) rest)%list.
Proof.
  set (kept := fun entry : string * A => Spec.recent timestamp now (snd entry)).
  revert done. induction rest as [|[k a] rest IH]; intros done Hnd Hdis; [reflexivity |].
  cbn [keys map fst] in Hnd, Hdis. apply NoDup_cons_iff in Hnd as [Hk Hnd].
  cbn [keys map fst fold_left UploadController.cleanupStep].
  rewrite lookup_after by (apply Hdis; now left).
  cbn [lookup]. rewrite String.eqb_refl.
  cbn [filter]. unfold kept at 1. unfold Spec.recent. cbn [snd].
  change 3600000 with (60 * 60 * 1000).
  destruct (timestamp a <? now - 60 * 60 * 1000); cbn [negb].
  - rewrite remove_app, remove_head, !remove_absent; auto.
    + apply IH; auto. intros k' Hin. apply Hdis. now right.
    + apply Hdis. now left.
  - change (done ++ (k, a) :: rest)%list with (done ++ [(k, a)] ++ rest)%list.
    change (done ++ (k, a) :: filter kept rest)%list
      with (done ++ [(k, a)] ++ filter kept rest)%list.
    rewrite !app_assoc. apply IH; auto.
    intros k' Hin. unfold keys. rewrite map_app, in_app_iff.
    intros [Hd | [<- | []]]; [| contradiction].
    apply (Hdis k'); [now right | exact Hd].
Qed.

Lemma lookup_filter (o : dict A) (p : A -> bool) (k : string) :
  NoDup (keys o) ->
  lookup (filter (fun entry => p (snd entry)) o) k
  = match lookup o k with
    | Some a => if p a then Some a else None
    | None => None
    end.
Proof.
  induction o as [|[k' a] o IH]; intros Hnd; [reflexivity |].
  cbn [keys map fst] in Hnd. apply NoDup_cons_iff in Hnd as [Hk Hnd].
  cbn [filter snd lookup].
  destruct (String.eqb_spec k' k) as [-> | Hne].
  - destruct (p a); cbn [lookup]; [now rewrite String.eqb_refl |].
    rewrite (IH Hnd), (lookup_absent o k Hk). reflexivity.
  - destruct (p a); cbn [lookup]; [| now apply IH].
    destruct (String.eqb_spec k' k); [contradiction | now apply IH].
Qed.

(** A cleanup never fails on a store whose job ids are distinct, as the keys
    of an object are: it leaves, in their order, the jobs that are not older
    than one hour, so a job id is found afterwards exactly when it was stored
    and its job is that recent; a job stamped exactly one hour ago is kept. *)
Theorem cleanupOldJobs_keeps_recent (jobStorage : dict A) :
  NoDup (keys jobStorage) ->
  exists cleaned,
    UploadController.cleanupOldJobs timestamp now jobStorage = Return cleaned /\
    cleaned = filter (fun entry => Spec.recent timestamp now (snd entry)) jobStorage /\
    (forall jobId,
       lookup cleaned jobId
       = match lookup jobStorage jobId with
         | Some stored => if now - 3600000 <=? timestamp stored then Some stored else None
         | None => None
         end).
Proof.
  intros Hnd. eexists. split; [| split; [reflexivity |]].
  - unfold UploadController.cleanupOldJobs. cbv zeta.
    apply (cleanup_fold jobStorage [] Hnd). intros k _ [].
  - intros jobId. rewrite (lookup_filter jobStorage (Spec.recent timestamp now) jobId Hnd).
    destruct (lookup jobStorage jobId) as [stored |]; [| reflexivity].
    unfold Spec.recent. rewrite Z.leb_antisym. reflexivity.
Qed.

End Cleanup.

Lemma cleanupOldJobs_keeps_recent_witness :
  NoDup (keys [("old", 0); ("new", 7200000)]) /\
  exists cleaned,
    UploadController.cleanupOldJobs (fun stamp : Z => stamp) 7200000
      [("old", 0); ("new", 7200000)] = Return cleaned /\
    cleaned
    = filter (fun entry => Spec.recent (fun stamp : Z => stamp) 7200000 (snd entry))
             [("old", 0); ("new", 7200000)] /\
    (forall jobId,
       lookup cleaned jobId
       = match lookup [("old", 0); ("new", 7200000)] jobId with
         | Some stored => if 7200000 - 3600000 <=? stored then Some stored else None
         | None => None
         end).
Proof.
  assert (H : NoDup (keys [("old", 0); ("new", 7200000)])).
  { cbn. repeat constructor; cbn; intuition discriminate. }
  split; [exact H |].
  exact (cleanupOldJobs_keeps_recent (fun stamp : Z => stamp) 7200000 _ H).
Defined.

(** *** Export file names *)

Lemma allChars_weaken (p q : ascii -> bool) (s : string) :
  (forall c, p c = true -> q c = true) -> allChars p s = true -> allChars q s = true.
Proof.
  intros Hpq. induction s as [|c s IH]; cbn [allChars]; [reflexivity |].
  rewrite !andb_true_iff. intros [Hc Hs]. split; auto.
Qed.

Lemma digit_filenameChar (c : ascii) : isDigit c = true -> Spec.filenameChar c = true.
Proof.
  unfold Spec.filenameChar. intros ->. now rewrite orb_true_r.
Qed.

Lemma underscoreNonAlnum_alphabet (s : string) :
  allChars Spec.filenameChar (UploadController.underscoreNonAlnum s) = true.
Proof.
  unfold UploadController.underscoreNonAlnum.
  induction s as [|c s IH]; cbn [mapString allChars]; [reflexivity |].
  rewrite IH, andb_true_r. unfold Spec.filenameChar.
  destruct (isLower c) eqn:Hl; cbn [orb]; [now rewrite Hl |].
  destruct (isUpper c) eqn:Hu; cbn [orb]; [now rewrite Hl, Hu |].
  destruct (isDigit c) eqn:Hd; [now rewrite Hl, Hu, Hd | reflexivity].
Qed.

Lemma underscoreNonAlnum_length (s : string) :
  String.length (UploadController.underscoreNonAlnum s) = String.length s.
Proof.
  unfold UploadController.underscoreNonAlnum.
  induction s as [|c s IH]; cbn [mapString String.length]; auto.
Qed.

Lemma pad_filenameChar (w : nat) (n : Z) : allChars Spec.filenameChar (pad w n) = true.
Proof.
  apply (allChars_weaken isDigit); [apply digit_filenameChar | apply DateFacts.digits_pad].
Qed.

Lemma toISODate_alphabet (t : Z) : allChars Spec.filenameChar (toISODate t) = true.
Proof.
  unfold toISODate, isoYear.
  repeat match goal with |- context [if ?b then _ else _] => destruct b end;
    rewrite ?DateFacts.allChars_append, ?pad_filenameChar; reflexivity.
Qed.

Lemma exportFilename_extension (customerName : string) (now : Z) (extension : string) :
  allChars Spec.filenameChar extension = true ->
  allChars Spec.filenameChar (UploadController.exportFilename customerName now extension)
  = true.
Proof.
  intros H. unfold UploadController.exportFilename.
  rewrite !DateFacts.allChars_append, underscoreNonAlnum_alphabet, toISODate_alphabet, H.
  reflexivity.
Qed.

Lemma get_mapString (f : ascii -> ascii) (s : string) (n : nat) :
  String.get n (mapString f s) = option_map f (String.get n s).
Proof.
  revert n. induction s as [|c s IH]; intros n; cbn [mapString String.get]; [reflexivity |].
  destruct n as [|n]; [reflexivity | apply IH].
Qed.

(** Whatever the customer name and the day, the file name of an export is
    [export_], the sanitized name, [_], the ISO date and the extension, where
    the sanitized name is the customer name with every character that is not
    a letter or a digit replaced by one underscore, letters and digits kept.
    In either format the file name is made of letters, digits and [_ - + .]
    only; its length is the length of the customer name and of the date plus
    13 for [.xlsx] and plus 12 for [.csv]. *)
Theorem exportFilename_alphabet (customerName : string) (now : Z) :
  (exists sanitized,
     (forall extension,
        UploadController.exportFilename customerName now extension
        = ("export_" ++ sanitized ++ "_" ++ toISODate now ++ extension)%string) /\
     String.length sanitized = String.length customerName /\
     forall n,
       String.get n sanitized
       = option_map (fun c => if isLower c || isUpper c || isDigit c then c else "_"%char)
                    (String.get n customerName)) /\
  allChars Spec.filenameChar (UploadController.exportFilename customerName now ".xlsx")
  = true /\
  allChars Spec.filenameChar (UploadController.exportFilename customerName now ".csv")
  = true /\
  String.length (UploadController.exportFilename customerName now ".xlsx")
  = (String.length customerName + String.length (toISODate now) + 13)%nat /\
  String.length (UploadController.exportFilename customerName now ".csv")
  = (String.length customerName + String.length (toISODate now) + 12)%nat.
Proof.
  split; [| split; [| split; [| split]]].
  - exists (UploadController.underscoreNonAlnum customerName).
    split; [reflexivity |]. split; [apply underscoreNonAlnum_length |].
    intros n. apply get_mapString.
  - now apply exportFilename_extension.
  - now apply exportFilename_extension.
  - unfold UploadController.exportFilename.
    rewrite !DateFacts.length_append, underscoreNonAlnum_length. cbn [String.length]. lia.
  - unfold UploadController.exportFilename.
    rewrite !DateFacts.length_append, underscoreNonAlnum_length. cbn [String.length]. lia.
Qed.

End ServiceFacts.

(* ===================================================================== *)
(** ** The distinct categories and manufacturers of the summary *)
(* ===================================================================== *)

Module DistinctFacts.

Import Js JsFacts.

Lemma sameValueZero_refl (v : scalar) : sameValueZero v v = true.
Proof.
  destruct v as [| |b|[|b|q]|s]; cbn [sameValueZero]; try reflexivity.
  - now destruct b.
  - now destruct b.
  - apply Qeq_bool_refl.
  - apply String.eqb_refl.
Qed.

Lemma sameValueZero_text (k : string) (v : scalar) :
  sameValueZero (VStr k) v = true -> v = VStr k.
Proof.
  destruct v; cbn [sameValueZero]; try discriminate.
  intros H. apply String.eqb_eq in H. now subst.
Qed.

Lemma setAdd_fresh (elements : list scalar) (v : scalar) :
  existsb (sameValueZero v) elements = false -> ~ In v elements.
Proof.
  intros H Hin. enough (existsb (sameValueZero v) elements = true) by congruence.
  apply existsb_exists. exists v. split; [exact Hin | apply sameValueZero_refl].
Qed.

(** A [Set] holds no element twice. *)
Lemma setAdd_NoDup (values elements : list scalar) :
  NoDup elements -> NoDup (fold_left UploadController.setAdd values elements).
Proof.
  revert elements. induction values as [|v values IH]; intros elements H; [exact H |].
  cbn [fold_left]. apply IH. unfold UploadController.setAdd.
  destruct (existsb (sameValueZero v) elements) eqn:He; [exact H |].
  apply NoDup_app; [exact H | repeat constructor; intros [] |].
  intros a Ha [<- | []]. now apply (setAdd_fresh elements v).
Qed.

(** Its elements are among the values added, and a text that was added is
    an element. *)
Lemma setAdd_from (values elements : list scalar) (v : scalar) :
  In v (fold_left UploadController.setAdd values elements) -> In v elements \/ In v values.
Proof.
  revert elements. induction values as [|w values IH]; intros elements H; [now left |].
  cbn [fold_left] in H. apply IH in H as [H | H]; [| right; now right].
  unfold UploadController.setAdd in H.
  destruct (existsb (sameValueZero w) elements); [now left |].
  apply in_app_or in H as [H | [<- | []]]; [now left | right; now left].
Qed.

Lemma setAdd_text (values elements : list scalar) (k : string) :
  In (VStr k) elements \/ In (VStr k) values ->
  In (VStr k) (fold_left UploadController.setAdd values elements).
Proof.
  revert elements. induction values as [|w values IH]; intros elements H.
  - destruct H as [H | []]. exact H.
  - cbn [fold_left]. apply IH. unfold UploadController.setAdd.
    destruct H as [H | [-> | H]].
    + left. destruct (existsb (sameValueZero w) elements); [exact H |].
      apply in_or_app. now left.
    + left. destruct (existsb (sameValueZero (VStr k)) elements) eqn:He.
      * apply existsb_exists in He as (x & Hx & Hsame).
        apply sameValueZero_text in Hsame. now subst.
      * apply in_or_app. right. now left.
    + now right.
Qed.

Lemma distinct_text (values : list scalar) (k : string) :
  In (VStr k) (UploadController.distinct values) <-> In (VStr k) values.
Proof.
  unfold UploadController.distinct. split.
  - intros H. apply setAdd_from in H as [[] | H]. exact H.
  - intros H. apply setAdd_text. now right.
Qed.

Lemma distinct_text_value (values : list scalar) (v : scalar) (k : string) :
  v = VStr k -> In v values -> In v (UploadController.distinct values).
Proof. intros -> H. now apply distinct_text. Qed.

(** Texts without repetition, counted against a list that holds them. *)
Lemma texts_at_most (ks : list string) (values : list scalar) :
  NoDup ks -> (forall k, In k ks -> In (VStr k) values) ->
  (length ks <= length values)%nat.
Proof.
  intros Hnd Hin. rewrite <- (length_map VStr ks).
  apply NoDup_incl_length.
  - clear Hin. induction Hnd as [|k ks Hk Hnd IH]; cbn [map]; constructor; [| exact IH].
    intros H. apply in_map_iff in H as (k' & Heq & Hin). injection Heq as ->. auto.
  - intros v Hv. apply in_map_iff in Hv as (k & <- & Hk). now apply Hin.
Qed.

Lemma at_most_texts (ks : list string) (values : list scalar) :
  NoDup values -> (forall v, In v values -> exists k, v = VStr k /\ In k ks) ->
  (length values <= length ks)%nat.
Proof.
  intros Hnd Hin. rewrite <- (length_map VStr ks).
  apply NoDup_incl_length; [exact Hnd |].
  intros v Hv. destruct (Hin v Hv) as (k & -> & Hk). now apply in_map.
Qed.

Section Distinct.

Variable E : engine.

Lemma breakdown_key_iff (keyOf : obj -> string) (normalizedData : list obj) (key : string) :
  In key (keys (fold_left (fun b item => UploadController.tally E b (keyOf item) item)
                          normalizedData []))
  <-> inherited key = false /\ exists item, In item normalizedData /\ keyOf item = key.
Proof.
  rewrite SummaryFacts.In_keys_lookup, SummaryFacts.breakdown_lookup.
  destruct (inherited key); [split; [congruence | intros [H _]; discriminate H] |].
  destruct (existsb (fun item => (keyOf item =? key)%string) normalizedData) eqn:He.
  - apply existsb_exists in He as (item & Hin & Hk). apply String.eqb_eq in Hk.
    split; [intros _; split; [reflexivity | now exists item] | discriminate].
  - split; [congruence |]. intros (_ & item & Hin & Hk).
    enough (existsb (fun item => (keyOf item =? key)%string) normalizedData = true)
      by congruence.
    apply existsb_exists. exists item. split; [exact Hin | now apply String.eqb_eq].
Qed.

Lemma groupable_text (v : scalar) :
  Spec.groupable v = true -> v = VStr (toString E v) /\ inherited (toString E v) = false.
Proof.
  destruct v as [| |b|n|c]; cbn [Spec.groupable toString]; try discriminate.
  intros H. apply negb_true_iff in H. now split.
Qed.

(** When every category is a text, or is missing, and names no member of
    [Object.prototype], the number of categories the summary reports is the
    number of groups of [categoryBreakdown], and the distinct categories are
    the keys of the groups. *)
Theorem categories_counted (normalizedData : list obj) :
  (forall item, In item normalizedData ->
     Spec.groupable (Spec.effectiveCategory item) = true) ->
  UploadController.totalCategories normalizedData
  = Z.of_nat (length (keys (UploadController.categoryBreakdown E normalizedData))) /\
  forall key,
    In (VStr key) (UploadController.uniqueCategories normalizedData)
    <-> In key (keys (UploadController.categoryBreakdown E normalizedData)).
Proof.
  intros Htext.
  assert (Hkey : forall key,
             In (VStr key) (UploadController.uniqueCategories normalizedData)
             <-> In key (keys (UploadController.categoryBreakdown E normalizedData))).
  { intros key. unfold UploadController.uniqueCategories. rewrite distinct_text.
    unfold UploadController.categoryBreakdown.
    rewrite (breakdown_key_iff (Spec.categoryKey E)).
    rewrite in_map_iff. split.
    - intros (item & H1 & H2). destruct (groupable_text _ (Htext item H2)) as [_ Hplain].
      unfold Spec.categoryKey, Spec.effectiveCategory in *. rewrite H1 in *.
      split; [exact Hplain |]. exists item. split; [exact H2 | now rewrite H1].
    - intros (_ & item & H1 & H2). exists item. split; [| exact H1].
      destruct (groupable_text _ (Htext item H1)) as [Hv _].
      unfold Spec.categoryKey, Spec.effectiveCategory in *.
      rewrite Hv at 1. now rewrite H2. }
  split; [| exact Hkey].
  unfold UploadController.totalCategories. f_equal. apply Nat.le_antisymm.
  - apply at_most_texts.
    + apply setAdd_NoDup. constructor.
    + intros v Hv. exists (toString E v).
      assert (Hs : v = VStr (toString E v)).
      { apply setAdd_from in Hv as [[] | Hv].
        apply in_map_iff in Hv as (item & <- & Hin).
        now destruct (groupable_text _ (Htext item Hin)). }
      split; [exact Hs |]. rewrite Hs in Hv. now apply Hkey.
  - apply texts_at_most.
    + apply (SummaryFacts.breakdown_NoDup E (Spec.categoryKey E)). constructor.
    + intros k Hk. now apply Hkey.
Qed.

(** When every manufacturer is a text, or is missing, and names no member of
    [Object.prototype], the manufacturers the summary counts are those of the
    groups of [manufacturerBreakdown] but for the group ['Unknown'] of the
    records without one: there are as many groups, or one more, and as many
    when every record names its manufacturer. *)
Theorem manufacturers_counted (normalizedData : list obj) :
  (forall item, In item normalizedData ->
     Spec.groupable (Spec.effectiveManufacturer item) = true) ->
  let groups :=
    Z.of_nat (length (keys (UploadController.manufacturerBreakdown E normalizedData))) in
  let named item := truthy (get item "mfg") && negb (strictEqStr (get item "mfg") "-") in
  UploadController.totalManufacturers normalizedData <= groups /\
  groups <= UploadController.totalManufacturers normalizedData + 1 /\
  (forallb named normalizedData = true ->
   groups = UploadController.totalManufacturers normalizedData).
Proof.
  intros Htext. cbv zeta.
  set (named := fun item : obj =>
                  truthy (get item "mfg") && negb (strictEqStr (get item "mfg") "-")).
  set (names := filter (fun m => truthy m && negb (strictEqStr m "-"))
                       (map (fun item : obj => get item "mfg") normalizedData)).
  assert (Hname : forall v, In v names <->
                    exists item, In item normalizedData /\ named item = true /\
                                 get item "mfg" = v).
  { intros v. unfold names. rewrite filter_In, in_map_iff. split.
    - intros ((item & <- & Hin) & Hreal). now exists item.
    - intros (item & Hin & Hreal & <-). split; [now exists item | exact Hreal]. }
  assert (Hgroup : forall key,
             In key (keys (UploadController.manufacturerBreakdown E normalizedData))
             <-> inherited key = false /\
                 exists item, In item normalizedData /\ Spec.manufacturerKey E item = key).
  { intros key. apply (breakdown_key_iff (Spec.manufacturerKey E)). }
  assert (Hnd : NoDup (keys (UploadController.manufacturerBreakdown E normalizedData))).
  { apply (SummaryFacts.breakdown_NoDup E (Spec.manufacturerKey E)). constructor. }
  assert (Hset : NoDup (UploadController.distinct names))
    by (apply setAdd_NoDup; constructor).
  assert (Hreal : forall item, In item normalizedData -> named item = true ->
                    get item "mfg" = VStr (Spec.manufacturerKey E item) /\
                    inherited (Spec.manufacturerKey E item) = false).
  { intros item Hin Hn. pose proof (groupable_text _ (Htext item Hin)) as H.
    unfold Spec.manufacturerKey, Spec.effectiveManufacturer in *.
    fold (named item) in *. now rewrite Hn in *. }
  assert (Hle : (length (UploadController.distinct names)
                 <= length (keys (UploadController.manufacturerBreakdown E normalizedData)))%nat).
  { apply at_most_texts; [exact Hset |].
    intros v Hv. apply setAdd_from in Hv as [[] | Hv].
    apply Hname in Hv as (item & Hin & Hn & <-).
    destruct (Hreal item Hin Hn) as [Hv Hplain].
    exists (Spec.manufacturerKey E item). split; [exact Hv |].
    apply Hgroup. split; [exact Hplain | now exists item]. }
  unfold UploadController.totalManufacturers. fold names.
  split; [lia |]. split.
  - enough (length (keys (UploadController.manufacturerBreakdown E normalizedData))
            <= length (VStr "Unknown" :: UploadController.distinct names))%nat
      by (cbn [length] in *; lia).
    apply texts_at_most; [exact Hnd |].
    intros k Hk. apply Hgroup in Hk as (_ & item & Hin & <-).
    destruct (named item) eqn:Hn.
    + right. destruct (Hreal item Hin Hn) as [Hv _].
      rewrite <- Hv. apply (distinct_text_value names _ _ Hv).
      apply Hname. now exists item.
    + left. unfold Spec.manufacturerKey, Spec.effectiveManufacturer.
      fold (named item). now rewrite Hn.
  - intros Hall. rewrite forallb_forall in Hall.
    enough (length (keys (UploadController.manufacturerBreakdown E normalizedData))
            <= length (UploadController.distinct names))%nat by lia.
    apply texts_at_most; [exact Hnd |].
    intros k Hk. apply Hgroup in Hk as (_ & item & Hin & <-).
    destruct (Hreal item Hin (Hall item Hin)) as [Hv _].
    rewrite <- Hv. apply (distinct_text_value names _ _ Hv).
    apply Hname. exists item. auto.
Qed.

End Distinct.

Lemma categories_counted_witness :
  UploadController.totalCategories Spec.routerRecords
  = Z.of_nat
      (length (keys (UploadController.categoryBreakdown Spec.isoOnlyEngine
                       Spec.routerRecords))) /\
  forall key,
    In (VStr key) (UploadController.uniqueCategories Spec.routerRecords)
    <-> In key (keys (UploadController.categoryBreakdown Spec.isoOnlyEngine
                        Spec.routerRecords)).
Proof.
  apply (categories_counted Spec.isoOnlyEngine Spec.routerRecords).
  intros item [<- | [<- | []]]; reflexivity.
Defined.

Lemma manufacturers_counted_witness :
  UploadController.totalManufacturers Spec.vendorRecords
  <= Z.of_nat
       (length (keys (UploadController.manufacturerBreakdown Spec.isoOnlyEngine
                        Spec.vendorRecords))) /\
  Z.of_nat
    (length (keys (UploadController.manufacturerBreakdown Spec.isoOnlyEngine
                     Spec.vendorRecords)))
  <= UploadController.totalManufacturers Spec.vendorRecords + 1.
Proof.
  destruct (manufacturers_counted Spec.isoOnlyEngine Spec.vendorRecords) as (H1 & H2 & _).
  - intros item [<- | [<- | [<- | []]]]; reflexivity.
  - split; [exact H1 | exact H2].
Defined.

End DistinctFacts.
